(** * Hikma Health backend: the helpers of [hikmahealth/utils/misc.py]

    A shallow embedding of the six helpers of the module (identifier case
    conversion, dictionary-key normalisation, UUID version detection and
    validation, the defensive JSON wrappers and the filter-operator
    table), with the properties its specification states about them.

    Python strings are sequences of Unicode code points and Python
    integers are unbounded, so a string is a [list N] and an integer a
    [Z].  An exception is a value of [exn]; code that can raise lives in
    the [outcome] monad.  What the helpers take from the interpreter (the
    character database behind [str.isupper] and [str.lower], the
    [uuid.UUID] constructor) is written out from CPython 3.11; the [json]
    codec is a parameter of the JSON wrappers.

    The interpreter bounds the depth of calls.  Code whose calls nest
    with its input takes the number of frames the recursion limit leaves
    as an argument: every call of a Python function takes one, a
    comprehension being one, and so does every array, object, list or
    dictionary the C codec goes into; [RecursionError] is raised when
    none is left.  The interpreter also counts calls that do not nest
    with the input (of a built-in function or method, of the class of an
    exception that is raised), and the wrappers log a warning when they
    fall back on the default: these are not modelled, and the statements
    that promise a result keep [spare_frames] in reserve for them. *)

From Stdlib Require Import String Ascii List NArith ZArith Bool Lia.
Import ListNotations.

(** ** Strings, exceptions and the [outcome] monad *)

Definition char : Type := N.
Definition str : Type := list char.

(** A literal: the code points of an ASCII (Latin-1) text. *)
Definition py (s : string) : str := map N_of_ascii (list_ascii_of_string s).

Definition char_eqb (a b : char) : bool := N.eqb a b.

Fixpoint str_eqb (a b : str) : bool :=
  match a, b with
  | [], [] => true
  | x :: a', y :: b' => char_eqb x y && str_eqb a' b'
  | _, _ => false
  end.

(** The exception classes the module meets.  [JSONDecodeError] is a
    subclass of [ValueError]; the others are unrelated to one another. *)
Inductive exn : Type :=
| ValueError
| JSONDecodeError
| TypeError
| AttributeError
| IndexError
| OverflowError
| RecursionError.

Definition exn_eqb (a b : exn) : bool :=
  match a, b with
  | ValueError, ValueError | JSONDecodeError, JSONDecodeError
  | TypeError, TypeError | AttributeError, AttributeError
  | IndexError, IndexError | OverflowError, OverflowError
  | RecursionError, RecursionError => true
  | _, _ => false
  end.

(** [isinstance(e, cls)] *)
Definition isinstance_exn (e cls : exn) : bool :=
  exn_eqb e cls ||
  match e, cls with JSONDecodeError, ValueError => true | _, _ => false end.

(** [except (c1, ..., cn)] catches [e] *)
Definition caught (classes : list exn) (e : exn) : bool :=
  existsb (isinstance_exn e) classes.

Inductive outcome (A : Type) : Type :=
| Ok (a : A)
| Raise (e : exn).
Arguments Ok {A} a.
Arguments Raise {A} e.

Definition bind {A B} (c : outcome A) (k : A -> outcome B) : outcome B :=
  match c with Ok a => k a | Raise e => Raise e end.

Notation "x <- c ;; k" := (bind c (fun x => k))
  (at level 61, c at next level, right associativity).

(** [try: body  except classes: handler] *)
Definition try_except {A} (body : outcome A) (classes : list exn)
    (handler : outcome A) : outcome A :=
  match body with
  | Ok a => Ok a
  | Raise e => if caught classes e then handler else Raise e
  end.

(** [for x in xs: acc = body(acc, x)], stopping at the first exception. *)
Definition for_each {A S} (body : S -> A -> outcome S)
    : list A -> S -> outcome S :=
  fix loop (xs : list A) (acc : S) : outcome S :=
    match xs with
    | [] => Ok acc
    | x :: xs' => acc' <- body acc x ;; loop xs' acc'
    end.

(** What one turn of a loop with an early [return] does. *)
Inductive flow (R : Type) : Type :=
| Continue
| Return (r : R).
Arguments Continue {R}.
Arguments Return {R} r.

(** [for x in xs: body(x)] followed by [rest], where [body] may return. *)
Definition for_return {A R} (body : A -> outcome (flow R))
    : list A -> outcome R -> outcome R :=
  fix loop (xs : list A) (rest : outcome R) : outcome R :=
    match xs with
    | [] => rest
    | x :: xs' =>
        f <- body x ;;
        match f with
        | Return r => Ok r
        | Continue => loop xs' rest
        end
    end.

(** The call of a Python function (a comprehension is one): it takes a
    frame, and raises [RecursionError] when none is left; the body runs
    with the frames that remain. *)
Definition call {A} (frames : nat) (body : nat -> outcome A) : outcome A :=
  match frames with
  | O => Raise RecursionError
  | S rest => body rest
  end.

(** [s[i]] for [0 <= i]; out of range raises [IndexError]. *)
Definition getitem {A} (s : list A) (i : nat) : outcome A :=
  match nth_error s i with
  | Some x => Ok x
  | None => Raise IndexError
  end.

(** [s[-1]] *)
Definition getlast {A} (s : list A) : outcome A :=
  match s with
  | [] => Raise IndexError
  | _ => getitem s (length s - 1)
  end.

(** ** The character database

    Unicode 14.0.0, the version CPython 3.11 ships: the derived
    properties behind [str.isupper], [str.islower], [str.isalnum],
    [str.isspace] and [str.isdecimal] on one-character strings, and the
    lowercase mapping behind [str.lower]. *)
Module Unicode.

Local Open Scope N_scope.

(** [(first, last, step)] stands for [first, first + step, ..., last]. *)
Definition run : Type := N * N * N.

Definition in_run (c : N) (r : run) : bool :=
  let '(lo, hi, step) := r in
  (lo <=? c) && (c <=? hi) && ((c - lo) mod step =? 0).

Definition in_table (c : N) (t : list run) : bool := existsb (in_run c) t.

(** The code points on which [str.isupper] holds (Uppercase), as runs
    [(first, last, step)]. *)
Definition upper_table : list run :=
  [
    (65,90,1); (192,214,1); (216,222,1); (256,310,2); (313,327,2); (330,376,2); (377,381,2);
    (385,386,1); (388,390,2); (391,393,2); (394,395,1); (398,401,1); (403,404,1);
    (406,408,1); (412,413,1); (415,416,1); (418,422,2); (423,425,2); (428,430,2);
    (431,433,2); (434,435,1); (437,439,2); (440,440,1); (444,444,1); (452,452,1);
    (455,455,1); (458,458,1); (461,475,2); (478,494,2); (497,497,1); (500,502,2);
    (503,504,1); (506,562,2); (570,571,1); (573,574,1); (577,579,2); (580,582,1);
    (584,590,2); (880,882,2); (886,886,1); (895,895,1); (902,904,2); (905,906,1);
    (908,910,2); (911,913,2); (914,929,1); (931,939,1); (975,975,1); (978,980,1);
    (984,1006,2); (1012,1012,1); (1015,1017,2); (1018,1018,1); (1021,1071,1); (1120,1152,2);
    (1162,1216,2); (1217,1229,2); (1232,1326,2); (1329,1366,1); (4256,4293,1);
    (4295,4295,1); (4301,4301,1); (5024,5109,1); (7312,7354,1); (7357,7359,1);
    (7680,7828,2); (7838,7934,2); (7944,7951,1); (7960,7965,1); (7976,7983,1);
    (7992,7999,1); (8008,8013,1); (8025,8031,2); (8040,8047,1); (8120,8123,1);
    (8136,8139,1); (8152,8155,1); (8168,8172,1); (8184,8187,1); (8450,8450,1);
    (8455,8455,1); (8459,8461,1); (8464,8466,1); (8469,8469,1); (8473,8477,1);
    (8484,8490,2); (8491,8493,1); (8496,8499,1); (8510,8511,1); (8517,8517,1);
    (8544,8559,1); (8579,8579,1); (9398,9423,1); (11264,11311,1); (11360,11362,2);
    (11363,11364,1); (11367,11373,2); (11374,11376,1); (11378,11378,1); (11381,11381,1);
    (11390,11392,1); (11394,11490,2); (11499,11501,2); (11506,11506,1); (42560,42604,2);
    (42624,42650,2); (42786,42798,2); (42802,42862,2); (42873,42877,2); (42878,42886,2);
    (42891,42893,2); (42896,42898,2); (42902,42922,2); (42923,42926,1); (42928,42932,1);
    (42934,42948,2); (42949,42951,1); (42953,42953,1); (42960,42960,1); (42966,42968,2);
    (42997,42997,1); (65313,65338,1); (66560,66599,1); (66736,66771,1); (66928,66938,1);
    (66940,66954,1); (66956,66962,1); (66964,66965,1); (68736,68786,1); (71840,71871,1);
    (93760,93791,1); (119808,119833,1); (119860,119885,1); (119912,119937,1);
    (119964,119966,2); (119967,119967,1); (119970,119970,1); (119973,119974,1);
    (119977,119980,1); (119982,119989,1); (120016,120041,1); (120068,120069,1);
    (120071,120074,1); (120077,120084,1); (120086,120092,1); (120120,120121,1);
    (120123,120126,1); (120128,120132,1); (120134,120134,1); (120138,120144,1);
    (120172,120197,1); (120224,120249,1); (120276,120301,1); (120328,120353,1);
    (120380,120405,1); (120432,120457,1); (120488,120512,1); (120546,120570,1);
    (120604,120628,1); (120662,120686,1); (120720,120744,1); (120778,120778,1);
    (125184,125217,1); (127280,127305,1); (127312,127337,1); (127344,127369,1) ].

(** The code points on which [str.islower] holds (Lowercase), as runs
    [(first, last, step)]. *)
Definition lower_table : list run :=
  [
    (97,122,1); (170,170,1); (181,181,1); (186,186,1); (223,246,1); (248,255,1);
    (257,311,2); (312,328,2); (329,375,2); (378,382,2); (383,384,1); (387,389,2);
    (392,392,1); (396,397,1); (402,402,1); (405,405,1); (409,411,1); (414,414,1);
    (417,421,2); (424,426,2); (427,429,2); (432,432,1); (436,438,2); (441,442,1);
    (445,447,1); (454,454,1); (457,457,1); (460,476,2); (477,495,2); (496,496,1);
    (499,501,2); (505,563,2); (564,569,1); (572,572,1); (575,576,1); (578,578,1);
    (583,591,2); (592,659,1); (661,696,1); (704,705,1); (736,740,1); (837,837,1);
    (881,883,2); (887,887,1); (890,893,1); (912,912,1); (940,974,1); (976,977,1);
    (981,983,1); (985,1007,2); (1008,1011,1); (1013,1013,1); (1016,1016,1); (1019,1020,1);
    (1072,1119,1); (1121,1153,2); (1163,1215,2); (1218,1230,2); (1231,1327,2);
    (1376,1416,1); (4304,4346,1); (4349,4351,1); (5112,5117,1); (7296,7304,1);
    (7424,7615,1); (7681,7829,2); (7830,7837,1); (7839,7935,2); (7936,7943,1);
    (7952,7957,1); (7968,7975,1); (7984,7991,1); (8000,8005,1); (8016,8023,1);
    (8032,8039,1); (8048,8061,1); (8064,8071,1); (8080,8087,1); (8096,8103,1);
    (8112,8116,1); (8118,8119,1); (8126,8126,1); (8130,8132,1); (8134,8135,1);
    (8144,8147,1); (8150,8151,1); (8160,8167,1); (8178,8180,1); (8182,8183,1);
    (8305,8305,1); (8319,8319,1); (8336,8348,1); (8458,8458,1); (8462,8463,1);
    (8467,8467,1); (8495,8495,1); (8500,8500,1); (8505,8505,1); (8508,8509,1);
    (8518,8521,1); (8526,8526,1); (8560,8575,1); (8580,8580,1); (9424,9449,1);
    (11312,11359,1); (11361,11361,1); (11365,11366,1); (11368,11372,2); (11377,11379,2);
    (11380,11382,2); (11383,11389,1); (11393,11491,2); (11492,11492,1); (11500,11502,2);
    (11507,11507,1); (11520,11557,1); (11559,11559,1); (11565,11565,1); (42561,42605,2);
    (42625,42651,2); (42652,42653,1); (42787,42799,2); (42800,42801,1); (42803,42863,2);
    (42864,42872,1); (42874,42876,2); (42879,42887,2); (42892,42894,2); (42897,42899,2);
    (42900,42901,1); (42903,42921,2); (42927,42927,1); (42933,42947,2); (42952,42954,2);
    (42961,42969,2); (42998,43000,2); (43001,43002,1); (43824,43866,1); (43868,43880,1);
    (43888,43967,1); (64256,64262,1); (64275,64279,1); (65345,65370,1); (66600,66639,1);
    (66776,66811,1); (66967,66977,1); (66979,66993,1); (66995,67001,1); (67003,67004,1);
    (67456,67456,1); (67459,67461,1); (67463,67504,1); (67506,67514,1); (68800,68850,1);
    (71872,71903,1); (93792,93823,1); (119834,119859,1); (119886,119892,1);
    (119894,119911,1); (119938,119963,1); (119990,119993,1); (119995,119997,2);
    (119998,120003,1); (120005,120015,1); (120042,120067,1); (120094,120119,1);
    (120146,120171,1); (120198,120223,1); (120250,120275,1); (120302,120327,1);
    (120354,120379,1); (120406,120431,1); (120458,120485,1); (120514,120538,1);
    (120540,120545,1); (120572,120596,1); (120598,120603,1); (120630,120654,1);
    (120656,120661,1); (120688,120712,1); (120714,120719,1); (120746,120770,1);
    (120772,120777,1); (120779,120779,1); (122624,122633,1); (122635,122654,1);
    (125218,125251,1) ].

(** The code points on which [str.isalnum] holds (alphanumeric), as runs
    [(first, last, step)]. *)
Definition alnum_table : list run :=
  [
    (48,57,1); (65,90,1); (97,122,1); (170,170,1); (178,179,1); (181,181,1); (185,186,1);
    (188,190,1); (192,214,1); (216,246,1); (248,705,1); (710,721,1); (736,740,1);
    (748,750,2); (880,884,1); (886,887,1); (890,893,1); (895,895,1); (902,904,2);
    (905,906,1); (908,910,2); (911,929,1); (931,1013,1); (1015,1153,1); (1162,1327,1);
    (1329,1366,1); (1369,1369,1); (1376,1416,1); (1488,1514,1); (1519,1522,1);
    (1568,1610,1); (1632,1641,1); (1646,1647,1); (1649,1747,1); (1749,1749,1);
    (1765,1766,1); (1774,1788,1); (1791,1791,1); (1808,1810,2); (1811,1839,1);
    (1869,1957,1); (1969,1969,1); (1984,2026,1); (2036,2037,1); (2042,2042,1);
    (2048,2069,1); (2074,2074,1); (2084,2084,1); (2088,2088,1); (2112,2136,1);
    (2144,2154,1); (2160,2183,1); (2185,2190,1); (2208,2249,1); (2308,2361,1);
    (2365,2365,1); (2384,2384,1); (2392,2401,1); (2406,2415,1); (2417,2432,1);
    (2437,2444,1); (2447,2448,1); (2451,2472,1); (2474,2480,1); (2482,2482,1);
    (2486,2489,1); (2493,2493,1); (2510,2510,1); (2524,2525,1); (2527,2529,1);
    (2534,2545,1); (2548,2553,1); (2556,2556,1); (2565,2570,1); (2575,2576,1);
    (2579,2600,1); (2602,2608,1); (2610,2611,1); (2613,2614,1); (2616,2617,1);
    (2649,2652,1); (2654,2654,1); (2662,2671,1); (2674,2676,1); (2693,2701,1);
    (2703,2705,1); (2707,2728,1); (2730,2736,1); (2738,2739,1); (2741,2745,1);
    (2749,2749,1); (2768,2768,1); (2784,2785,1); (2790,2799,1); (2809,2809,1);
    (2821,2828,1); (2831,2832,1); (2835,2856,1); (2858,2864,1); (2866,2867,1);
    (2869,2873,1); (2877,2877,1); (2908,2909,1); (2911,2913,1); (2918,2927,1);
    (2929,2935,1); (2947,2949,2); (2950,2954,1); (2958,2960,1); (2962,2965,1);
    (2969,2970,1); (2972,2974,2); (2975,2975,1); (2979,2980,1); (2984,2986,1);
    (2990,3001,1); (3024,3024,1); (3046,3058,1); (3077,3084,1); (3086,3088,1);
    (3090,3112,1); (3114,3129,1); (3133,3133,1); (3160,3162,1); (3165,3165,1);
    (3168,3169,1); (3174,3183,1); (3192,3198,1); (3200,3200,1); (3205,3212,1);
    (3214,3216,1); (3218,3240,1); (3242,3251,1); (3253,3257,1); (3261,3261,1);
    (3293,3294,1); (3296,3297,1); (3302,3311,1); (3313,3314,1); (3332,3340,1);
    (3342,3344,1); (3346,3386,1); (3389,3389,1); (3406,3406,1); (3412,3414,1);
    (3416,3425,1); (3430,3448,1); (3450,3455,1); (3461,3478,1); (3482,3505,1);
    (3507,3515,1); (3517,3517,1); (3520,3526,1); (3558,3567,1); (3585,3632,1);
    (3634,3635,1); (3648,3654,1); (3664,3673,1); (3713,3714,1); (3716,3718,2);
    (3719,3722,1); (3724,3747,1); (3749,3751,2); (3752,3760,1); (3762,3763,1);
    (3773,3773,1); (3776,3780,1); (3782,3782,1); (3792,3801,1); (3804,3807,1);
    (3840,3840,1); (3872,3891,1); (3904,3911,1); (3913,3948,1); (3976,3980,1);
    (4096,4138,1); (4159,4169,1); (4176,4181,1); (4186,4189,1); (4193,4193,1);
    (4197,4198,1); (4206,4208,1); (4213,4225,1); (4238,4240,2); (4241,4249,1);
    (4256,4293,1); (4295,4295,1); (4301,4301,1); (4304,4346,1); (4348,4680,1);
    (4682,4685,1); (4688,4694,1); (4696,4698,2); (4699,4701,1); (4704,4744,1);
    (4746,4749,1); (4752,4784,1); (4786,4789,1); (4792,4798,1); (4800,4802,2);
    (4803,4805,1); (4808,4822,1); (4824,4880,1); (4882,4885,1); (4888,4954,1);
    (4969,4988,1); (4992,5007,1); (5024,5109,1); (5112,5117,1); (5121,5740,1);
    (5743,5759,1); (5761,5786,1); (5792,5866,1); (5870,5880,1); (5888,5905,1);
    (5919,5937,1); (5952,5969,1); (5984,5996,1); (5998,6000,1); (6016,6067,1);
    (6103,6103,1); (6108,6108,1); (6112,6121,1); (6128,6137,1); (6160,6169,1);
    (6176,6264,1); (6272,6276,1); (6279,6312,1); (6314,6314,1); (6320,6389,1);
    (6400,6430,1); (6470,6509,1); (6512,6516,1); (6528,6571,1); (6576,6601,1);
    (6608,6618,1); (6656,6678,1); (6688,6740,1); (6784,6793,1); (6800,6809,1);
    (6823,6823,1); (6917,6963,1); (6981,6988,1); (6992,7001,1); (7043,7072,1);
    (7086,7141,1); (7168,7203,1); (7232,7241,1); (7245,7293,1); (7296,7304,1);
    (7312,7354,1); (7357,7359,1); (7401,7404,1); (7406,7411,1); (7413,7414,1);
    (7418,7418,1); (7424,7615,1); (7680,7957,1); (7960,7965,1); (7968,8005,1);
    (8008,8013,1); (8016,8023,1); (8025,8031,2); (8032,8061,1); (8064,8116,1);
    (8118,8124,1); (8126,8126,1); (8130,8132,1); (8134,8140,1); (8144,8147,1);
    (8150,8155,1); (8160,8172,1); (8178,8180,1); (8182,8188,1); (8304,8305,1);
    (8308,8313,1); (8319,8329,1); (8336,8348,1); (8450,8450,1); (8455,8455,1);
    (8458,8467,1); (8469,8469,1); (8473,8477,1); (8484,8490,2); (8491,8493,1);
    (8495,8505,1); (8508,8511,1); (8517,8521,1); (8526,8528,2); (8529,8585,1);
    (9312,9371,1); (9450,9471,1); (10102,10131,1); (11264,11492,1); (11499,11502,1);
    (11506,11507,1); (11517,11517,1); (11520,11557,1); (11559,11559,1); (11565,11565,1);
    (11568,11623,1); (11631,11631,1); (11648,11670,1); (11680,11686,1); (11688,11694,1);
    (11696,11702,1); (11704,11710,1); (11712,11718,1); (11720,11726,1); (11728,11734,1);
    (11736,11742,1); (11823,11823,1); (12293,12295,1); (12321,12329,1); (12337,12341,1);
    (12344,12348,1); (12353,12438,1); (12445,12447,1); (12449,12538,1); (12540,12543,1);
    (12549,12591,1); (12593,12686,1); (12690,12693,1); (12704,12735,1); (12784,12799,1);
    (12832,12841,1); (12872,12879,1); (12881,12895,1); (12928,12937,1); (12977,12991,1);
    (13312,19903,1); (19968,42124,1); (42192,42237,1); (42240,42508,1); (42512,42539,1);
    (42560,42606,1); (42623,42653,1); (42656,42735,1); (42775,42783,1); (42786,42888,1);
    (42891,42954,1); (42960,42961,1); (42963,42965,2); (42966,42969,1); (42994,43009,1);
    (43011,43013,1); (43015,43018,1); (43020,43042,1); (43056,43061,1); (43072,43123,1);
    (43138,43187,1); (43216,43225,1); (43250,43255,1); (43259,43261,2); (43262,43264,2);
    (43265,43301,1); (43312,43334,1); (43360,43388,1); (43396,43442,1); (43471,43481,1);
    (43488,43492,1); (43494,43518,1); (43520,43560,1); (43584,43586,1); (43588,43595,1);
    (43600,43609,1); (43616,43638,1); (43642,43642,1); (43646,43695,1); (43697,43697,1);
    (43701,43702,1); (43705,43709,1); (43712,43714,2); (43739,43741,1); (43744,43754,1);
    (43762,43764,1); (43777,43782,1); (43785,43790,1); (43793,43798,1); (43808,43814,1);
    (43816,43822,1); (43824,43866,1); (43868,43881,1); (43888,44002,1); (44016,44025,1);
    (44032,55203,1); (55216,55238,1); (55243,55291,1); (63744,64109,1); (64112,64217,1);
    (64256,64262,1); (64275,64279,1); (64285,64287,2); (64288,64296,1); (64298,64310,1);
    (64312,64316,1); (64318,64320,2); (64321,64323,2); (64324,64326,2); (64327,64433,1);
    (64467,64829,1); (64848,64911,1); (64914,64967,1); (65008,65019,1); (65136,65140,1);
    (65142,65276,1); (65296,65305,1); (65313,65338,1); (65345,65370,1); (65382,65470,1);
    (65474,65479,1); (65482,65487,1); (65490,65495,1); (65498,65500,1); (65536,65547,1);
    (65549,65574,1); (65576,65594,1); (65596,65597,1); (65599,65613,1); (65616,65629,1);
    (65664,65786,1); (65799,65843,1); (65856,65912,1); (65930,65931,1); (66176,66204,1);
    (66208,66256,1); (66273,66299,1); (66304,66339,1); (66349,66378,1); (66384,66421,1);
    (66432,66461,1); (66464,66499,1); (66504,66511,1); (66513,66517,1); (66560,66717,1);
    (66720,66729,1); (66736,66771,1); (66776,66811,1); (66816,66855,1); (66864,66915,1);
    (66928,66938,1); (66940,66954,1); (66956,66962,1); (66964,66965,1); (66967,66977,1);
    (66979,66993,1); (66995,67001,1); (67003,67004,1); (67072,67382,1); (67392,67413,1);
    (67424,67431,1); (67456,67461,1); (67463,67504,1); (67506,67514,1); (67584,67589,1);
    (67592,67594,2); (67595,67637,1); (67639,67640,1); (67644,67644,1); (67647,67669,1);
    (67672,67702,1); (67705,67742,1); (67751,67759,1); (67808,67826,1); (67828,67829,1);
    (67835,67867,1); (67872,67897,1); (67968,68023,1); (68028,68047,1); (68050,68096,1);
    (68112,68115,1); (68117,68119,1); (68121,68149,1); (68160,68168,1); (68192,68222,1);
    (68224,68255,1); (68288,68295,1); (68297,68324,1); (68331,68335,1); (68352,68405,1);
    (68416,68437,1); (68440,68466,1); (68472,68497,1); (68521,68527,1); (68608,68680,1);
    (68736,68786,1); (68800,68850,1); (68858,68899,1); (68912,68921,1); (69216,69246,1);
    (69248,69289,1); (69296,69297,1); (69376,69415,1); (69424,69445,1); (69457,69460,1);
    (69488,69505,1); (69552,69579,1); (69600,69622,1); (69635,69687,1); (69714,69743,1);
    (69745,69746,1); (69749,69749,1); (69763,69807,1); (69840,69864,1); (69872,69881,1);
    (69891,69926,1); (69942,69951,1); (69956,69956,1); (69959,69959,1); (69968,70002,1);
    (70006,70006,1); (70019,70066,1); (70081,70084,1); (70096,70106,1); (70108,70108,1);
    (70113,70132,1); (70144,70161,1); (70163,70187,1); (70272,70278,1); (70280,70282,2);
    (70283,70285,1); (70287,70301,1); (70303,70312,1); (70320,70366,1); (70384,70393,1);
    (70405,70412,1); (70415,70416,1); (70419,70440,1); (70442,70448,1); (70450,70451,1);
    (70453,70457,1); (70461,70461,1); (70480,70480,1); (70493,70497,1); (70656,70708,1);
    (70727,70730,1); (70736,70745,1); (70751,70753,1); (70784,70831,1); (70852,70853,1);
    (70855,70855,1); (70864,70873,1); (71040,71086,1); (71128,71131,1); (71168,71215,1);
    (71236,71236,1); (71248,71257,1); (71296,71338,1); (71352,71352,1); (71360,71369,1);
    (71424,71450,1); (71472,71483,1); (71488,71494,1); (71680,71723,1); (71840,71922,1);
    (71935,71942,1); (71945,71945,1); (71948,71955,1); (71957,71958,1); (71960,71983,1);
    (71999,72001,2); (72016,72025,1); (72096,72103,1); (72106,72144,1); (72161,72163,2);
    (72192,72192,1); (72203,72242,1); (72250,72250,1); (72272,72272,1); (72284,72329,1);
    (72349,72349,1); (72368,72440,1); (72704,72712,1); (72714,72750,1); (72768,72768,1);
    (72784,72812,1); (72818,72847,1); (72960,72966,1); (72968,72969,1); (72971,73008,1);
    (73030,73030,1); (73040,73049,1); (73056,73061,1); (73063,73064,1); (73066,73097,1);
    (73112,73112,1); (73120,73129,1); (73440,73458,1); (73648,73648,1); (73664,73684,1);
    (73728,74649,1); (74752,74862,1); (74880,75075,1); (77712,77808,1); (77824,78894,1);
    (82944,83526,1); (92160,92728,1); (92736,92766,1); (92768,92777,1); (92784,92862,1);
    (92864,92873,1); (92880,92909,1); (92928,92975,1); (92992,92995,1); (93008,93017,1);
    (93019,93025,1); (93027,93047,1); (93053,93071,1); (93760,93846,1); (93952,94026,1);
    (94032,94032,1); (94099,94111,1); (94176,94177,1); (94179,94179,1); (94208,100343,1);
    (100352,101589,1); (101632,101640,1); (110576,110579,1); (110581,110587,1);
    (110589,110590,1); (110592,110882,1); (110928,110930,1); (110948,110951,1);
    (110960,111355,1); (113664,113770,1); (113776,113788,1); (113792,113800,1);
    (113808,113817,1); (119520,119539,1); (119648,119672,1); (119808,119892,1);
    (119894,119964,1); (119966,119967,1); (119970,119970,1); (119973,119974,1);
    (119977,119980,1); (119982,119993,1); (119995,119997,2); (119998,120003,1);
    (120005,120069,1); (120071,120074,1); (120077,120084,1); (120086,120092,1);
    (120094,120121,1); (120123,120126,1); (120128,120132,1); (120134,120134,1);
    (120138,120144,1); (120146,120485,1); (120488,120512,1); (120514,120538,1);
    (120540,120570,1); (120572,120596,1); (120598,120628,1); (120630,120654,1);
    (120656,120686,1); (120688,120712,1); (120714,120744,1); (120746,120770,1);
    (120772,120779,1); (120782,120831,1); (122624,122654,1); (123136,123180,1);
    (123191,123197,1); (123200,123209,1); (123214,123214,1); (123536,123565,1);
    (123584,123627,1); (123632,123641,1); (124896,124902,1); (124904,124907,1);
    (124909,124910,1); (124912,124926,1); (124928,125124,1); (125127,125135,1);
    (125184,125251,1); (125259,125259,1); (125264,125273,1); (126065,126123,1);
    (126125,126127,1); (126129,126132,1); (126209,126253,1); (126255,126269,1);
    (126464,126467,1); (126469,126495,1); (126497,126498,1); (126500,126500,1);
    (126503,126505,2); (126506,126514,1); (126516,126519,1); (126521,126523,2);
    (126530,126530,1); (126535,126541,2); (126542,126543,1); (126545,126546,1);
    (126548,126548,1); (126551,126561,2); (126562,126564,2); (126567,126570,1);
    (126572,126578,1); (126580,126583,1); (126585,126588,1); (126590,126592,2);
    (126593,126601,1); (126603,126619,1); (126625,126627,1); (126629,126633,1);
    (126635,126651,1); (127232,127244,1); (130032,130041,1); (131072,173791,1);
    (173824,177976,1); (177984,178205,1); (178208,183969,1); (183984,191456,1);
    (194560,195101,1); (196608,201546,1) ].

(** The code points on which [str.isspace] holds (whitespace), as runs
    [(first, last, step)]. *)
Definition space_table : list run :=
  [
    (9,13,1); (28,32,1); (133,133,1); (160,160,1); (5760,5760,1); (8192,8202,1);
    (8232,8233,1); (8239,8239,1); (8287,8287,1); (12288,12288,1) ].

(** The code points on which [str.isdecimal] holds (decimal digit), as runs
    [(first, last, step)]. *)
Definition decimal_table : list run :=
  [
    (48,57,1); (1632,1641,1); (1776,1785,1); (1984,1993,1); (2406,2415,1); (2534,2543,1);
    (2662,2671,1); (2790,2799,1); (2918,2927,1); (3046,3055,1); (3174,3183,1);
    (3302,3311,1); (3430,3439,1); (3558,3567,1); (3664,3673,1); (3792,3801,1);
    (3872,3881,1); (4160,4169,1); (4240,4249,1); (6112,6121,1); (6160,6169,1);
    (6470,6479,1); (6608,6617,1); (6784,6793,1); (6800,6809,1); (6992,7001,1);
    (7088,7097,1); (7232,7241,1); (7248,7257,1); (42528,42537,1); (43216,43225,1);
    (43264,43273,1); (43472,43481,1); (43504,43513,1); (43600,43609,1); (44016,44025,1);
    (65296,65305,1); (66720,66729,1); (68912,68921,1); (69734,69743,1); (69872,69881,1);
    (69942,69951,1); (70096,70105,1); (70384,70393,1); (70736,70745,1); (70864,70873,1);
    (71248,71257,1); (71360,71369,1); (71472,71481,1); (71904,71913,1); (72016,72025,1);
    (72784,72793,1); (73040,73049,1); (73120,73129,1); (92768,92777,1); (92864,92873,1);
    (93008,93017,1); (120782,120831,1); (123200,123209,1); (123632,123641,1);
    (125264,125273,1); (130032,130041,1) ].

(** The simple lowercase mappings: [(first, last, step, image of first)]; a
    code point [c] of the run maps to [image + (c - first)]. *)
Definition lower_map : list (run * N) :=
  [
    (65,90,1,97); (192,214,1,224); (216,222,1,248); (256,302,2,257); (306,310,2,307);
    (313,327,2,314); (330,374,2,331); (376,376,1,255); (377,381,2,378); (385,385,1,595);
    (386,388,2,387); (390,390,1,596); (391,391,1,392); (393,394,1,598); (395,395,1,396);
    (398,398,1,477); (399,399,1,601); (400,400,1,603); (401,401,1,402); (403,403,1,608);
    (404,404,1,611); (406,406,1,617); (407,407,1,616); (408,408,1,409); (412,412,1,623);
    (413,413,1,626); (415,415,1,629); (416,420,2,417); (422,422,1,640); (423,423,1,424);
    (425,425,1,643); (428,428,1,429); (430,430,1,648); (431,431,1,432); (433,434,1,650);
    (435,437,2,436); (439,439,1,658); (440,440,1,441); (444,444,1,445); (452,452,1,454);
    (453,453,1,454); (455,455,1,457); (456,456,1,457); (458,458,1,460); (459,475,2,460);
    (478,494,2,479); (497,497,1,499); (498,500,2,499); (502,502,1,405); (503,503,1,447);
    (504,542,2,505); (544,544,1,414); (546,562,2,547); (570,570,1,11365); (571,571,1,572);
    (573,573,1,410); (574,574,1,11366); (577,577,1,578); (579,579,1,384); (580,580,1,649);
    (581,581,1,652); (582,590,2,583); (880,882,2,881); (886,886,1,887); (895,895,1,1011);
    (902,902,1,940); (904,906,1,941); (908,908,1,972); (910,911,1,973); (913,929,1,945);
    (931,939,1,963); (975,975,1,983); (984,1006,2,985); (1012,1012,1,952);
    (1015,1015,1,1016); (1017,1017,1,1010); (1018,1018,1,1019); (1021,1023,1,891);
    (1024,1039,1,1104); (1040,1071,1,1072); (1120,1152,2,1121); (1162,1214,2,1163);
    (1216,1216,1,1231); (1217,1229,2,1218); (1232,1326,2,1233); (1329,1366,1,1377);
    (4256,4293,1,11520); (4295,4295,1,11559); (4301,4301,1,11565); (5024,5103,1,43888);
    (5104,5109,1,5112); (7312,7354,1,4304); (7357,7359,1,4349); (7680,7828,2,7681);
    (7838,7838,1,223); (7840,7934,2,7841); (7944,7951,1,7936); (7960,7965,1,7952);
    (7976,7983,1,7968); (7992,7999,1,7984); (8008,8013,1,8000); (8025,8031,2,8017);
    (8040,8047,1,8032); (8072,8079,1,8064); (8088,8095,1,8080); (8104,8111,1,8096);
    (8120,8121,1,8112); (8122,8123,1,8048); (8124,8124,1,8115); (8136,8139,1,8050);
    (8140,8140,1,8131); (8152,8153,1,8144); (8154,8155,1,8054); (8168,8169,1,8160);
    (8170,8171,1,8058); (8172,8172,1,8165); (8184,8185,1,8056); (8186,8187,1,8060);
    (8188,8188,1,8179); (8486,8486,1,969); (8490,8490,1,107); (8491,8491,1,229);
    (8498,8498,1,8526); (8544,8559,1,8560); (8579,8579,1,8580); (9398,9423,1,9424);
    (11264,11311,1,11312); (11360,11360,1,11361); (11362,11362,1,619); (11363,11363,1,7549);
    (11364,11364,1,637); (11367,11371,2,11368); (11373,11373,1,593); (11374,11374,1,625);
    (11375,11375,1,592); (11376,11376,1,594); (11378,11378,1,11379); (11381,11381,1,11382);
    (11390,11391,1,575); (11392,11490,2,11393); (11499,11501,2,11500);
    (11506,11506,1,11507); (42560,42604,2,42561); (42624,42650,2,42625);
    (42786,42798,2,42787); (42802,42862,2,42803); (42873,42875,2,42874);
    (42877,42877,1,7545); (42878,42886,2,42879); (42891,42891,1,42892); (42893,42893,1,613);
    (42896,42898,2,42897); (42902,42920,2,42903); (42922,42922,1,614); (42923,42923,1,604);
    (42924,42924,1,609); (42925,42925,1,620); (42926,42926,1,618); (42928,42928,1,670);
    (42929,42929,1,647); (42930,42930,1,669); (42931,42931,1,43859); (42932,42946,2,42933);
    (42948,42948,1,42900); (42949,42949,1,642); (42950,42950,1,7566); (42951,42953,2,42952);
    (42960,42960,1,42961); (42966,42968,2,42967); (42997,42997,1,42998);
    (65313,65338,1,65345); (66560,66599,1,66600); (66736,66771,1,66776);
    (66928,66938,1,66967); (66940,66954,1,66979); (66956,66962,1,66995);
    (66964,66965,1,67003); (68736,68786,1,68800); (71840,71871,1,71872);
    (93760,93791,1,93792); (125184,125217,1,125218) ].
(** The one code point whose lowercase form is not a single code point:
    U+0130 lower-cases to U+0069 U+0307. *)
Definition lower_special : list (N * list N) := [(304, [105; 775])].

Definition isupper (c : char) : bool := in_table c upper_table.
Definition islower (c : char) : bool := in_table c lower_table.
Definition isalnum (c : char) : bool := in_table c alnum_table.
Definition isspace (c : char) : bool := in_table c space_table.
Definition isdecimal (c : char) : bool := in_table c decimal_table.

Definition map_run (c : N) (e : run * N) : option N :=
  let '(r, image) := e in
  if in_run c r then Some (image + (c - fst (fst r))) else None.

Fixpoint lookup_run (c : N) (t : list (run * N)) : option N :=
  match t with
  | [] => None
  | e :: t' =>
      match map_run c e with
      | Some d => Some d
      | None => lookup_run c t'
      end
  end.

Fixpoint lookup_special (c : N) (t : list (N * list N)) : option (list N) :=
  match t with
  | [] => None
  | (k, v) :: t' => if k =? c then Some v else lookup_special c t'
  end.

(** [chr(c).lower()] *)
Definition lower (c : char) : str :=
  match lookup_special c lower_special with
  | Some v => v
  | None =>
      match lookup_run c lower_map with
      | Some d => [d]
      | None => [c]
      end
  end.

(** [Py_UNICODE_TODECIMAL]: the value of a decimal digit.  The digits of
    a script are ten consecutive code points, zero first, and every run
    of [decimal_table] starts at a zero. *)
Fixpoint decimal_in (c : N) (t : list run) : option N :=
  match t with
  | [] => None
  | r :: t' =>
      if in_run c r then Some ((c - fst (fst r)) mod 10) else decimal_in c t'
  end.

Definition todecimal (c : char) : option N := decimal_in c decimal_table.

End Unicode.

Definition underscore : char := 95%N.

(** ** Case conversion: [to_snake_case] *)

Import Unicode.

(** One turn of the loop [for i in range(1, len(string))]: [result] is the
    list of pieces appended so far. *)
Definition snake_step (string : str) (result : list str) (i : nat)
    : outcome (list str) :=
  curr <- getitem string i ;;
  prev <- getitem string (i - 1) ;;
  next_char <-
    (if Nat.ltb i (length string - 1)
     then c <- getitem string (i + 1) ;; Ok (Some c)
     else Ok None) ;;
  result1 <-
    (if isupper curr &&
        ((isalnum prev && negb (isupper prev)) ||
         match next_char with Some n => islower n | None => false end)
     then
       tail <- getlast result ;;
       if negb (str_eqb tail [underscore])
       then Ok (result ++ [[underscore]])
       else Ok result
     else Ok result) ;;
  Ok (result1 ++ [lower curr]).

Definition to_snake_case (string : str) : outcome str :=
  match string with
  | [] => Ok string
  | _ =>
      first <- getitem string 0 ;;
      pieces <- for_each (snake_step string) (seq 1 (length string - 1))
                  [lower first] ;;
      Ok (concat pieces)
  end.

(** The scan as the specification words it: the output is one string, an
    underscore goes before an uppercase character that follows a
    non-uppercase alphanumeric or precedes a lowercase character, unless
    the output already ends in an underscore. *)
Definition ends_with_underscore (out : str) : bool :=
  match rev out with
  | c :: _ => char_eqb c underscore
  | [] => false
  end.

Definition wants_underscore (prev curr : char) (next : option char) : bool :=
  isupper curr &&
  ((isalnum prev && negb (isupper prev)) ||
   match next with Some n => islower n | None => false end).

Fixpoint snake_scan_from (out : str) (prev : char) (rest : str) : str :=
  match rest with
  | [] => out
  | curr :: rest' =>
      let out1 :=
        if wants_underscore prev curr (hd_error rest') &&
           negb (ends_with_underscore out)
        then out ++ [underscore] else out in
      snake_scan_from (out1 ++ lower curr) curr rest'
  end.

Definition snake_scan (s : str) : str :=
  match s with
  | [] => []
  | first :: rest => snake_scan_from (lower first) first rest
  end.

(** ** Python values

    The values the helpers are handed: [None], booleans, integers,
    floats (by their IEEE-754 bit pattern), strings, lists, tuples,
    dictionaries with string keys, and an object of any other class (a
    set, a [bytes], an instance of a user class), known by the name of
    its class only.  A dictionary keeps its items in insertion order. *)

Definition float64 : Type := Z.

#[local] Unset Elimination Schemes.
Inductive pyval : Type :=
| PNone
| PBool (b : bool)
| PInt (n : Z)
| PFloat (f : float64)
| PStr (s : str)
| PList (items : list pyval)
| PTuple (items : list pyval)
| PDict (items : list (str * pyval))
| PObject (class_name : string).
#[local] Set Elimination Schemes.

(** [d[k] = v]: an existing key keeps its place, a new one goes last. *)
Fixpoint dict_set {V} (d : list (str * V)) (k : str) (v : V)
    : list (str * V) :=
  match d with
  | [] => [(k, v)]
  | (k', v') :: d' =>
      if str_eqb k' k then (k', v) :: d' else (k', v') :: dict_set d' k v
  end.

(** [d.get(k)] *)
Fixpoint dict_get {V} (d : list (str * V)) (k : str) : option V :=
  match d with
  | [] => None
  | (k', v) :: d' => if str_eqb k' k then Some v else dict_get d' k
  end.

(** [d.get(k, default)] *)
Definition dict_get_default {V} (d : list (str * V)) (k : str) (default : V)
    : V :=
  match dict_get d k with
  | Some v => v
  | None => default
  end.

(** The dictionary display [{k1: v1, ..., kn: vn}] and [dict(pairs)]. *)
Definition dict_of_items {V} (items : list (str * V)) : list (str * V) :=
  fold_left (fun d kv => dict_set d (fst kv) (snd kv)) items [].

Definition dict_keys {V} (d : list (str * V)) : list str := map fst d.

(** ** Dictionary keys: [convert_dict_keys_to_snake_case] *)

(** [frames] is the number of frames the recursion limit leaves when the
    function is called.  The function takes one, the dictionary
    comprehension a second, and inside it each call of [to_snake_case]
    and each recursive call a third. *)
Fixpoint convert_dict_keys_to_snake_case (frames : nat) (data : pyval)
    {struct data} : outcome pyval :=
  call frames (fun rest =>
    match data with
    | PDict items =>
        call rest (fun inner =>
          d <- for_each
                 (fun acc kv =>
                    key <- call inner (fun _ => to_snake_case (fst kv)) ;;
                    value <- convert_dict_keys_to_snake_case inner (snd kv) ;;
                    Ok (dict_set acc key value))
                 items [] ;;
          Ok (PDict d))
    | _ => Ok data
    end).

(** The conversion as the specification words it: a mapping is rebuilt
    from its items, each key through the case converter and each value
    through the same rule; anything else is left as it is. *)
Fixpoint snake_keys (data : pyval) : pyval :=
  match data with
  | PDict items =>
      PDict (dict_of_items
               (map (fun kv => (snake_scan (fst kv), snake_keys (snd kv)))
                  items))
  | _ => data
  end.

(** The frames a conversion takes: one for a value that is not a
    mapping, two for an empty mapping, and two more than the most its
    values take for any other. *)
Fixpoint frames_needed (data : pyval) : nat :=
  match data with
  | PDict items => 2 + list_max (map (fun kv => frames_needed (snd kv)) items)
  | _ => 1
  end.

(** [{"a": {"a": ... {}}}] with [depth] mappings in all *)
Fixpoint nested_mapping (depth : nat) : pyval :=
  match depth with
  | O => PNone
  | S O => PDict []
  | S depth' => PDict [(py "a", nested_mapping depth')]
  end.

(** The number of constructors of a value. *)
Fixpoint pyval_size (v : pyval) : nat :=
  match v with
  | PList items | PTuple items => S (list_sum (map pyval_size items))
  | PDict items => S (list_sum (map (fun kv => pyval_size (snd kv)) items))
  | _ => 1
  end.

(** ** Filter operators: [convert_operator] *)

Definition operator_map (case_insensitive : bool) : list (str * str) :=
  dict_of_items
    [ (py "contains", if case_insensitive then py "ILIKE" else py "LIKE");
      (py "does not contain",
       if case_insensitive then py "NOT ILIKE" else py "NOT LIKE");
      (py "is empty", py "IS NULL");
      (py "is not empty", py "IS NOT NULL");
      (py "=", py "=");
      (py "!=", py "!=");
      (py "<", py "<");
      (py ">", py ">");
      (py "<=", py "<=");
      (py ">=", py ">=") ].

Definition convert_operator (operator : str) (case_insensitive : bool) : str :=
  dict_get_default (operator_map case_insensitive) operator
    (if case_insensitive then py "ILIKE" else py "=").

(** ** UUIDs: [uuid.UUID], [get_uuid_version], [is_valid_uuid] *)

Local Open Scope Z_scope.

(** *** The string methods [uuid.UUID] uses *)

(** [s.startswith(prefix)] *)
Fixpoint startswith (s prefix : str) : bool :=
  match prefix, s with
  | [], _ => true
  | p :: prefix', c :: s' => char_eqb c p && startswith s' prefix'
  | _ :: _, [] => false
  end.

(** [s.replace(old, new)] for a non-empty [old]: the occurrences of [old]
    are found from the left and do not overlap; [skip] counts the
    characters of the occurrence just replaced that are still ahead. *)
Fixpoint replace_from (old new : str) (skip : nat) (s : str) : str :=
  match s with
  | [] => []
  | c :: s' =>
      match skip with
      | S k => replace_from old new k s'
      | O =>
          if startswith s old
          then new ++ replace_from old new (length old - 1) s'
          else c :: replace_from old new 0 s'
      end
  end.

Definition replace (s old new : str) : str := replace_from old new 0 s.

Definition char_in (chars : str) (c : char) : bool :=
  existsb (char_eqb c) chars.

Fixpoint lstrip (chars s : str) : str :=
  match s with
  | [] => []
  | c :: s' => if char_in chars c then lstrip chars s' else s
  end.

Definition rstrip (chars s : str) : str := rev (lstrip chars (rev s)).

(** [s.strip(chars)] *)
Definition strip (chars s : str) : str := rstrip chars (lstrip chars s).

(** *** [int(s, 16)] *)

(** [_PyUnicode_TransformDecimalAndSpaceToASCII]: an ASCII string is kept;
    otherwise whitespace becomes a space, a decimal digit its ASCII
    digit, and the text ends in ['?'] at the first other character from
    U+007F on. *)
Fixpoint transform_non_ascii (s : str) : str :=
  match s with
  | [] => []
  | c :: s' =>
      if (c <? 127)%N then c :: transform_non_ascii s'
      else if isspace c then 32%N :: transform_non_ascii s'
      else
        match todecimal c with
        | Some d => (48 + d)%N :: transform_non_ascii s'
        | None => [63%N]
        end
  end.

Definition transform_decimal_and_space (s : str) : str :=
  if forallb (fun c => (c <? 128)%N) s then s else transform_non_ascii s.

(** [Py_ISSPACE] *)
Definition ascii_isspace (c : char) : bool :=
  ((c =? 32) || ((9 <=? c) && (c <=? 13)))%N.

(** [_PyLong_DigitValue] *)
Definition digit_value (c : char) : option Z :=
  if ((48 <=? c) && (c <=? 57))%N then Some (Z.of_N c - 48)
  else if ((97 <=? c) && (c <=? 122))%N then Some (Z.of_N c - 87)
  else if ((65 <=? c) && (c <=? 90))%N then Some (Z.of_N c - 55)
  else None.

Fixpoint skip_spaces (s : str) : str :=
  match s with
  | [] => []
  | c :: s' => if ascii_isspace c then skip_spaces s' else s
  end.

(** The digits of a literal: digits below [base] with single underscores
    between them.  Gives the value and what follows the digits. *)
Fixpoint scan_digits (base : Z) (after_underscore : bool) (acc : Z) (s : str)
    : outcome (Z * str) :=
  let stop := if after_underscore then Raise ValueError else Ok (acc, s) in
  match s with
  | [] => stop
  | c :: s' =>
      if char_eqb c underscore
      then if after_underscore then Raise ValueError
           else scan_digits base true acc s'
      else
        match digit_value c with
        | Some d =>
            if d <? base then scan_digits base false (acc * base + d) s'
            else stop
        | None => stop
        end
  end.

(** [PyLong_FromString(s, base=16)]: spaces, a sign, [0x] or [0X] and one
    underscore, the digits, spaces, and nothing after them. *)
Definition PyLong_FromString_16 (s : str) : outcome Z :=
  let s := skip_spaces s in
  let '(sign, s) :=
    match s with
    | c :: t => if (c =? 43)%N then (1, t)
                else if (c =? 45)%N then (-1, t) else (1, s)
    | [] => (1, s)
    end in
  let s :=
    match s with
    | c0 :: c1 :: t =>
        if ((c0 =? 48) && ((c1 =? 120) || (c1 =? 88)))%N
        then match t with
             | c2 :: t' => if char_eqb c2 underscore then t' else t
             | [] => t
             end
        else s
    | _ => s
    end in
  if startswith s [underscore] then Raise ValueError
  else
    scanned <- scan_digits 16 false 0 s ;;
    let '(value, rest) := scanned in
    if Nat.eqb (length rest) (length s) then Raise ValueError
    else
      match skip_spaces rest with
      | [] => Ok (sign * value)
      | _ :: _ => Raise ValueError
      end.

Definition int_16 (s : str) : outcome Z :=
  PyLong_FromString_16 (transform_decimal_and_space s).

(** *** [uuid.UUID(hex, version=version)] and [str(uuid)]

    A UUID object is its 128-bit integer. *)
Definition UUID (hex : str) (version : option Z) : outcome Z :=
  let hex := replace (replace hex (py "urn:") []) (py "uuid:") [] in
  let hex := replace (strip (py "{}") hex) (py "-") [] in
  if negb (Nat.eqb (length hex) 32) then Raise ValueError
  else
    int <- int_16 hex ;;
    if negb ((0 <=? int) && (int <? Z.shiftl 1 128)) then Raise ValueError
    else
      match version with
      | None => Ok int
      | Some version =>
          if negb ((1 <=? version) && (version <=? 5)) then Raise ValueError
          else
            let int := Z.land int (Z.lnot (Z.shiftl 0xc000 48)) in
            let int := Z.lor int (Z.shiftl 0x8000 48) in
            let int := Z.land int (Z.lnot (Z.shiftl 0xf000 64)) in
            let int := Z.lor int (Z.shiftl version 76) in
            Ok int
      end.

Definition hex_char (d : Z) : char :=
  if d <? 10 then Z.to_N (48 + d) else Z.to_N (87 + d).

(** The [k] low hexadecimal digits of [n], most significant first. *)
Fixpoint hex_digits (k : nat) (n : Z) : str :=
  match k with
  | O => []
  | S k' => hex_digits k' (n / 16) ++ [hex_char (n mod 16)]
  end.

(** ['%032x' % n] for [0 <= n] *)
Definition format_032x (n : Z) : str :=
  hex_digits (Nat.max 32 (Z.to_nat (Z.log2 n / 4 + 1))) n.

(** [str(uuid)] *)
Definition uuid_str (int : Z) : str :=
  let hex := format_032x int in
  firstn 8 hex ++ py "-" ++ firstn 4 (skipn 8 hex) ++ py "-" ++
  firstn 4 (skipn 12 hex) ++ py "-" ++ firstn 4 (skipn 16 hex) ++ py "-" ++
  skipn 20 hex.

(** *** The module's functions *)

Definition SUPPORTED_UUID_VERSIONS : list Z := [1; 3; 4; 5].

Definition get_uuid_version (id : str) : outcome (option Z) :=
  for_return
    (fun version =>
       match UUID id (Some version) with
       | Raise e => if caught [ValueError] e then Ok Continue else Raise e
       | Ok uuid_obj =>
           if str_eqb (uuid_str uuid_obj) id
           then Ok (Return (Some version))
           else Ok Continue
       end)
    SUPPORTED_UUID_VERSIONS (Ok None).

(** The candidate is [None] or a string. *)
Definition is_valid_uuid (uuid_to_test : option str) (version : option Z)
    : outcome bool :=
  match uuid_to_test with
  | None | Some [] => Ok false
  | Some id =>
      match version with
      | None =>
          found <- get_uuid_version id ;;
          Ok (match found with Some _ => true | None => false end)
      | Some _ =>
          match UUID id version with
          | Raise e => if caught [ValueError] e then Ok false else Raise e
          | Ok uuid_obj => Ok (str_eqb (uuid_str uuid_obj) id)
          end
      end
  end.

(** ** The JSON wrappers: [safe_json_dumps], [safe_json_loads]

    The wrappers are written over the codec of the [json] module:
    [json_loads] decodes a string and [json_dumps] encodes a value, and
    either may raise. *)

Section SafeJson.

Variable json_loads : str -> outcome pyval.
Variable json_dumps : pyval -> outcome str.

Definition safe_json_dumps (data default : pyval) : outcome pyval :=
  let default :=
    match default with
    | PNone => PStr (py "{}")
    | _ => default
    end in
  let output := default in
  try_except
    (text <- json_dumps data ;; Ok (PStr text))
    [TypeError; ValueError; OverflowError]
    (Ok output).

Definition safe_json_loads (data default : pyval)
    (attempt_double_decode : bool) : outcome pyval :=
  match data with
  | PNone => Ok default
  | PDict _ | PList _ => Ok data
  | _ =>
      try_except
        (match data with
         | PStr text =>
             result <- json_loads text ;;
             match result with
             | PStr inner =>
                 if attempt_double_decode
                 then
                   second <-
                     try_except
                       (if startswith inner (py "{") ||
                           startswith inner (py "[")
                        then second_result <- json_loads inner ;;
                             Ok (Some second_result)
                        else Ok None)
                       [TypeError; ValueError; JSONDecodeError]
                       (Ok None) ;;
                   match second with
                   | Some second_result => Ok second_result
                   | None => Ok result
                   end
                 else Ok result
             | _ => Ok result
             end
         | _ => Ok default
         end)
        [TypeError; ValueError; JSONDecodeError]
        (Ok default)
  end.

End SafeJson.

(** ** A reference JSON codec

    [json.loads] and [json.dumps] with their default arguments, as CPython
    3.11 implements them, for the wrappers to be run on.  Two pieces stay
    parameters: the conversion of a number literal with a fraction or an
    exponent to a float, and the [repr] of a finite float.  The scanner
    and the encoder enter a recursive call for every array, object, list
    or dictionary they go into: [limit] is the number of them the
    recursion limit leaves room for, one inside the other, and going
    deeper raises [RecursionError]. *)

Section ReferenceCodec.

Variable strtod : str -> float64.
Variable float_repr : float64 -> str.

Definition is_digit (c : char) : bool := ((48 <=? c) && (c <=? 57))%N.

Definition json_ws (c : char) : bool :=
  ((c =? 32) || (c =? 9) || (c =? 10) || (c =? 13))%N.

Fixpoint skip_ws (s : str) : str :=
  match s with
  | [] => []
  | c :: s' => if json_ws c then skip_ws s' else s
  end.

Fixpoint take_digits (s : str) : str * str :=
  match s with
  | [] => ([], [])
  | c :: s' =>
      if is_digit c
      then let '(ds, rest) := take_digits s' in (c :: ds, rest)
      else ([], s)
  end.

(** Four hexadecimal digits and what follows them. *)
Definition hex4 (s : str) : option (N * str) :=
  match s with
  | a :: b :: c :: d :: rest =>
      match digit_value a, digit_value b, digit_value c, digit_value d with
      | Some x, Some y, Some z, Some w =>
          if (x <? 16) && (y <? 16) && (z <? 16) && (w <? 16)
          then Some (Z.to_N (((x * 16 + y) * 16 + z) * 16 + w), rest)
          else None
      | _, _, _, _ => None
      end
  | _ => None
  end.

Definition is_high_surrogate (c : N) : bool :=
  ((0xD800 <=? c) && (c <=? 0xDBFF))%N.
Definition is_low_surrogate (c : N) : bool :=
  ((0xDC00 <=? c) && (c <=? 0xDFFF))%N.
Definition join_surrogates (hi lo : N) : N :=
  (0x10000 + (hi - 0xD800) * 0x400 + (lo - 0xDC00))%N.

(** The character a one-letter escape stands for. *)
Definition simple_escape (c : char) : option char :=
  if (c =? 34)%N then Some 34%N            (* quotation mark *)
  else if (c =? 92)%N then Some 92%N       (* reverse solidus *)
  else if (c =? 47)%N then Some 47%N       (* solidus *)
  else if (c =? 98)%N then Some 8%N        (* b: backspace *)
  else if (c =? 102)%N then Some 12%N      (* f: form feed *)
  else if (c =? 110)%N then Some 10%N      (* n: line feed *)
  else if (c =? 114)%N then Some 13%N      (* r: carriage return *)
  else if (c =? 116)%N then Some 9%N       (* t: tab *)
  else None.

(** [scanstring] in strict mode, from after the opening quote: the
    string, reversed in [acc], and what follows the closing quote. *)
Fixpoint scanstring (fuel : nat) (s : str) (acc : str) : outcome (str * str) :=
  match fuel with
  | O => Raise JSONDecodeError
  | S fuel' =>
      match s with
      | [] => Raise JSONDecodeError
      | c :: s' =>
          if (c =? 34)%N then Ok (rev acc, s')
          else if (c =? 92)%N then
            match s' with
            | [] => Raise JSONDecodeError
            | e :: s'' =>
                if (e =? 117)%N then
                  match hex4 s'' with
                  | None => Raise JSONDecodeError
                  | Some (u, s3) =>
                      match s3 with
                      | b :: v :: s4 =>
                          if is_high_surrogate u && (b =? 92)%N && (v =? 117)%N
                          then
                            match hex4 s4 with
                            | None => Raise JSONDecodeError
                            | Some (u2, s5) =>
                                if is_low_surrogate u2
                                then scanstring fuel' s5
                                       (join_surrogates u u2 :: acc)
                                else scanstring fuel' s3 (u :: acc)
                            end
                          else scanstring fuel' s3 (u :: acc)
                      | _ => scanstring fuel' s3 (u :: acc)
                      end
                  end
                else
                  match simple_escape e with
                  | Some x => scanstring fuel' s'' (x :: acc)
                  | None => Raise JSONDecodeError
                  end
            end
          else if (c <=? 31)%N then Raise JSONDecodeError
          else scanstring fuel' s' (c :: acc)
      end
  end.

Definition decimal_value (ds : str) : Z :=
  fold_left (fun acc c => acc * 10 + (Z.of_N c - 48)) ds 0.

(** [int(text)] on the digits of a number: more than 4300 of them exceed
    the default limit of the integer conversion. *)
Definition int_of_digits (negative : bool) (ds : str) : outcome pyval :=
  if Nat.ltb 4300 (length ds) then Raise ValueError
  else Ok (PInt (if negative then - decimal_value ds else decimal_value ds)).

(** [_match_number]: [None] when no number starts here. *)
Definition match_number (s : str) : option (outcome pyval * str) :=
  let '(negative, s1) :=
    match s with
    | c :: t => if (c =? 45)%N then (true, t) else (false, s)
    | [] => (false, s)
    end in
  match s1 with
  | [] => None
  | c :: t =>
      let integer :=
        if (c =? 48)%N then Some ([c], t)
        else if is_digit c then Some (take_digits s1)
        else None in
      match integer with
      | None => None
      | Some (ds, rest) =>
          let '(frac, rest1) :=
            match rest with
            | dot :: d :: _ =>
                if (dot =? 46)%N && is_digit d
                then let '(fs, r) := take_digits (tl rest) in (dot :: fs, r)
                else ([], rest)
            | _ => ([], rest)
            end in
          let '(expo, rest2) :=
            match rest1 with
            | e :: r =>
                if ((e =? 101) || (e =? 69))%N then
                  let '(sign, r1) :=
                    match r with
                    | sg :: r' =>
                        if ((sg =? 43) || (sg =? 45))%N then ([sg], r')
                        else ([], r)
                    | [] => ([], r)
                    end in
                  let '(es, r2) := take_digits r1 in
                  match es with
                  | [] => ([], rest1)
                  | _ => (e :: sign ++ es, r2)
                  end
                else ([], rest1)
            | [] => ([], rest1)
            end in
          match frac ++ expo with
          | [] => Some (int_of_digits negative ds, rest2)
          | tail =>
              Some (Ok (PFloat (strtod ((if negative then [45%N] else [])
                                        ++ ds ++ tail))), rest2)
          end
      end
  end.

(** The bit patterns of [float('nan')], [float('inf')], [float('-inf')]. *)
Definition float_nan : float64 := 0x7ff8000000000000.
Definition float_inf : float64 := 0x7ff0000000000000.
Definition float_neg_inf : float64 := 0xfff0000000000000.

(** [strip_prefix p s]: what follows [p] in [s]. *)
Fixpoint strip_prefix (p s : str) : option str :=
  match p, s with
  | [], _ => Some s
  | a :: p', c :: s' => if char_eqb c a then strip_prefix p' s' else None
  | _ :: _, [] => None
  end.

(** The constants a value can be, tried in the order of the scanner. *)
Definition match_constant (s : str) : option (pyval * str) :=
  match strip_prefix (py "null") s with
  | Some r => Some (PNone, r)
  | None =>
  match strip_prefix (py "true") s with
  | Some r => Some (PBool true, r)
  | None =>
  match strip_prefix (py "false") s with
  | Some r => Some (PBool false, r)
  | None =>
  match strip_prefix (py "NaN") s with
  | Some r => Some (PFloat float_nan, r)
  | None =>
  match strip_prefix (py "Infinity") s with
  | Some r => Some (PFloat float_inf, r)
  | None =>
  match strip_prefix (py "-Infinity") s with
  | Some r => Some (PFloat float_neg_inf, r)
  | None => None
  end end end end end end.

(** [scan_once]: the value that starts the text and what follows it.  An
    array or object is read item by item; [fuel] bounds the calls that
    are open at a time, and every second one has read a character of its
    own, so that twice the length of the text is enough.  Going into an
    array or an object is a recursive call. *)
Fixpoint scan_once (fuel limit : nat) (s : str) : outcome (pyval * str) :=
  match fuel with
  | O => Raise JSONDecodeError
  | S fuel' =>
      match s with
      | [] => Raise JSONDecodeError
      | c :: s' =>
          if (c =? 34)%N then
            scanned <- scanstring (length s) s' [] ;;
            Ok (PStr (fst scanned), snd scanned)
          else if (c =? 123)%N then
            call limit (fun inside =>
              match skip_ws s' with
              | c' :: r =>
                  if (c' =? 125)%N then Ok (PDict [], r)
                  else parse_object fuel' inside (skip_ws s') []
              | [] => Raise JSONDecodeError
              end)
          else if (c =? 91)%N then
            call limit (fun inside =>
              match skip_ws s' with
              | c' :: r =>
                  if (c' =? 93)%N then Ok (PList [], r)
                  else parse_array fuel' inside (skip_ws s') []
              | [] => Raise JSONDecodeError
              end)
          else
            match match_constant s with
            | Some found => Ok found
            | None =>
                match match_number s with
                | Some (number, rest) => v <- number ;; Ok (v, rest)
                | None => Raise JSONDecodeError
                end
            end
      end
  end

with parse_array (fuel limit : nat) (s : str) (acc : list pyval)
    : outcome (pyval * str) :=
  match fuel with
  | O => Raise JSONDecodeError
  | S fuel' =>
      item <- scan_once fuel' limit s ;;
      match skip_ws (snd item) with
      | c :: r =>
          if (c =? 93)%N then Ok (PList (rev (fst item :: acc)), r)
          else if (c =? 44)%N
          then parse_array fuel' limit (skip_ws r) (fst item :: acc)
          else Raise JSONDecodeError
      | [] => Raise JSONDecodeError
      end
  end

with parse_object (fuel limit : nat) (s : str) (acc : list (str * pyval))
    : outcome (pyval * str) :=
  match fuel with
  | O => Raise JSONDecodeError
  | S fuel' =>
      match s with
      | q :: s' =>
          if (q =? 34)%N then
            key <- scanstring (length s) s' [] ;;
            match skip_ws (snd key) with
            | colon :: r =>
                if (colon =? 58)%N then
                  item <- scan_once fuel' limit (skip_ws r) ;;
                  let acc' := dict_set acc (fst key) (fst item) in
                  match skip_ws (snd item) with
                  | c :: r' =>
                      if (c =? 125)%N then Ok (PDict acc', r')
                      else if (c =? 44)%N
                      then parse_object fuel' limit (skip_ws r') acc'
                      else Raise JSONDecodeError
                  | [] => Raise JSONDecodeError
                  end
                else Raise JSONDecodeError
            | [] => Raise JSONDecodeError
            end
          else Raise JSONDecodeError
      | [] => Raise JSONDecodeError
      end
  end.

(** [json.loads(s)] for a string [s], called with [frames] left:
    [json.loads], [JSONDecoder.decode] and [raw_decode] are Python
    functions that call one another, and the scanner runs with what they
    leave. *)
Definition json_loads_ref (frames : nat) (s : str) : outcome pyval :=
  call frames (fun in_loads =>
    if startswith s [0xFEFF%N] then Raise JSONDecodeError
    else
      call in_loads (fun in_decode =>
        scanned <- call in_decode (fun in_raw_decode =>
                     scan_once (2 * length s + 2) in_raw_decode (skip_ws s)) ;;
        match skip_ws (snd scanned) with
        | [] => Ok (fst scanned)
        | _ :: _ => Raise JSONDecodeError
        end)).

(** *** Encoding *)

Fixpoint chars_of_uint (d : Decimal.uint) : str :=
  match d with
  | Decimal.Nil => []
  | Decimal.D0 d' => 48%N :: chars_of_uint d'
  | Decimal.D1 d' => 49%N :: chars_of_uint d'
  | Decimal.D2 d' => 50%N :: chars_of_uint d'
  | Decimal.D3 d' => 51%N :: chars_of_uint d'
  | Decimal.D4 d' => 52%N :: chars_of_uint d'
  | Decimal.D5 d' => 53%N :: chars_of_uint d'
  | Decimal.D6 d' => 54%N :: chars_of_uint d'
  | Decimal.D7 d' => 55%N :: chars_of_uint d'
  | Decimal.D8 d' => 56%N :: chars_of_uint d'
  | Decimal.D9 d' => 57%N :: chars_of_uint d'
  end.

(** [repr(n)] for an integer: more than 4300 digits exceed the default
    limit of the conversion. *)
Definition int_repr (n : Z) : outcome str :=
  let digits := chars_of_uint (N.to_uint (Z.abs_N n)) in
  if Nat.ltb 4300 (length digits) then Raise ValueError
  else Ok ((if n <? 0 then [45%N] else []) ++ digits).

Definition escape_unit (u : N) : str :=
  py "\u" ++ hex_digits 4 (Z.of_N u).

(** [encode_basestring_ascii] on one character *)
Definition escape_char (c : char) : str :=
  if (c =? 34)%N then [92; 34]%N
  else if (c =? 92)%N then [92; 92]%N
  else if (c =? 10)%N then py "\n"
  else if (c =? 13)%N then py "\r"
  else if (c =? 9)%N then py "\t"
  else if (c =? 12)%N then py "\f"
  else if (c =? 8)%N then py "\b"
  else if ((32 <=? c) && (c <=? 126))%N then [c]
  else if (c <? 0x10000)%N then escape_unit c
  else
    let v := (c - 0x10000)%N in
    escape_unit (0xD800 + N.shiftr v 10) ++
    escape_unit (0xDC00 + N.land v 0x3FF).

Definition encode_basestring_ascii (s : str) : str :=
  [34%N] ++ flat_map escape_char s ++ [34%N].

(** [sep.join(parts)] *)
Fixpoint join (sep : str) (parts : list str) : str :=
  match parts with
  | [] => []
  | [p] => p
  | p :: parts' => p ++ sep ++ join sep parts'
  end.

Definition float_text (f : float64) : str :=
  if Z.land (Z.shiftr f 52) 0x7ff =? 0x7ff then
    if Z.land f 0xfffffffffffff =? 0
    then (if Z.testbit f 63 then py "-Infinity" else py "Infinity")
    else py "NaN"
  else float_repr f.

(** The C encoder.  It enters a recursive call for a list, a tuple or a
    dictionary; an object of another class goes to the method [default]
    of the encoder, a Python function, which raises [TypeError]. *)
Fixpoint encoder_listencode_obj (limit : nat) (data : pyval) {struct data}
    : outcome str :=
  match data with
  | PNone => Ok (py "null")
  | PBool true => Ok (py "true")
  | PBool false => Ok (py "false")
  | PInt n => int_repr n
  | PFloat f => Ok (float_text f)
  | PStr s => Ok (encode_basestring_ascii s)
  | PList items | PTuple items =>
      call limit (fun inside =>
        parts <- for_each
                   (fun acc item =>
                      text <- encoder_listencode_obj inside item ;;
                      Ok (acc ++ [text]))
                   items [] ;;
        Ok (py "[" ++ join (py ", ") parts ++ py "]"))
  | PDict items =>
      call limit (fun inside =>
        parts <- for_each
                   (fun acc kv =>
                      text <- encoder_listencode_obj inside (snd kv) ;;
                      Ok (acc ++ [encode_basestring_ascii (fst kv)
                                  ++ py ": " ++ text]))
                   items [] ;;
        Ok (py "{" ++ join (py ", ") parts ++ py "}"))
  | PObject _ => call limit (fun _ => Raise TypeError)
  end.

(** [json.dumps(data)], called with [frames] left: [json.dumps],
    [JSONEncoder.encode] and [iterencode] are Python functions that call
    one another; [encode] returns the text of a string itself, and the
    encoder runs with what they leave. *)
Definition json_dumps_ref (frames : nat) (data : pyval) : outcome str :=
  call frames (fun in_dumps =>
    call in_dumps (fun in_encode =>
      match data with
      | PStr s => Ok (encode_basestring_ascii s)
      | _ =>
          call in_encode (fun in_iterencode =>
            encoder_listencode_obj in_iterencode data)
      end)).

(** The depth of calls the encoder needs for a value: one for each list,
    tuple or dictionary on the way to its deepest item, and one for the
    call of the method [default] on an object. *)
Fixpoint encoder_depth (data : pyval) : nat :=
  match data with
  | PList items | PTuple items => S (list_max (map encoder_depth items))
  | PDict items =>
      S (list_max (map (fun kv => encoder_depth (snd kv)) items))
  | PObject _ => 1
  | _ => O
  end.

End ReferenceCodec.

(** ** Notions of the statements and proofs *)

(** A character the converter leaves alone. *)
Definition settled (d : char) : Prop := isupper d = false /\ lower d = [d].

(** The images of the lowercase mapping, run by run. *)
Definition run_images (e : Unicode.run * N) : list N :=
  let '((lo, hi, step), image) := e in
  map (fun k => (image + N.of_nat k * step)%N)
      (seq 0 (S (N.to_nat ((hi - lo) / step)))).

Definition fixed_by_lower (d : char) : bool := str_eqb (lower d) [d].

Definition ascii_codes : list N := map N.of_nat (seq 0 128).

(** Building a dictionary item by item *)
Definition dict_update {V} (d items : list (str * V)) : list (str * V) :=
  fold_left (fun d kv => dict_set d (fst kv) (snd kv)) items d.

Definition convert_item (kv : str * pyval) : str * pyval :=
  (snake_scan (fst kv), snake_keys (snd kv)).

Definition example_person : pyval :=
  PDict [ (py "firstName", PStr (py "John"));
          (py "lastName", PDict [ (py "innerValue", PInt 1) ]) ].

Definition example_person_converted : pyval :=
  PDict [ (py "first_name", PStr (py "John"));
          (py "last_name", PDict [ (py "inner_value", PInt 1) ]) ].

Definition known_operators : list str :=
  [ py "contains"; py "does not contain"; py "is empty"; py "is not empty";
    py "="; py "!="; py "<"; py ">"; py "<="; py ">=" ].

Definition sql_operators : list str :=
  [ py "ILIKE"; py "LIKE"; py "NOT ILIKE"; py "NOT LIKE"; py "IS NULL";
    py "IS NOT NULL"; py "="; py "!="; py "<"; py ">"; py "<="; py ">=" ].

(** What the statements that promise a result keep in reserve, for the
    calls the interpreter counts and the model leaves out. *)
Definition spare_frames : nat := 50.

(** The classes [safe_json_loads] and [safe_json_dumps] catch. *)
Definition load_errors : list exn := [TypeError; ValueError; JSONDecodeError].

Definition dump_errors : list exn := [TypeError; ValueError; OverflowError].

Definition looks_like_json (inner : str) : bool :=
  startswith inner (py "{") || startswith inner (py "[").

Definition dump_fallback (default : pyval) : pyval :=
  match default with
  | PNone => PStr (py "{}")
  | _ => default
  end.

Definition decode_error (e : exn) : Prop :=
  e = JSONDecodeError \/ e = ValueError.

(** The JSON text of [{"a": 1}] as [json.dumps] writes it, the same text
    without the space, and that text encoded once more as a JSON string
    (the quotation marks are code 34, the reverse solidus code 92). *)
Definition a1_value : pyval := PDict [(py "a", PInt 1)].

Definition a1_dumped : str := py "{" ++ [34%N] ++ py "a" ++ [34%N] ++ py ": 1}".

Definition a1_text : str := py "{" ++ [34%N] ++ py "a" ++ [34%N] ++ py ":1}".

Definition a1_double_encoded : str :=
  [34%N] ++ py "{" ++ [92; 34]%N ++ py "a" ++ [92; 34]%N ++ py ":1}" ++ [34%N].

(** The text of a JSON string holding [{"a":] and no more. *)
Definition truncated_double_encoded : str :=
  [34%N] ++ py "{" ++ [92; 34]%N ++ py "a" ++ [92; 34]%N ++ py ":" ++ [34%N].

(** A text of [depth] opening brackets, that text as a JSON string, and
    a list nested [depth] deep. *)
Definition open_brackets (depth : nat) : str := repeat 91%N depth.

Definition quoted_open_brackets (depth : nat) : str :=
  [34%N] ++ open_brackets depth ++ [34%N].

Fixpoint nested_list (depth : nat) : pyval :=
  match depth with
  | O => PNone
  | S depth' => PList [nested_list depth']
  end.

(** The characters [0-9a-f] *)
Definition lower_hex (c : char) : bool :=
  (((48 <=? c) && (c <=? 57)) || ((97 <=? c) && (c <=? 102)))%N.

Definition hex_value (s : str) : Z :=
  fold_left (fun acc c => acc * 16 + match digit_value c with
                                     | Some d => d
                                     | None => 0
                                     end) s 0.

(** The five groups of [str(uuid)] *)
Definition hyphenate (hex : str) : str :=
  firstn 8 hex ++ py "-" ++ firstn 4 (skipn 8 hex) ++ py "-" ++
  firstn 4 (skipn 12 hex) ++ py "-" ++ firstn 4 (skipn 16 hex) ++ py "-" ++
  skipn 20 hex.

Definition uuid_char (c : char) : bool := lower_hex c || (c =? 45)%N.

Definition uuid_int (n : Z) : Prop := 0 <= n < 2 ^ 128.

(** The [width] bits of [n] from bit [pos] up, and [n] with these bits
    replaced by [x]. *)
Definition field (n pos width : Z) : Z :=
  Z.land (Z.shiftr n pos) (Z.ones width).

Definition put (pos width x n : Z) : Z :=
  Z.lor (Z.land n (Z.lnot (Z.shiftl (Z.ones width) pos))) (Z.shiftl x pos).

Definition in_field (pos width i : Z) : bool :=
  (pos <=? i) && (i <? pos + width).

(** What [uuid.UUID] does to the integer when a version is given. *)
Definition set_version (int version : Z) : Z :=
  let int := Z.land int (Z.lnot (Z.shiftl 0xc000 48)) in
  let int := Z.lor int (Z.shiftl 0x8000 48) in
  let int := Z.land int (Z.lnot (Z.shiftl 0xf000 64)) in
  Z.lor int (Z.shiftl version 76).

(** The version of a UUID, bits 76 to 79, as the [version] property reads
    it, and its variant, bits 62 and 63: 2 is the variant of RFC 4122. *)
Definition uuid_version (n : Z) : Z := Z.land (Z.shiftr n 76) 0xf.

Definition uuid_variant (n : Z) : Z := Z.land (Z.shiftr n 62) 3.

(** One probe of [get_uuid_version]: a UUID of this version can be built
    from the text and is written back as the same text. *)
Definition uuid_matches (id : str) (version : Z) : bool :=
  match UUID id (Some version) with
  | Ok uuid_obj => str_eqb (uuid_str uuid_obj) id
  | Raise _ => false
  end.

Definition example_uuid4 : str := py "c9bf9e57-1685-4c89-bafb-ff5af830be8a".

Definition example_uuid4_int : Z := 0xc9bf9e5716854c89bafbff5af830be8a.

(** ** Notions of the further properties *)

Definition without_underscores (s : str) : str :=
  filter (fun c => negb (char_eqb c underscore)) s.

Definition starts_with_underscore (s : str) : bool :=
  match s with
  | c :: _ => char_eqb c underscore
  | [] => false
  end.

(** Two underscores in a row somewhere in the string *)
Fixpoint has_double_underscore (s : str) : bool :=
  match s with
  | [] => false
  | a :: t =>
      match t with
      | [] => false
      | b :: _ =>
          (char_eqb a underscore && char_eqb b underscore)
          || has_double_underscore t
      end
  end.

(** The ASCII letters [A-Z], and the ASCII letters [a-z] and digits *)
Definition ascii_upper (c : char) : bool := ((65 <=? c) && (c <=? 90))%N.

Definition ascii_lower (c : char) : bool := ((97 <=? c) && (c <=? 122))%N.

Definition ascii_word (c : char) : bool :=
  ascii_lower c || ((48 <=? c) && (c <=? 57))%N.

(** [c.lower()] for an ASCII capital *)
Definition ascii_to_lower (c : char) : char := (c + 32)%N.

(** Every key of the mapping, and of the mappings among its values, is
    ASCII. *)
Fixpoint ascii_keys (data : pyval) : bool :=
  match data with
  | PDict items =>
      forallb (fun kv => forallb (fun c => (c <? 128)%N) (fst kv)
                         && ascii_keys (snd kv)) items
  | _ => true
  end.

(** The text of a UUID of version 2, which the module does not support *)
Definition example_uuid2_int : Z := 0xc9bf9e5716852c89bafbff5af830be8a.

(** A 128-bit integer with the given version and the RFC 4122 variant *)
Definition canonical_uuid (id : str) (version : Z) : Prop :=
  exists n, 0 <= n < 2 ^ 128 /\ id = uuid_str n /\
            uuid_version n = version /\ uuid_variant n = 2.

(** * Properties *)

(** ** Strings *)

Lemma str_eqb_spec (a b : str) : reflect (a = b) (str_eqb a b).
Proof.
  revert b; induction a as [|x a IH]; intros [|y b]; simpl;
    try (constructor; congruence).
  unfold char_eqb. destruct (N.eqb_spec x y) as [->|Hne]; simpl.
  - destruct (IH b) as [->|Hne]; constructor; congruence.
  - constructor; congruence.
Qed.

Lemma str_eqb_eq (a b : str) : str_eqb a b = true <-> a = b.
Proof. destruct (str_eqb_spec a b); split; congruence. Qed.

Lemma str_eqb_refl (a : str) : str_eqb a a = true.
Proof. now apply str_eqb_eq. Qed.

Lemma in_by_eqb (x : str) (l : list str) :
  existsb (str_eqb x) l = true -> In x l.
Proof.
  intros H. apply existsb_exists in H. destruct H as (y & Hy & Hxy).
  apply str_eqb_eq in Hxy. now subst.
Qed.

Lemma not_in_by_eqb (x : str) (l : list str) :
  existsb (str_eqb x) l = false -> ~ In x l.
Proof.
  intros H Hin. assert (existsb (str_eqb x) l = true); [|congruence].
  apply existsb_exists. exists x. split; [exact Hin|apply str_eqb_refl].
Qed.

(** ** Case conversion *)

(** *** The loop computes the scan *)

Lemma getitem_app_at {A} (pre : list A) (x : A) (rest : list A) :
  getitem (pre ++ x :: rest) (length pre) = Ok x.
Proof.
  unfold getitem. rewrite nth_error_app2 by lia.
  now rewrite Nat.sub_diag.
Qed.

Lemma getlast_snoc {A} (init : list A) (x : A) :
  getlast (init ++ [x]) = Ok x.
Proof.
  unfold getlast. destruct (init ++ [x]) eqn:E.
  - destruct init; discriminate.
  - rewrite <- E, length_app. simpl.
    replace (length init + 1 - 1)%nat with (length init) by lia.
    apply getitem_app_at.
Qed.

Lemma ends_with_underscore_app (out piece : str) :
  piece <> [] ->
  ends_with_underscore (out ++ piece) = ends_with_underscore piece.
Proof.
  intros Hne. unfold ends_with_underscore. rewrite rev_app_distr.
  destruct (rev piece) eqn:E; [|reflexivity].
  exfalso. apply Hne. rewrite <- (rev_involutive piece), E. reflexivity.
Qed.

Lemma lookup_special_in (c : N) (t : list (N * list N)) (v : list N) :
  Unicode.lookup_special c t = Some v -> In (c, v) t.
Proof.
  induction t as [|[k w] t IH]; simpl; [discriminate|].
  destruct (N.eqb_spec k c) as [->|_]; intros H.
  - left. congruence.
  - right. auto.
Qed.

(** A lower-cased character is a non-empty piece, and it is the piece
    ["_"] exactly when it ends in an underscore. *)
Lemma lower_piece (c : char) :
  lower c <> [] /\
  ends_with_underscore (lower c) = str_eqb (lower c) [underscore].
Proof.
  unfold lower. destruct (Unicode.lookup_special c lower_special) eqn:E.
  - apply lookup_special_in in E. simpl in E.
    destruct E as [E|[]]. inversion E; subst. split; [discriminate|reflexivity].
  - destruct (Unicode.lookup_run c lower_map); (split; [discriminate|]);
      unfold ends_with_underscore; simpl; now rewrite andb_true_r.
Qed.

Lemma snake_loop (rest : str) :
  forall (pre : str) (prev : char) (init : list str),
    exists pieces,
      for_each (snake_step (pre ++ prev :: rest))
        (seq (length pre + 1) (length rest)) (init ++ [lower prev]) = Ok pieces
      /\ concat pieces =
         snake_scan_from (concat (init ++ [lower prev])) prev rest.
Proof.
  induction rest as [|curr rest IH]; intros pre prev init.
  - simpl. eauto.
  - cbn [length seq for_each].
    assert (Hcurr : getitem (pre ++ prev :: curr :: rest) (length pre + 1)
                    = Ok curr).
    { replace (pre ++ prev :: curr :: rest) with ((pre ++ [prev]) ++ curr :: rest)
        by (rewrite <- app_assoc; reflexivity).
      replace (length pre + 1)%nat with (length (pre ++ [prev]))
        by (rewrite length_app; reflexivity).
      apply getitem_app_at. }
    assert (Hprev : getitem (pre ++ prev :: curr :: rest) (length pre + 1 - 1)
                    = Ok prev).
    { replace (length pre + 1 - 1)%nat with (length pre) by lia.
      apply getitem_app_at. }
    assert (Hnext :
      (if Nat.ltb (length pre + 1) (length (pre ++ prev :: curr :: rest) - 1)
       then c <- getitem (pre ++ prev :: curr :: rest) (length pre + 1 + 1) ;;
            Ok (Some c)
       else Ok None) = Ok (hd_error rest)).
    { rewrite length_app. cbn [length].
      destruct rest as [|next rest'].
      - cbn [length]. destruct (Nat.ltb_spec (length pre + 1) (length pre + 2 - 1));
          [lia|reflexivity].
      - cbn [length]. destruct (Nat.ltb_spec (length pre + 1)
                                  (length pre + S (S (S (length rest'))) - 1));
          [|lia].
        replace (pre ++ prev :: curr :: next :: rest')
          with ((pre ++ [prev; curr]) ++ next :: rest')
          by (rewrite <- app_assoc; reflexivity).
        replace (length pre + 1 + 1)%nat with (length (pre ++ [prev; curr]))
          by (rewrite length_app; simpl; lia).
        rewrite getitem_app_at. reflexivity. }
    unfold snake_step at 1. rewrite Hcurr, Hprev. cbn [bind].
    rewrite Hnext. cbn [bind].
    fold (wants_underscore prev curr (hd_error rest)).
    rewrite getlast_snoc. cbn [bind].
    destruct (lower_piece prev) as [Hne Hends].
    assert (Hout : ends_with_underscore (concat (init ++ [lower prev]))
                   = str_eqb (lower prev) [underscore]).
    { rewrite concat_app. simpl. rewrite app_nil_r.
      rewrite ends_with_underscore_app by assumption. assumption. }
    replace (pre ++ prev :: curr :: rest) with ((pre ++ [prev]) ++ curr :: rest)
      by (rewrite <- app_assoc; reflexivity).
    replace (S (length pre + 1)) with (length (pre ++ [prev]) + 1)%nat
      by (rewrite length_app; simpl; lia).
    cbn [snake_scan_from]. rewrite Hout.
    destruct (wants_underscore prev curr (hd_error rest)); cbn [andb bind].
    + destruct (negb (str_eqb (lower prev) [underscore])); cbn [bind].
      * destruct (IH (pre ++ [prev]) curr ((init ++ [lower prev]) ++ [[underscore]]))
          as (pieces & Hrun & Hcat).
        exists pieces. split; [exact Hrun|].
        rewrite Hcat. f_equal.
        rewrite !concat_app. simpl. now rewrite !app_nil_r.
      * destruct (IH (pre ++ [prev]) curr (init ++ [lower prev]))
          as (pieces & Hrun & Hcat).
        exists pieces. split; [exact Hrun|].
        rewrite Hcat. f_equal.
        rewrite !concat_app. simpl. now rewrite !app_nil_r.
    + destruct (IH (pre ++ [prev]) curr (init ++ [lower prev]))
        as (pieces & Hrun & Hcat).
      exists pieces. split; [exact Hrun|].
      rewrite Hcat. f_equal.
      rewrite !concat_app. simpl. now rewrite !app_nil_r.
Qed.

Lemma to_snake_case_eq (s : str) : to_snake_case s = Ok (snake_scan s).
Proof.
  destruct s as [|first rest]; [reflexivity|].
  unfold to_snake_case. cbn [getitem nth_error bind length].
  replace (S (length rest) - 1)%nat with (length rest) by lia.
  destruct (snake_loop rest [] first []) as (pieces & Hrun & Hcat).
  cbn [length app Nat.add] in Hrun. rewrite Hrun. cbn [bind].
  rewrite Hcat. simpl. now rewrite app_nil_r.
Qed.

(** C1.  [to_snake_case] returns, for every string, the result of the
    left-to-right scan of the specification ([snake_scan]): the first
    character lower-cased, then every further character lower-cased, with
    an underscore before it exactly when it is uppercase and either the
    previous character is alphanumeric and not uppercase or the next
    character exists and is lowercase, unless the output already ends in
    an underscore.  The empty string is returned unchanged, and the
    documented examples come out as stated. *)
Theorem to_snake_case_is_scan :
  (forall s : str, to_snake_case s = Ok (snake_scan s)) /\
  (forall first rest,
     snake_scan (first :: rest) = snake_scan_from (lower first) first rest) /\
  (forall out prev curr rest,
     snake_scan_from out prev (curr :: rest) =
     snake_scan_from
       ((if isupper curr &&
            ((isalnum prev && negb (isupper prev)) ||
             match rest with next :: _ => islower next | [] => false end) &&
            negb (ends_with_underscore out)
         then out ++ [underscore] else out) ++ lower curr)
       curr rest) /\
  (forall out prev, snake_scan_from out prev [] = out) /\
  to_snake_case [] = Ok [] /\
  to_snake_case (py "camelCase") = Ok (py "camel_case") /\
  to_snake_case (py "PascalCase") = Ok (py "pascal_case") /\
  to_snake_case (py "ABC") = Ok (py "abc") /\
  to_snake_case (py "XMLHttpRequest") = Ok (py "xml_http_request").
Proof.
  split; [exact to_snake_case_eq|].
  split; [reflexivity|].
  split; [intros out prev curr [|next rest]; reflexivity|].
  split; [reflexivity|].
  repeat split; vm_compute; reflexivity.
Qed.

(** *** Idempotence *)

Lemma snake_scan_from_settled (rest : str) :
  Forall settled rest ->
  forall out prev, snake_scan_from out prev rest = out ++ rest.
Proof.
  induction 1 as [|curr rest [Hup Hlow] _ IH]; intros out prev.
  - simpl. now rewrite app_nil_r.
  - cbn [snake_scan_from]. unfold wants_underscore. rewrite Hup, Hlow.
    cbn [andb]. rewrite IH, <- app_assoc. reflexivity.
Qed.

Lemma snake_scan_settled (s : str) : Forall settled s -> snake_scan s = s.
Proof.
  intros H. destruct s as [|first rest]; [reflexivity|].
  inversion H as [|? ? [_ Hlow] Hrest]; subst.
  unfold snake_scan. rewrite snake_scan_from_settled by assumption.
  now rewrite Hlow.
Qed.

(** What the scan emits: underscores and lower-cased input characters. *)
Lemma snake_scan_from_Forall (Q : char -> Prop) (rest : str) :
  Q underscore ->
  (forall c, In c rest -> Forall Q (lower c)) ->
  forall out prev, Forall Q out -> Forall Q (snake_scan_from out prev rest).
Proof.
  intros Hunder. induction rest as [|curr rest IH]; intros Hrest out prev Hout.
  - exact Hout.
  - cbn [snake_scan_from]. apply IH.
    + intros c Hc. apply Hrest. now right.
    + apply Forall_app. split.
      * destruct (_ && _); [|exact Hout].
        apply Forall_app. split; [exact Hout|]. now constructor.
      * apply Hrest. now left.
Qed.

Lemma snake_scan_Forall (Q : char -> Prop) (s : str) :
  Q underscore ->
  (forall c, In c s -> Forall Q (lower c)) ->
  Forall Q (snake_scan s).
Proof.
  intros Hunder Hs. destruct s as [|first rest]; [constructor|].
  unfold snake_scan. apply snake_scan_from_Forall; trivial.
  - intros c Hc. apply Hs. now right.
  - apply Hs. now left.
Qed.

Lemma map_run_image (c : N) (e : Unicode.run * N) (d : N) :
  Unicode.map_run c e = Some d -> In d (run_images e).
Proof.
  destruct e as [[[lo hi] step] image]. unfold Unicode.map_run, Unicode.in_run.
  cbn [fst]. destruct (N.leb_spec lo c) as [Hlo|]; [|discriminate].
  destruct (N.leb_spec c hi) as [Hhi|]; [|discriminate].
  destruct (N.eqb_spec ((c - lo) mod step) 0) as [Hmod|]; [|discriminate].
  cbn [andb]. intros [= <-]. unfold run_images. apply in_map_iff.
  exists (N.to_nat ((c - lo) / step)). split.
  - rewrite N2Nat.id. f_equal.
    pose proof (N.div_mod' (c - lo) step) as Hdiv.
    rewrite Hmod, N.add_0_r in Hdiv. rewrite N.mul_comm. now symmetry.
  - assert (Hq : ((c - lo) / step <= (hi - lo) / step)%N).
    { apply N.Div0.div_le_mono. lia. }
    revert Hq. generalize ((c - lo) / step)%N ((hi - lo) / step)%N.
    intros q1 q2 Hq. apply in_seq. lia.
Qed.

Lemma lookup_run_image (c : N) (t : list (Unicode.run * N)) (d : N) :
  Unicode.lookup_run c t = Some d -> In d (flat_map run_images t).
Proof.
  induction t as [|e t IH]; simpl; [discriminate|].
  destruct (Unicode.map_run c e) eqn:E.
  - intros [= <-]. apply in_or_app. left. eapply map_run_image; eauto.
  - intros H. apply in_or_app. right. auto.
Qed.

Lemma lower_images_fixed :
  forallb fixed_by_lower (flat_map run_images lower_map) = true /\
  forallb (fun kv => forallb fixed_by_lower (snd kv)) lower_special = true.
Proof. split; vm_compute; reflexivity. Qed.

(** Lower-casing is idempotent on characters. *)
Lemma lower_idem (c d : char) : In d (lower c) -> lower d = [d].
Proof.
  destruct lower_images_fixed as [Hruns Hspecial].
  unfold lower at 1.
  destruct (Unicode.lookup_special c lower_special) eqn:E.
  - apply lookup_special_in in E. intros Hd.
    rewrite forallb_forall in Hspecial. specialize (Hspecial _ E).
    rewrite forallb_forall in Hspecial. apply str_eqb_eq, Hspecial, Hd.
  - destruct (Unicode.lookup_run c lower_map) eqn:E'.
    + intros [<-|[]]. apply lookup_run_image in E'.
      rewrite forallb_forall in Hruns. apply str_eqb_eq, Hruns, E'.
    + intros [<-|[]]. unfold lower. now rewrite E, E'.
Qed.

Lemma snake_scan_idem (s : str) :
  (forall c, In c s -> forall d, In d (lower c) -> isupper d = false) ->
  snake_scan (snake_scan s) = snake_scan s.
Proof.
  intros Hs. apply snake_scan_settled, snake_scan_Forall.
  - split; vm_compute; reflexivity.
  - intros c Hc. apply Forall_forall. intros d Hd. split.
    + eapply Hs; eauto.
    + eapply lower_idem; eauto.
Qed.

Lemma ascii_code_in (c : N) : (c < 128)%N -> In c ascii_codes.
Proof.
  intros H. unfold ascii_codes. apply in_map_iff.
  exists (N.to_nat c). split; [apply N2Nat.id|]. apply in_seq. lia.
Qed.

Lemma ascii_lower_not_upper (c d : char) :
  (c < 128)%N -> In d (lower c) -> isupper d = false.
Proof.
  intros Hc Hd.
  assert (H : forallb (fun c => forallb (fun d => negb (isupper d)) (lower c))
                ascii_codes = true) by (vm_compute; reflexivity).
  rewrite forallb_forall in H. specialize (H c (ascii_code_in c Hc)).
  rewrite forallb_forall in H. apply negb_true_iff, H, Hd.
Qed.

(** C10, as amended.  [to_snake_case] is idempotent on every string in
    which no character has an uppercase character in its lower-cased
    form, and every ASCII string is such a string: on these the output
    holds no uppercase character, so a second pass inserts no underscore
    and changes no character. *)
Theorem to_snake_case_idempotent_when_lowered :
  (forall s t : str,
     (forall c, In c s -> forall d, In d (lower c) -> isupper d = false) ->
     to_snake_case s = Ok t -> to_snake_case t = Ok t) /\
  (forall s t : str,
     (forall c, In c s -> (c < 128)%N) ->
     to_snake_case s = Ok t -> to_snake_case t = Ok t).
Proof.
  assert (H : forall s t : str,
            (forall c, In c s -> forall d, In d (lower c) -> isupper d = false) ->
            to_snake_case s = Ok t -> to_snake_case t = Ok t).
  { intros s t Hs. rewrite to_snake_case_eq. intros [= <-].
    rewrite to_snake_case_eq. f_equal. now apply snake_scan_idem. }
  split; [exact H|].
  intros s t Hs. apply H. intros c Hc d Hd.
  eapply ascii_lower_not_upper; eauto.
Qed.

Lemma to_snake_case_idempotent_when_lowered_witness :
  to_snake_case (py "XMLHttpRequest") = Ok (py "xml_http_request") /\
  to_snake_case (py "xml_http_request") = Ok (py "xml_http_request") /\
  to_snake_case [233; 201]%N = Ok [233; 95; 233]%N /\
  to_snake_case [233; 95; 233]%N = Ok [233; 95; 233]%N.
Proof.
  split; [vm_compute; reflexivity|]. split; [|split].
  - apply (proj2 to_snake_case_idempotent_when_lowered (py "XMLHttpRequest")).
    + intros c Hc.
      assert (H : forallb (fun c => (c <? 128)%N) (py "XMLHttpRequest") = true)
        by (vm_compute; reflexivity).
      rewrite forallb_forall in H. apply N.ltb_lt, H, Hc.
    + vm_compute; reflexivity.
  - vm_compute; reflexivity.
  - apply (proj1 to_snake_case_idempotent_when_lowered [233; 201]%N).
    + intros c [<-|[<-|[]]] d Hd; vm_compute in Hd;
        destruct Hd as [<-|[]]; vm_compute; reflexivity.
    + vm_compute; reflexivity.
Defined.

(** C10, as stated, fails: U+2102 is uppercase and has no lowercase form,
    so ["A"; U+2102] converts to ["a"; U+2102], which converts to
    ["a"; "_"; U+2102]. *)
Lemma to_snake_case_twice_differs :
  to_snake_case [65; 8450]%N = Ok [97; 8450]%N /\
  to_snake_case [97; 8450]%N = Ok [97; 95; 8450]%N /\
  ~ (forall s t : str, to_snake_case s = Ok t -> to_snake_case t = Ok t).
Proof.
  assert (H1 : to_snake_case [65; 8450]%N = Ok [97; 8450]%N)
    by (vm_compute; reflexivity).
  assert (H2 : to_snake_case [97; 8450]%N = Ok [97; 95; 8450]%N)
    by (vm_compute; reflexivity).
  repeat split; trivial.
  intros H. specialize (H _ _ H1). rewrite H2 in H. discriminate.
Qed.

(** ** Dictionaries *)

Lemma pyval_induction (P : pyval -> Prop) :
  P PNone ->
  (forall b, P (PBool b)) ->
  (forall n, P (PInt n)) ->
  (forall f, P (PFloat f)) ->
  (forall s, P (PStr s)) ->
  (forall items, Forall P items -> P (PList items)) ->
  (forall items, Forall P items -> P (PTuple items)) ->
  (forall items, Forall (fun kv => P (snd kv)) items -> P (PDict items)) ->
  (forall c, P (PObject c)) ->
  forall v, P v.
Proof.
  intros HNone HBool HInt HFloat HStr HList HTuple HDict HObject.
  fix IH 1. intros [ | b | n | f | s | items | items | items | c ].
  - exact HNone.
  - apply HBool.
  - apply HInt.
  - apply HFloat.
  - apply HStr.
  - apply HList. induction items as [|v items IHitems]; constructor.
    + apply IH.
    + exact IHitems.
  - apply HTuple. induction items as [|v items IHitems]; constructor.
    + apply IH.
    + exact IHitems.
  - apply HDict. induction items as [|[k v] items IHitems]; constructor.
    + apply IH.
    + exact IHitems.
  - apply HObject.
Qed.

Lemma dict_get_set_same {V} (d : list (str * V)) (k : str) (v : V) :
  dict_get (dict_set d k v) k = Some v.
Proof.
  induction d as [|[k' v'] d IH]; simpl.
  - now rewrite str_eqb_refl.
  - destruct (str_eqb k' k) eqn:E; simpl; rewrite E; auto.
Qed.

Lemma dict_get_set_other {V} (d : list (str * V)) (k k' : str) (v : V) :
  k <> k' -> dict_get (dict_set d k v) k' = dict_get d k'.
Proof.
  intros Hne. induction d as [|[k0 v0] d IH]; simpl.
  - destruct (str_eqb_spec k k'); congruence.
  - destruct (str_eqb_spec k0 k) as [->|Hk0]; simpl.
    + destruct (str_eqb_spec k k'); congruence.
    + destruct (str_eqb_spec k0 k'); auto.
Qed.

Lemma dict_keys_set {V} (d : list (str * V)) (k : str) (v : V) (k' : str) :
  In k' (dict_keys (dict_set d k v)) <-> k' = k \/ In k' (dict_keys d).
Proof.
  unfold dict_keys. induction d as [|[k0 v0] d IH]; simpl.
  - intuition.
  - destruct (str_eqb_spec k0 k) as [->|Hk0]; simpl.
    + intuition.
    + rewrite IH. intuition.
Qed.

Lemma dict_keys_set_NoDup {V} (d : list (str * V)) (k : str) (v : V) :
  NoDup (dict_keys d) -> NoDup (dict_keys (dict_set d k v)).
Proof.
  unfold dict_keys. induction d as [|[k0 v0] d IH]; simpl; intros H.
  - constructor; [intros []|constructor].
  - inversion H as [|? ? Hnotin Hd]; subst.
    destruct (str_eqb_spec k0 k) as [->|Hk0]; simpl.
    + now constructor.
    + constructor; [|auto].
      intros Hin. apply (dict_keys_set d k v k0) in Hin.
      destruct Hin as [->|Hin]; [congruence|auto].
Qed.

Lemma dict_get_absent {V} (d : list (str * V)) (k : str) :
  ~ In k (dict_keys d) -> dict_get d k = None.
Proof.
  unfold dict_keys. induction d as [|[k0 v0] d IH]; simpl; intros H; [reflexivity|].
  destruct (str_eqb_spec k0 k); [tauto|]. apply IH. tauto.
Qed.

Lemma dict_get_in {V} (d : list (str * V)) (k : str) (v : V) :
  dict_get d k = Some v -> In (k, v) d.
Proof.
  induction d as [|[k0 v0] d IH]; simpl; [discriminate|].
  destruct (str_eqb_spec k0 k) as [->|_].
  - intros [= ->]. now left.
  - intros H. right. auto.
Qed.

Lemma dict_update_keys {V} (items d : list (str * V)) (k : str) :
  In k (dict_keys (dict_update d items)) <->
  In k (dict_keys d) \/ In k (dict_keys items).
Proof.
  revert d. induction items as [|[k0 v0] items IH]; intros d; simpl.
  - intuition.
  - unfold dict_update in *. simpl. rewrite IH, dict_keys_set. simpl. intuition.
Qed.

Lemma dict_update_NoDup {V} (items d : list (str * V)) :
  NoDup (dict_keys d) -> NoDup (dict_keys (dict_update d items)).
Proof.
  revert d. induction items as [|[k0 v0] items IH]; intros d H; simpl; [exact H|].
  apply IH. now apply dict_keys_set_NoDup.
Qed.

Lemma dict_update_get_last {V} (pre post d : list (str * V)) (k : str) (v : V) :
  ~ In k (dict_keys post) ->
  dict_get (dict_update d (pre ++ (k, v) :: post)) k = Some v.
Proof.
  intros Hpost. unfold dict_update. rewrite fold_left_app. simpl.
  generalize (fold_left (fun d kv => dict_set d (fst kv) (snd kv)) pre d).
  intros d'. fold (dict_update (dict_set d' k v) post).
  assert (H : dict_get (dict_set d' k v) k = Some v) by apply dict_get_set_same.
  revert H. generalize (dict_set d' k v). clear d d' pre.
  induction post as [|[k0 v0] post IH]; intros d H; [exact H|].
  simpl in Hpost. unfold dict_update. simpl. apply IH; [tauto|].
  rewrite dict_get_set_other; [exact H|]. tauto.
Qed.

(** *** [convert_dict_keys_to_snake_case] *)

Lemma frames_needed_pos (data : pyval) : (1 <= frames_needed data)%nat.
Proof. destruct data; simpl; lia. Qed.

Lemma convert_items (inner : nat) (items : list (str * pyval)) :
  Forall (fun kv =>
            forall frames,
              convert_dict_keys_to_snake_case frames (snd kv)
              = if Nat.leb (frames_needed (snd kv)) frames
                then Ok (snake_keys (snd kv)) else Raise RecursionError)
         items ->
  forall acc,
    for_each
      (fun acc kv =>
         key <- call inner (fun _ => to_snake_case (fst kv)) ;;
         value <- convert_dict_keys_to_snake_case inner (snd kv) ;;
         Ok (dict_set acc key value))
      items acc
    = if Nat.leb (list_max (map (fun kv => frames_needed (snd kv)) items)) inner
      then Ok (dict_update acc (map convert_item items))
      else Raise RecursionError.
Proof.
  induction 1 as [|kv items Hkv _ IH]; intros acc; [reflexivity|].
  cbn [for_each map list_max fold_right].
  fold (list_max (map (fun kv => frames_needed (snd kv)) items)).
  pose proof (frames_needed_pos (snd kv)) as Hpos.
  destruct inner as [|inner'].
  - cbn [call bind].
    destruct (Nat.leb_spec (Nat.max (frames_needed (snd kv))
                              (list_max (map (fun kv => frames_needed (snd kv))
                                           items))) 0); [lia|reflexivity].
  - cbn [call]. rewrite to_snake_case_eq. cbn [bind]. rewrite Hkv.
    destruct (Nat.leb_spec (frames_needed (snd kv)) (S inner')); cbn [bind].
    + rewrite IH.
      destruct (Nat.leb_spec
                  (list_max (map (fun kv => frames_needed (snd kv)) items))
                  (S inner')),
               (Nat.leb_spec
                  (Nat.max (frames_needed (snd kv))
                     (list_max (map (fun kv => frames_needed (snd kv)) items)))
                  (S inner')); try lia; reflexivity.
    + destruct (Nat.leb_spec
                  (Nat.max (frames_needed (snd kv))
                     (list_max (map (fun kv => frames_needed (snd kv)) items)))
                  (S inner')); [lia|reflexivity].
Qed.

(** The conversion returns the converted value when the frames suffice
    and raises [RecursionError] when they do not. *)
Lemma convert_dict_keys_to_snake_case_eq (data : pyval) :
  forall frames,
    convert_dict_keys_to_snake_case frames data
    = if Nat.leb (frames_needed data) frames
      then Ok (snake_keys data) else Raise RecursionError.
Proof.
  induction data as [ | | | | | | | items IH | ] using pyval_induction;
    intros frames; try (destruct frames; reflexivity).
  destruct frames as [|[|inner]]; [reflexivity|reflexivity|].
  cbn [convert_dict_keys_to_snake_case call].
  rewrite (convert_items inner items IH).
  cbn [frames_needed Nat.add Nat.leb snake_keys].
  destruct (Nat.leb _ inner); reflexivity.
Qed.

Lemma convert_enough (frames : nat) (data : pyval) :
  (frames_needed data <= frames)%nat ->
  convert_dict_keys_to_snake_case frames data = Ok (snake_keys data).
Proof.
  intros H. rewrite convert_dict_keys_to_snake_case_eq.
  destruct (Nat.leb_spec (frames_needed data) frames); [reflexivity|lia].
Qed.

Lemma convert_short (frames : nat) (data : pyval) :
  (frames < frames_needed data)%nat ->
  convert_dict_keys_to_snake_case frames data = Raise RecursionError.
Proof.
  intros H. rewrite convert_dict_keys_to_snake_case_eq.
  destruct (Nat.leb_spec (frames_needed data) frames); [lia|reflexivity].
Qed.

Lemma convert_returned (frames : nat) (data converted : pyval) :
  convert_dict_keys_to_snake_case frames data = Ok converted ->
  converted = snake_keys data /\ (frames_needed data <= frames)%nat.
Proof.
  rewrite convert_dict_keys_to_snake_case_eq.
  destruct (Nat.leb_spec (frames_needed data) frames); [|discriminate].
  intros [= <-]. now split.
Qed.

Lemma convert_not_dict (frames : nat) (data : pyval) :
  (1 <= frames)%nat ->
  (forall items, data <> PDict items) ->
  convert_dict_keys_to_snake_case frames data = Ok data.
Proof.
  intros Hframes H. destruct frames as [|left]; [lia|].
  destruct data; try reflexivity. now destruct (H items).
Qed.

Lemma frames_needed_item (k : str) (v : pyval) (items : list (str * pyval)) :
  In (k, v) items -> (frames_needed v + 2 <= frames_needed (PDict items))%nat.
Proof.
  intros Hin. cbn [frames_needed].
  assert (H : (frames_needed v
               <= list_max (map (fun kv => frames_needed (snd kv)) items))%nat).
  { pose proof (proj1 (list_max_le
                         (map (fun kv => frames_needed (snd kv)) items) _)
                  (Nat.le_refl _)) as Hall.
    rewrite Forall_forall in Hall. apply Hall.
    apply in_map_iff. now exists (k, v). }
  lia.
Qed.

(** C3, as amended.  With frames enough for the nesting of the input
    (one for a value that is not a mapping, two more for each level of
    nested mappings) and [spare_frames] in reserve,
    [convert_dict_keys_to_snake_case] returns anything that is not a
    mapping unchanged, a list included, whatever the list holds.  A
    mapping becomes a new mapping built item by item, every key through
    [to_snake_case] and every value through the same conversion: its
    keys are exactly the converted keys of the input, each once, and
    under the converted key of an item lies the converted value of that
    item, unless a later key converts to the same text.  With fewer
    frames than the nesting needs it raises [RecursionError].  The two
    documented examples come out as stated. *)
Theorem convert_dict_keys_to_snake_case_spec :
  (forall frames data,
     (1 + spare_frames <= frames)%nat ->
     (forall items, data <> PDict items) ->
     convert_dict_keys_to_snake_case frames data = Ok data) /\
  (forall frames items,
     (1 + spare_frames <= frames)%nat ->
     convert_dict_keys_to_snake_case frames (PList items) = Ok (PList items)) /\
  (forall frames items,
     (frames_needed (PDict items) + spare_frames <= frames)%nat ->
     exists items',
       convert_dict_keys_to_snake_case frames (PDict items) = Ok (PDict items') /\
       (forall k',
          In k' (dict_keys items') <->
          exists k, In k (dict_keys items) /\ to_snake_case k = Ok k') /\
       NoDup (dict_keys items') /\
       (forall pre k v post,
          items = pre ++ (k, v) :: post ->
          (forall k2, In k2 (dict_keys post) -> snake_scan k2 <> snake_scan k) ->
          exists k' v',
            to_snake_case k = Ok k' /\
            convert_dict_keys_to_snake_case frames v = Ok v' /\
            dict_get items' k' = Some v')) /\
  (forall frames data,
     (frames < frames_needed data)%nat ->
     convert_dict_keys_to_snake_case frames data = Raise RecursionError) /\
  (forall items,
     frames_needed (PDict items)
     = (2 + list_max (map (fun kv => frames_needed (snd kv)) items))%nat) /\
  (forall data,
     (forall items, data <> PDict items) -> frames_needed data = 1%nat) /\
  convert_dict_keys_to_snake_case 1000 example_person
  = Ok example_person_converted /\
  convert_dict_keys_to_snake_case 1000 (PList [PInt 1; PInt 2])
  = Ok (PList [PInt 1; PInt 2]) /\
  convert_dict_keys_to_snake_case 1000 (PList [example_person])
  = Ok (PList [example_person]).
Proof.
  split; [intros frames data H; apply convert_not_dict; lia|].
  split; [intros frames items H; apply convert_not_dict;
          [lia|intros; discriminate]|].
  split.
  { intros frames items Hspare.
    assert (Hframes : (frames_needed (PDict items) <= frames)%nat) by lia.
    clear Hspare.
    exists (dict_of_items (map convert_item items)).
    split; [apply (convert_enough frames (PDict items) Hframes)|].
    change (dict_of_items (map convert_item items))
      with (dict_update [] (map convert_item items)).
    split; [|split].
    - intros k'. rewrite dict_update_keys. unfold dict_keys.
      rewrite map_map. cbn [map fst convert_item]. split.
      + intros [[]|Hin]. apply in_map_iff in Hin.
        destruct Hin as ([k v] & <- & Hin). exists k. split.
        * apply in_map_iff. now exists (k, v).
        * apply to_snake_case_eq.
      + intros (k & Hin & Hk). right. rewrite to_snake_case_eq in Hk.
        injection Hk as <-. apply in_map_iff in Hin.
        destruct Hin as ([k0 v] & <- & Hin). apply in_map_iff. now exists (k0, v).
    - apply dict_update_NoDup. constructor.
    - intros pre k v post -> Hpost.
      exists (snake_scan k), (snake_keys v).
      split; [apply to_snake_case_eq|].
      split.
      { apply convert_enough.
        pose proof (frames_needed_item k v (pre ++ (k, v) :: post)) as Hitem.
        specialize (Hitem ltac:(apply in_or_app; right; now left)). lia. }
      rewrite map_app. cbn [map]. unfold convert_item at 2. cbn [fst snd].
      apply dict_update_get_last. unfold dict_keys. rewrite map_map.
      intros Hin. apply in_map_iff in Hin. destruct Hin as ([k2 v2] & Hk2 & Hin).
      cbn [fst convert_item] in Hk2. apply (Hpost k2); [|exact Hk2].
      apply in_map_iff. now exists (k2, v2). }
  split; [exact convert_short|].
  split; [reflexivity|].
  split; [intros data H; destruct data; try reflexivity; now destruct (H items)|].
  repeat split; vm_compute; reflexivity.
Qed.

Lemma convert_dict_keys_to_snake_case_spec_witness :
  convert_dict_keys_to_snake_case 1000 (PInt 7) = Ok (PInt 7) /\
  (exists items' k' v',
     convert_dict_keys_to_snake_case 1000
       (PDict [(py "aB", PInt 1); (py "cD", PList [])]) = Ok (PDict items') /\
     to_snake_case (py "aB") = Ok k' /\
     convert_dict_keys_to_snake_case 1000 (PInt 1) = Ok v' /\
     dict_get items' k' = Some v') /\
  convert_dict_keys_to_snake_case 2
    (PDict [(py "aB", PInt 1); (py "cD", PList [])]) = Raise RecursionError.
Proof.
  destruct convert_dict_keys_to_snake_case_spec
    as (Hother & _ & Hdict & Hshort & _).
  split; [|split].
  - apply (Hother 1000%nat (PInt 7)); [vm_compute; lia|].
    intros items. discriminate.
  - destruct (Hdict 1000%nat [(py "aB", PInt 1); (py "cD", PList [])])
      as (items' & Hconv & _ & _ & Hget).
    { vm_compute. lia. }
    destruct (Hget [] (py "aB") (PInt 1) [(py "cD", PList [])])
      as (k' & v' & Hk & Hv & Hlookup).
    + reflexivity.
    + intros k2 [<-|[]]. vm_compute. discriminate.
    + exists items', k', v'. repeat split; assumption.
  - apply Hshort. vm_compute. lia.
Defined.

(** C3, as stated, fails: a mapping nested 501 deep takes 1002 frames,
    and with the 1000 frames of the default recursion limit, or fewer,
    the conversion raises [RecursionError]. *)
Lemma convert_dict_keys_deep_mapping_raises :
  frames_needed (nested_mapping 501) = 1002%nat /\
  convert_dict_keys_to_snake_case 1000 (nested_mapping 501)
  = Raise RecursionError.
Proof.
  assert (H : frames_needed (nested_mapping 501) = 1002%nat)
    by (vm_compute; reflexivity).
  split; [exact H|]. apply convert_short. rewrite H. lia.
Qed.

(** ** Filter operators *)

Lemma operator_map_keys (case_insensitive : bool) :
  dict_keys (operator_map case_insensitive) = known_operators.
Proof. destruct case_insensitive; vm_compute; reflexivity. Qed.

Lemma convert_operator_unknown (operator : str) (case_insensitive : bool) :
  ~ In operator known_operators ->
  convert_operator operator case_insensitive
  = if case_insensitive then py "ILIKE" else py "=".
Proof.
  intros H. unfold convert_operator, dict_get_default.
  rewrite dict_get_absent; [reflexivity|]. now rewrite operator_map_keys.
Qed.

Lemma convert_operator_range (operator : str) (case_insensitive : bool) :
  In (convert_operator operator case_insensitive) sql_operators.
Proof.
  unfold convert_operator, dict_get_default.
  destruct (dict_get (operator_map case_insensitive) operator) as [v|] eqn:E.
  - apply dict_get_in in E.
    assert (H : forallb (fun kv => existsb (str_eqb (snd kv)) sql_operators)
                  (operator_map case_insensitive) = true)
      by (destruct case_insensitive; vm_compute; reflexivity).
    rewrite forallb_forall in H. apply in_by_eqb, (H _ E).
  - apply in_by_eqb. destruct case_insensitive; vm_compute; reflexivity.
Qed.

(** C8.  [convert_operator] maps [contains] to [ILIKE] or [LIKE] and
    [does not contain] to [NOT ILIKE] or [NOT LIKE], by the flag;
    [is empty] to [IS NULL] and [is not empty] to [IS NOT NULL]; each of
    [=], [!=], [<], [>], [<=], [>=] to itself, whatever the flag; and
    every other operator to [ILIKE] when the flag is set and to [=] when
    it is not. *)
Theorem convert_operator_table :
  convert_operator (py "contains") true = py "ILIKE" /\
  convert_operator (py "contains") false = py "LIKE" /\
  convert_operator (py "does not contain") true = py "NOT ILIKE" /\
  convert_operator (py "does not contain") false = py "NOT LIKE" /\
  (forall case_insensitive,
     convert_operator (py "is empty") case_insensitive = py "IS NULL" /\
     convert_operator (py "is not empty") case_insensitive = py "IS NOT NULL") /\
  (forall operator case_insensitive,
     In operator [py "="; py "!="; py "<"; py ">"; py "<="; py ">="] ->
     convert_operator operator case_insensitive = operator) /\
  (forall operator case_insensitive,
     ~ In operator known_operators ->
     convert_operator operator case_insensitive
     = if case_insensitive then py "ILIKE" else py "=") /\
  convert_operator (py "unknown_op") true = py "ILIKE".
Proof.
  split; [vm_compute; reflexivity|].
  split; [vm_compute; reflexivity|].
  split; [vm_compute; reflexivity|].
  split; [vm_compute; reflexivity|].
  split; [intros [|]; split; vm_compute; reflexivity|].
  split.
  { intros operator case_insensitive H.
    repeat (destruct H as [<-|H];
            [destruct case_insensitive; vm_compute; reflexivity|]).
    destruct H. }
  split; [exact convert_operator_unknown|vm_compute; reflexivity].
Qed.

Lemma convert_operator_table_witness :
  convert_operator (py "<=") false = py "<=" /\
  convert_operator (py "between") false = py "=".
Proof.
  destruct convert_operator_table as (_ & _ & _ & _ & _ & Hsame & Hother & _).
  split.
  - apply Hsame. apply in_by_eqb. vm_compute. reflexivity.
  - apply (Hother (py "between") false). apply not_in_by_eqb.
    vm_compute. reflexivity.
Defined.

(** ** Totality *)

Lemma pyval_size_item (k : str) (v : pyval) (items : list (str * pyval)) :
  In (k, v) items -> (pyval_size v < pyval_size (PDict items))%nat.
Proof.
  cbn [pyval_size]. induction items as [|[k0 v0] items IH]; [intros []|].
  intros [H|H].
  - injection H as -> ->. simpl. lia.
  - specialize (IH H). simpl. lia.
Qed.

(** C9, as amended.  [to_snake_case] and [convert_operator] have no
    error path: each returns a result on every string.
    [convert_dict_keys_to_snake_case] returns a result on every value
    whose nesting fits the frames the recursion limit leaves, with
    [spare_frames] in reserve, and raises [RecursionError] on every
    value whose nesting does not fit them.  The recursion on a mapping
    goes into the values of its items, each strictly smaller than the
    mapping.  Input that is not as expected falls through: the empty
    string and a value that is not a mapping are returned as they are,
    and an unknown operator gets the default. *)
Theorem helpers_are_total :
  (forall s : str, exists r, to_snake_case s = Ok r) /\
  (forall frames data,
     (frames_needed data + spare_frames <= frames)%nat ->
     exists r, convert_dict_keys_to_snake_case frames data = Ok r) /\
  (forall frames data,
     (frames < frames_needed data)%nat ->
     convert_dict_keys_to_snake_case frames data = Raise RecursionError) /\
  (forall k v items,
     In (k, v) items ->
     (pyval_size v < pyval_size (PDict items))%nat /\
     (frames_needed v + 2 <= frames_needed (PDict items))%nat) /\
  (forall operator case_insensitive,
     In (convert_operator operator case_insensitive) sql_operators) /\
  to_snake_case [] = Ok [] /\
  (forall frames data,
     (1 + spare_frames <= frames)%nat ->
     (forall items, data <> PDict items) ->
     convert_dict_keys_to_snake_case frames data = Ok data) /\
  (forall operator case_insensitive,
     ~ In operator known_operators ->
     convert_operator operator case_insensitive
     = if case_insensitive then py "ILIKE" else py "=").
Proof.
  split; [intros s; eexists; apply to_snake_case_eq|].
  split; [intros frames d H; eexists; apply (convert_enough frames d); lia|].
  split; [exact convert_short|].
  split; [intros k v items H; split;
          [exact (pyval_size_item k v items H)
          |exact (frames_needed_item k v items H)]|].
  split; [exact convert_operator_range|].
  split; [reflexivity|].
  split; [intros frames data H; apply convert_not_dict; lia
         |exact convert_operator_unknown].
Qed.

Lemma helpers_are_total_witness :
  (exists r,
     convert_dict_keys_to_snake_case 1000
       (PDict [(py "aB", PDict [(py "cD", PInt 1)])]) = Ok r) /\
  convert_dict_keys_to_snake_case 4
    (PDict [(py "aB", PDict [(py "cD", PInt 1)])]) = Raise RecursionError /\
  (pyval_size (PInt 1) < pyval_size (PDict [(py "a", PInt 1)]))%nat /\
  convert_dict_keys_to_snake_case 1000 (PStr (py "aB")) = Ok (PStr (py "aB")) /\
  convert_operator (py "between") true = py "ILIKE".
Proof.
  destruct helpers_are_total
    as (_ & Hfits & Hshort & Hsize & _ & _ & Hother & Hunknown).
  split; [|split; [|split; [|split]]].
  - apply Hfits. vm_compute. lia.
  - apply Hshort. vm_compute. lia.
  - destruct (Hsize (py "a") (PInt 1) [(py "a", PInt 1)]) as [H _];
      [now left|exact H].
  - apply Hother; [vm_compute; lia|]. intros items. discriminate.
  - apply (Hunknown (py "between") true). apply not_in_by_eqb.
    vm_compute. reflexivity.
Defined.

(** C9, as stated, fails: with the 1000 frames of the default recursion
    limit, a mapping nested 600 deep makes the conversion raise, so it
    does not return a result on every nested mapping. *)
Lemma convert_dict_keys_not_total :
  convert_dict_keys_to_snake_case 1000 (nested_mapping 600)
  = Raise RecursionError /\
  ~ (forall data : pyval,
       exists r, convert_dict_keys_to_snake_case 1000 data = Ok r).
Proof.
  assert (H : convert_dict_keys_to_snake_case 1000 (nested_mapping 600)
              = Raise RecursionError).
  { apply convert_short. vm_compute. lia. }
  split; [exact H|].
  intros Hall. destruct (Hall (nested_mapping 600)) as [r Hr].
  rewrite H in Hr. discriminate.
Qed.

(** ** The JSON wrappers *)

Section SafeJsonFacts.

Variable json_loads : str -> outcome pyval.
Variable json_dumps : pyval -> outcome str.

Lemma safe_json_loads_not_text (data default : pyval) (double : bool) :
  (forall text, data <> PStr text) ->
  (forall items, data <> PDict items) ->
  (forall items, data <> PList items) ->
  safe_json_loads json_loads data default double = Ok default.
Proof.
  intros Hstr Hdict Hlist. destruct data; try reflexivity.
  - now destruct (Hstr s).
  - now destruct (Hlist items).
  - now destruct (Hdict items).
Qed.

Lemma safe_json_loads_failure (text : str) (default : pyval) (double : bool)
    (e : exn) :
  json_loads text = Raise e ->
  caught load_errors e = true ->
  safe_json_loads json_loads (PStr text) default double = Ok default.
Proof.
  intros Hload He. unfold safe_json_loads. rewrite Hload. cbn [bind try_except].
  fold load_errors. now rewrite He.
Qed.

Lemma safe_json_loads_single (text : str) (default v : pyval) :
  json_loads text = Ok v ->
  safe_json_loads json_loads (PStr text) default false = Ok v.
Proof.
  intros Hload. unfold safe_json_loads. rewrite Hload. cbn [bind].
  destruct v; reflexivity.
Qed.

Lemma safe_json_loads_not_str_result (text : str) (default v : pyval)
    (double : bool) :
  json_loads text = Ok v ->
  (forall inner, v <> PStr inner) ->
  safe_json_loads json_loads (PStr text) default double = Ok v.
Proof.
  intros Hload Hv. unfold safe_json_loads. rewrite Hload. cbn [bind].
  destruct v; try reflexivity. now destruct (Hv s).
Qed.

Lemma safe_json_loads_plain_text (text inner : str) (default : pyval) :
  json_loads text = Ok (PStr inner) ->
  looks_like_json inner = false ->
  safe_json_loads json_loads (PStr text) default true = Ok (PStr inner).
Proof.
  intros Hload Hlooks. unfold safe_json_loads. rewrite Hload. cbn [bind].
  fold (looks_like_json inner). rewrite Hlooks. reflexivity.
Qed.

Lemma safe_json_loads_double (text inner : str) (default v : pyval) :
  json_loads text = Ok (PStr inner) ->
  looks_like_json inner = true ->
  json_loads inner = Ok v ->
  safe_json_loads json_loads (PStr text) default true = Ok v.
Proof.
  intros Hload Hlooks Hinner. unfold safe_json_loads. rewrite Hload. cbn [bind].
  fold (looks_like_json inner). rewrite Hlooks, Hinner. reflexivity.
Qed.

Lemma safe_json_loads_double_failure (text inner : str) (default : pyval)
    (e : exn) :
  json_loads text = Ok (PStr inner) ->
  looks_like_json inner = true ->
  json_loads inner = Raise e ->
  caught load_errors e = true ->
  safe_json_loads json_loads (PStr text) default true = Ok (PStr inner).
Proof.
  intros Hload Hlooks Hinner He. unfold safe_json_loads.
  rewrite Hload. cbn [bind].
  fold (looks_like_json inner). rewrite Hlooks, Hinner. cbn [bind try_except].
  fold load_errors. rewrite He. reflexivity.
Qed.

Lemma safe_json_dumps_success (data default : pyval) (text : str) :
  json_dumps data = Ok text ->
  safe_json_dumps json_dumps data default = Ok (PStr text).
Proof. intros H. unfold safe_json_dumps. now rewrite H. Qed.

Lemma safe_json_dumps_failure (data default : pyval) (e : exn) :
  json_dumps data = Raise e ->
  caught dump_errors e = true ->
  safe_json_dumps json_dumps data default = Ok (dump_fallback default).
Proof.
  intros H He. unfold safe_json_dumps. rewrite H. cbn [bind try_except].
  fold dump_errors. rewrite He. reflexivity.
Qed.

End SafeJsonFacts.

(** *** The errors of the reference codec *)

Ltac break_match :=
  repeat match goal with
    | |- context [match ?x with _ => _ end] => destruct x eqn:?
    end.

Lemma scanstring_raises (fuel : nat) :
  forall s acc e, scanstring fuel s acc = Raise e -> e = JSONDecodeError.
Proof.
  induction fuel as [|fuel IH]; intros s acc e; cbn [scanstring].
  - congruence.
  - break_match; try congruence; eauto.
Qed.

Lemma match_number_raises (strtod : str -> float64) (s rest : str) (e : exn) :
  match_number strtod s = Some (Raise e, rest) -> e = ValueError.
Proof.
  unfold match_number, int_of_digits. break_match; congruence.
Qed.

Lemma scan_once_raises (strtod : str -> float64) (fuel : nat) :
  (forall limit s e,
     scan_once strtod fuel limit s = Raise e ->
     decode_error e \/ e = RecursionError) /\
  (forall limit s acc e,
     parse_array strtod fuel limit s acc = Raise e ->
     decode_error e \/ e = RecursionError) /\
  (forall limit s acc e,
     parse_object strtod fuel limit s acc = Raise e ->
     decode_error e \/ e = RecursionError).
Proof.
  induction fuel as [|fuel (IHvalue & IHarray & IHobject)].
  - repeat split; intros *; cbn [scan_once parse_array parse_object];
      left; left; congruence.
  - split; [|split].
    + intros limit s e. cbn [scan_once].
      destruct s as [|c s']; [left; left; congruence|].
      destruct (c =? 34)%N.
      { destruct (scanstring _ s' []) eqn:E; cbn [bind]; [congruence|].
        apply scanstring_raises in E. intros [= <-]. left. now left. }
      destruct (c =? 123)%N.
      { destruct limit as [|inside]; cbn [call]; [right; congruence|].
        destruct (skip_ws s') as [|c' r]; [left; left; congruence|].
        destruct (c' =? 125)%N; [congruence|]. apply IHobject. }
      destruct (c =? 91)%N.
      { destruct limit as [|inside]; cbn [call]; [right; congruence|].
        destruct (skip_ws s') as [|c' r]; [left; left; congruence|].
        destruct (c' =? 93)%N; [congruence|]. apply IHarray. }
      destruct (match_constant (c :: s')); [congruence|].
      destruct (match_number strtod (c :: s')) as [[[v|e'] rest]|] eqn:E;
        cbn [bind]; [congruence| |left; left; congruence].
      apply match_number_raises in E. intros [= <-]. left. now right.
    + intros limit s acc e. cbn [parse_array].
      destruct (scan_once strtod fuel limit s) as [item|e'] eqn:E; cbn [bind].
      * break_match; try congruence; try (left; left; congruence).
        apply IHarray.
      * intros [= <-]. eapply IHvalue; eauto.
    + intros limit s acc e. cbn [parse_object].
      destruct s as [|q s']; [left; left; congruence|].
      destruct (q =? 34)%N; [|left; left; congruence].
      destruct (scanstring _ s' []) as [key|e'] eqn:E; cbn [bind].
      * destruct (skip_ws (snd key)) as [|colon r]; [left; left; congruence|].
        destruct (colon =? 58)%N; [|left; left; congruence].
        destruct (scan_once strtod fuel limit (skip_ws r)) as [item|e'] eqn:E';
          cbn [bind].
        -- break_match; try congruence; try (left; left; congruence).
           apply IHobject.
        -- intros [= <-]. eapply IHvalue; eauto.
      * apply scanstring_raises in E. intros [= <-]. left. now left.
Qed.

(** The reference decoder fails with an error [safe_json_loads] catches,
    or with [RecursionError]. *)
Lemma json_loads_ref_raises (strtod : str -> float64) (frames : nat) (s : str)
    (e : exn) :
  json_loads_ref strtod frames s = Raise e ->
  caught load_errors e = true \/ e = RecursionError.
Proof.
  unfold json_loads_ref.
  assert (H : decode_error e \/ e = RecursionError ->
              caught load_errors e = true \/ e = RecursionError)
    by (intros [[->| ->]| ->]; [left; reflexivity|left; reflexivity|now right]).
  destruct frames as [|in_loads]; cbn [call]; [right; congruence|].
  destruct (startswith s _); [intros [= <-]; left; reflexivity|].
  destruct in_loads as [|in_decode]; cbn [call]; [right; congruence|].
  destruct in_decode as [|in_raw_decode]; cbn [call bind]; [right; congruence|].
  destruct (scan_once strtod _ in_raw_decode (skip_ws s)) as [v|e'] eqn:E;
    cbn [bind].
  - destruct (skip_ws (snd v)); [congruence|]. intros [= <-]. left. reflexivity.
  - intros [= <-]. apply H. eapply (proj1 (scan_once_raises _ _)); eauto.
Qed.

Lemma encoder_listencode_obj_raises (float_repr : float64 -> str)
    (data : pyval) :
  forall (limit : nat) (e : exn),
    (encoder_depth data <= limit)%nat ->
    encoder_listencode_obj float_repr limit data = Raise e ->
    caught dump_errors e = true.
Proof.
  induction data as [ | [|] | n | | | items IH | items IH | items IH | ]
    using pyval_induction; intros limit e Hdepth;
    cbn [encoder_listencode_obj]; try congruence.
  - unfold int_repr. destruct (Nat.ltb _ _); [|congruence].
    intros [= <-]. reflexivity.
  - cbn [encoder_depth] in Hdepth.
    destruct limit as [|inside]; [lia|]. cbn [call].
    assert (Hmax : (list_max (map encoder_depth items) <= inside)%nat) by lia.
    clear Hdepth.
    assert (H : forall acc,
        for_each (fun acc item =>
                    text <- encoder_listencode_obj float_repr inside item ;;
                    Ok (acc ++ [text])) items acc = Raise e ->
        caught dump_errors e = true).
    { induction IH as [|v items Hv _ IHitems]; intros acc; cbn [for_each].
      - congruence.
      - cbn [map list_max fold_right] in Hmax.
        fold (list_max (map encoder_depth items)) in Hmax.
        destruct (encoder_listencode_obj float_repr inside v) eqn:E; cbn [bind].
        + apply IHitems. lia.
        + intros [= <-]. apply (Hv inside); [lia|exact E]. }
    destruct (for_each _ items []) eqn:E; cbn [bind]; [congruence|].
    intros [= <-]. eapply H; eauto.
  - cbn [encoder_depth] in Hdepth.
    destruct limit as [|inside]; [lia|]. cbn [call].
    assert (Hmax : (list_max (map encoder_depth items) <= inside)%nat) by lia.
    clear Hdepth.
    assert (H : forall acc,
        for_each (fun acc item =>
                    text <- encoder_listencode_obj float_repr inside item ;;
                    Ok (acc ++ [text])) items acc = Raise e ->
        caught dump_errors e = true).
    { induction IH as [|v items Hv _ IHitems]; intros acc; cbn [for_each].
      - congruence.
      - cbn [map list_max fold_right] in Hmax.
        fold (list_max (map encoder_depth items)) in Hmax.
        destruct (encoder_listencode_obj float_repr inside v) eqn:E; cbn [bind].
        + apply IHitems. lia.
        + intros [= <-]. apply (Hv inside); [lia|exact E]. }
    destruct (for_each _ items []) eqn:E; cbn [bind]; [congruence|].
    intros [= <-]. eapply H; eauto.
  - cbn [encoder_depth] in Hdepth.
    destruct limit as [|inside]; [lia|]. cbn [call].
    assert (Hmax : (list_max (map (fun kv => encoder_depth (snd kv)) items)
                    <= inside)%nat) by lia.
    clear Hdepth.
    assert (H : forall acc,
        for_each (fun acc kv =>
                    text <- encoder_listencode_obj float_repr inside (snd kv) ;;
                    Ok (acc ++ [encode_basestring_ascii (fst kv)
                                ++ py ": " ++ text])) items acc = Raise e ->
        caught dump_errors e = true).
    { induction IH as [|v items Hv _ IHitems]; intros acc; cbn [for_each].
      - congruence.
      - cbn [map list_max fold_right] in Hmax.
        fold (list_max (map (fun kv => encoder_depth (snd kv)) items)) in Hmax.
        destruct (encoder_listencode_obj float_repr inside (snd v)) eqn:E; cbn [bind].
        + apply IHitems. lia.
        + intros [= <-]. apply (Hv inside); [lia|exact E]. }
    destruct (for_each _ items []) eqn:E; cbn [bind]; [congruence|].
    intros [= <-]. eapply H; eauto.
  - cbn [encoder_depth] in Hdepth. destruct limit as [|inside]; [lia|].
    cbn [call]. intros [= <-]. reflexivity.
Qed.

(** The reference encoder fails with an error [safe_json_dumps] catches
    whenever the frames are enough for the nesting of the value. *)
Lemma json_dumps_ref_raises (float_repr : float64 -> str) (frames : nat)
    (data : pyval) (e : exn) :
  (3 + encoder_depth data <= frames)%nat ->
  json_dumps_ref float_repr frames data = Raise e ->
  caught dump_errors e = true.
Proof.
  intros Hframes. unfold json_dumps_ref.
  destruct frames as [|[|[|in_iterencode]]]; try lia. cbn [call].
  assert (Hdepth : (encoder_depth data <= in_iterencode)%nat) by lia.
  destruct data; try apply (encoder_listencode_obj_raises _ _ _ _ Hdepth).
  congruence.
Qed.

Lemma safe_json_loads_uncaught (json_loads : str -> outcome pyval)
    (text : str) (default : pyval) (double : bool) (e : exn) :
  json_loads text = Raise e ->
  caught load_errors e = false ->
  safe_json_loads json_loads (PStr text) default double = Raise e.
Proof.
  intros Hload He. unfold safe_json_loads. rewrite Hload. cbn [bind try_except].
  fold load_errors. now rewrite He.
Qed.

Lemma safe_json_loads_double_uncaught (json_loads : str -> outcome pyval)
    (text inner : str) (default : pyval) (e : exn) :
  json_loads text = Ok (PStr inner) ->
  looks_like_json inner = true ->
  json_loads inner = Raise e ->
  caught load_errors e = false ->
  safe_json_loads json_loads (PStr text) default true = Raise e.
Proof.
  intros Hload Hlooks Hinner He. unfold safe_json_loads.
  rewrite Hload. cbn [bind].
  fold (looks_like_json inner). rewrite Hlooks, Hinner. cbn [bind try_except].
  fold load_errors. rewrite He. cbn [bind try_except]. now rewrite He.
Qed.

Lemma safe_json_dumps_uncaught (json_dumps : pyval -> outcome str)
    (data default : pyval) (e : exn) :
  json_dumps data = Raise e ->
  caught dump_errors e = false ->
  safe_json_dumps json_dumps data default = Raise e.
Proof.
  intros H He. unfold safe_json_dumps. rewrite H. cbn [bind try_except].
  fold dump_errors. now rewrite He.
Qed.

(** *** The wrappers, with any codec and with the reference codec *)

(** C4, as amended.  [safe_json_loads] returns the default when the
    input is [None]; the input itself when it is a dictionary or a list,
    whatever the decoder would do; the default when the input is anything
    else but a string, a tuple included.  A string is decoded: the
    decoded value is returned when the flag is not set, when the value is
    not a string, and when it is a string that begins with neither a
    brace nor a bracket; the default is returned when the decoder fails
    with a type, value or decoding error; an error of another class
    leaves the function as it is.  The reference decoder fails with a
    decoding or value error, or, on arrays and objects nested deeper than
    the recursion limit leaves room for, with [RecursionError], which is
    not caught. *)
Theorem safe_json_loads_spec :
  (forall (json_loads : str -> outcome pyval) (default : pyval) (double : bool),
     safe_json_loads json_loads PNone default double = Ok default /\
     (forall items,
        safe_json_loads json_loads (PDict items) default double
        = Ok (PDict items)) /\
     (forall items,
        safe_json_loads json_loads (PList items) default double
        = Ok (PList items)) /\
     (forall data,
        (forall text, data <> PStr text) ->
        (forall items, data <> PDict items) ->
        (forall items, data <> PList items) ->
        safe_json_loads json_loads data default double = Ok default) /\
     (forall items,
        safe_json_loads json_loads (PTuple items) default double
        = Ok default) /\
     (forall text v,
        json_loads text = Ok v ->
        safe_json_loads json_loads (PStr text) default false = Ok v) /\
     (forall text v,
        json_loads text = Ok v ->
        (forall inner, v <> PStr inner) ->
        safe_json_loads json_loads (PStr text) default double = Ok v) /\
     (forall text inner,
        json_loads text = Ok (PStr inner) ->
        startswith inner (py "{") || startswith inner (py "[") = false ->
        safe_json_loads json_loads (PStr text) default double
        = Ok (PStr inner)) /\
     (forall text e,
        json_loads text = Raise e ->
        caught [TypeError; ValueError; JSONDecodeError] e = true ->
        safe_json_loads json_loads (PStr text) default double = Ok default) /\
     (forall text e,
        json_loads text = Raise e ->
        caught [TypeError; ValueError; JSONDecodeError] e = false ->
        safe_json_loads json_loads (PStr text) default double = Raise e)) /\
  (forall strtod frames text default double e,
     json_loads_ref strtod frames text = Raise e ->
     (caught [TypeError; ValueError; JSONDecodeError] e = true /\
      safe_json_loads (json_loads_ref strtod frames) (PStr text) default double
      = Ok default) \/
     (e = RecursionError /\
      safe_json_loads (json_loads_ref strtod frames) (PStr text) default double
      = Raise RecursionError)) /\
  (forall strtod,
     safe_json_loads (json_loads_ref strtod 1000) (PStr a1_text) PNone false
     = Ok a1_value /\
     safe_json_loads (json_loads_ref strtod 1000) (PStr a1_text) PNone true
     = Ok a1_value /\
     safe_json_loads (json_loads_ref strtod 1000) (PStr (py "not json"))
       (PDict []) false = Ok (PDict []) /\
     safe_json_loads (json_loads_ref strtod 1000) (PStr (py "[[["))
       PNone false = Ok PNone).
Proof.
  split; [|split].
  - intros json_loads default double.
    split; [reflexivity|]. split; [reflexivity|]. split; [reflexivity|].
    split; [intros data; apply safe_json_loads_not_text|].
    split; [reflexivity|].
    split; [intros text v; apply safe_json_loads_single|].
    split; [intros text v; apply safe_json_loads_not_str_result|].
    split.
    { intros text inner Hload Hlooks. destruct double.
      - now apply safe_json_loads_plain_text.
      - now apply safe_json_loads_single. }
    split; [intros text e; apply safe_json_loads_failure|].
    intros text e. apply safe_json_loads_uncaught.
  - intros strtod frames text default double e He.
    destruct (json_loads_ref_raises _ _ _ _ He) as [Hcaught| ->].
    + left. split; [exact Hcaught|].
      eapply safe_json_loads_failure; [exact He|exact Hcaught].
    + right. split; [reflexivity|].
      apply safe_json_loads_uncaught; [exact He|reflexivity].
  - intros strtod. repeat split; vm_compute; reflexivity.
Qed.

Lemma safe_json_loads_spec_witness :
  safe_json_loads (json_loads_ref (fun _ => 0) 1000) (PTuple [PInt 1]) (PInt 5)
    true = Ok (PInt 5) /\
  safe_json_loads (json_loads_ref (fun _ => 0) 1000) (PStr a1_text) PNone false
  = Ok a1_value /\
  safe_json_loads (json_loads_ref (fun _ => 0) 1000) (PStr (py "[1, 2]"))
    (PInt 5) true = Ok (PList [PInt 1; PInt 2]) /\
  safe_json_loads (json_loads_ref (fun _ => 0) 1000)
    (PStr ([34%N] ++ py "plain" ++ [34%N])) (PInt 5) true
  = Ok (PStr (py "plain")) /\
  safe_json_loads (json_loads_ref (fun _ => 0) 1000) (PStr (py "[1,")) (PInt 5)
    true = Ok (PInt 5) /\
  safe_json_loads (json_loads_ref (fun _ => 0) 5) (PStr (py "[[[1]]]")) (PInt 5)
    true = Raise RecursionError /\
  (safe_json_loads (json_loads_ref (fun _ => 0) 1000) (PStr (py "{")) PNone false
   = Ok PNone \/
   safe_json_loads (json_loads_ref (fun _ => 0) 1000) (PStr (py "{")) PNone false
   = Raise RecursionError).
Proof.
  destruct safe_json_loads_spec as (Hgen & Href & _).
  destruct (Hgen (json_loads_ref (fun _ => 0) 1000) (PInt 5) true)
    as (_ & _ & _ & Hother & _ & _ & Hvalue & Hplain & Hfail & _).
  destruct (Hgen (json_loads_ref (fun _ => 0) 5) (PInt 5) true)
    as (_ & _ & _ & _ & _ & _ & _ & _ & _ & Hraise).
  destruct (Hgen (json_loads_ref (fun _ => 0) 1000) PNone false)
    as (_ & _ & _ & _ & _ & Hload & _).
  split; [|split; [|split; [|split; [|split; [|split]]]]].
  - apply Hother; intros; discriminate.
  - apply Hload. vm_compute. reflexivity.
  - apply Hvalue; [vm_compute; reflexivity|]. intros inner. discriminate.
  - apply Hplain; vm_compute; reflexivity.
  - apply (Hfail (py "[1,") JSONDecodeError); vm_compute; reflexivity.
  - apply (Hraise (py "[[[1]]]") RecursionError); vm_compute; reflexivity.
  - destruct (Href (fun _ => 0) 1000%nat (py "{") PNone false JSONDecodeError)
      as [[_ H]|[_ H]].
    + vm_compute. reflexivity.
    + left. exact H.
    + right. exact H.
Defined.

(** C4, as stated, fails twice.  A text of 1001 opening brackets makes
    the decoder raise [RecursionError] when the recursion limit leaves
    1000 frames, and [safe_json_loads] raises it instead of returning
    the default.  A tuple is a sequence, and it is not
    returned: the default is. *)
Lemma safe_json_loads_deep_text_raises :
  safe_json_loads (json_loads_ref (fun _ => 0) 1000)
    (PStr (open_brackets 1001)) PNone false = Raise RecursionError /\
  safe_json_loads (json_loads_ref (fun _ => 0) 1000)
    (PTuple [PInt 1; PInt 2]) PNone false = Ok PNone.
Proof. split; vm_compute; reflexivity. Qed.

(** C5, as amended.  With [attempt_double_decode] set and a string whose
    first decoding succeeds: when the first result is a string that
    begins with a brace or a bracket, it is decoded again and the second
    result is returned; when the second decoding fails with a type, value
    or decoding error the first result is returned, and when it fails
    with an error of another class, [RecursionError] for one, that error
    leaves the function; when the first result is any other string, or
    not a string, it is returned.  The double-encoded text of [{"a": 1}]
    gives [{"a": 1}]. *)
Theorem safe_json_loads_double_decode :
  (forall (json_loads : str -> outcome pyval) (text : str)
          (first default : pyval),
     json_loads text = Ok first ->
     (forall inner,
        first = PStr inner ->
        startswith inner (py "{") || startswith inner (py "[") = true ->
        (forall second,
           json_loads inner = Ok second ->
           safe_json_loads json_loads (PStr text) default true = Ok second) /\
        (forall e,
           json_loads inner = Raise e ->
           caught [TypeError; ValueError; JSONDecodeError] e = true ->
           safe_json_loads json_loads (PStr text) default true = Ok first) /\
        (forall e,
           json_loads inner = Raise e ->
           caught [TypeError; ValueError; JSONDecodeError] e = false ->
           safe_json_loads json_loads (PStr text) default true = Raise e)) /\
     (forall inner,
        first = PStr inner ->
        startswith inner (py "{") || startswith inner (py "[") = false ->
        safe_json_loads json_loads (PStr text) default true = Ok first) /\
     ((forall inner, first <> PStr inner) ->
      safe_json_loads json_loads (PStr text) default true = Ok first)) /\
  (forall strtod frames text inner default e,
     json_loads_ref strtod frames text = Ok (PStr inner) ->
     startswith inner (py "{") || startswith inner (py "[") = true ->
     json_loads_ref strtod frames inner = Raise e ->
     (caught [TypeError; ValueError; JSONDecodeError] e = true /\
      safe_json_loads (json_loads_ref strtod frames) (PStr text) default true
      = Ok (PStr inner)) \/
     (e = RecursionError /\
      safe_json_loads (json_loads_ref strtod frames) (PStr text) default true
      = Raise RecursionError)) /\
  (forall strtod,
     json_loads_ref strtod 1000 a1_double_encoded = Ok (PStr a1_text) /\
     safe_json_loads (json_loads_ref strtod 1000) (PStr a1_double_encoded)
       PNone true = Ok a1_value /\
     safe_json_loads (json_loads_ref strtod 1000) (PStr a1_double_encoded)
       PNone false = Ok (PStr a1_text) /\
     safe_json_loads (json_loads_ref strtod 1000)
       (PStr (quoted_open_brackets 3)) PNone true
     = Ok (PStr (open_brackets 3))).
Proof.
  split; [|split].
  - intros json_loads text first default Hfirst. split; [|split].
    + intros inner -> Hlooks. split; [|split].
      * intros second. now apply safe_json_loads_double.
      * intros e. now apply safe_json_loads_double_failure.
      * intros e. now apply safe_json_loads_double_uncaught.
    + intros inner -> Hlooks. now apply safe_json_loads_plain_text.
    + intros Hnot. now apply safe_json_loads_not_str_result.
  - intros strtod frames text inner default e Hfirst Hlooks Hsecond.
    destruct (json_loads_ref_raises _ _ _ _ Hsecond) as [Hcaught| ->].
    + left. split; [exact Hcaught|].
      now apply (safe_json_loads_double_failure _ _ _ _ e).
    + right. split; [reflexivity|].
      now apply (safe_json_loads_double_uncaught _ _ inner).
  - intros strtod. repeat split; vm_compute; reflexivity.
Qed.

Lemma safe_json_loads_double_decode_witness :
  safe_json_loads (json_loads_ref (fun _ => 0) 1000) (PStr a1_double_encoded)
    (PInt 5) true = Ok a1_value /\
  safe_json_loads (json_loads_ref (fun _ => 0) 1000)
    (PStr truncated_double_encoded) (PInt 5) true
  = Ok (PStr (py "{" ++ [34%N] ++ py "a" ++ [34%N] ++ py ":")) /\
  safe_json_loads (json_loads_ref (fun _ => 0) 5)
    (PStr (quoted_open_brackets 3)) (PInt 5) true = Raise RecursionError /\
  safe_json_loads (json_loads_ref (fun _ => 0) 1000)
    (PStr ([34%N] ++ py "plain" ++ [34%N])) (PInt 5) true
  = Ok (PStr (py "plain")) /\
  safe_json_loads (json_loads_ref (fun _ => 0) 1000) (PStr (py "[1, 2]"))
    (PInt 5) true = Ok (PList [PInt 1; PInt 2]).
Proof.
  destruct safe_json_loads_double_decode as (Hgen & _).
  split; [|split; [|split; [|split]]].
  - destruct (Hgen (json_loads_ref (fun _ => 0) 1000) a1_double_encoded
                (PStr a1_text) (PInt 5)) as (Hdouble & _).
    { vm_compute. reflexivity. }
    destruct (Hdouble a1_text) as (Hok & _).
    { reflexivity. }
    { vm_compute. reflexivity. }
    apply Hok. vm_compute. reflexivity.
  - destruct (Hgen (json_loads_ref (fun _ => 0) 1000) truncated_double_encoded
                (PStr (py "{" ++ [34%N] ++ py "a" ++ [34%N] ++ py ":"))
                (PInt 5)) as (Hdouble & _).
    { vm_compute. reflexivity. }
    destruct (Hdouble (py "{" ++ [34%N] ++ py "a" ++ [34%N] ++ py ":"))
      as (_ & Hfail & _).
    { reflexivity. }
    { vm_compute. reflexivity. }
    apply (Hfail JSONDecodeError); vm_compute; reflexivity.
  - destruct (Hgen (json_loads_ref (fun _ => 0) 5) (quoted_open_brackets 3)
                (PStr (open_brackets 3)) (PInt 5)) as (Hdouble & _).
    { vm_compute. reflexivity. }
    destruct (Hdouble (open_brackets 3)) as (_ & _ & Hraise).
    { reflexivity. }
    { vm_compute. reflexivity. }
    apply (Hraise RecursionError); vm_compute; reflexivity.
  - destruct (Hgen (json_loads_ref (fun _ => 0) 1000)
                ([34%N] ++ py "plain" ++ [34%N]) (PStr (py "plain")) (PInt 5))
      as (_ & Hplain & _).
    { vm_compute. reflexivity. }
    apply (Hplain (py "plain")); [reflexivity|vm_compute; reflexivity].
  - destruct (Hgen (json_loads_ref (fun _ => 0) 1000) (py "[1, 2]")
                (PList [PInt 1; PInt 2]) (PInt 5)) as (_ & _ & Hnot).
    { vm_compute. reflexivity. }
    apply Hnot. intros inner. discriminate.
Defined.

(** C5, as stated, fails: the JSON string that holds 1001 opening
    brackets decodes to a string that begins with a bracket; decoding
    that string raises [RecursionError] when the recursion limit leaves
    1000 frames, and the error leaves [safe_json_loads]: the first
    result is not returned. *)
Lemma safe_json_loads_second_decode_raises :
  json_loads_ref (fun _ => 0) 1000 (quoted_open_brackets 1001)
  = Ok (PStr (open_brackets 1001)) /\
  json_loads_ref (fun _ => 0) 1000 (open_brackets 1001)
  = Raise RecursionError /\
  safe_json_loads (json_loads_ref (fun _ => 0) 1000)
    (PStr (quoted_open_brackets 1001)) PNone true = Raise RecursionError.
Proof. repeat split; vm_compute; reflexivity. Qed.

(** C6.  [safe_json_dumps] returns the text the encoder gives; when the
    encoder fails with a type, value or overflow error it returns the
    default, which is the text [{}] when no default (or [None]) is given.
    With the reference encoder [{"a": 1}] is written as a text that
    decodes back to it, an object the encoder does not know gives the
    default, and no value whose nesting fits the frames the recursion
    limit leaves, with [spare_frames] in reserve, makes the wrapper
    raise.  A list nested 1000 deep does, with 1000 frames:
    [RecursionError] is not among the errors the wrapper catches. *)
Theorem safe_json_dumps_spec :
  (forall (json_dumps : pyval -> outcome str) (data default : pyval),
     (forall text,
        json_dumps data = Ok text ->
        safe_json_dumps json_dumps data default = Ok (PStr text)) /\
     (forall e,
        json_dumps data = Raise e ->
        caught [TypeError; ValueError; OverflowError] e = true ->
        safe_json_dumps json_dumps data default
        = Ok (match default with PNone => PStr (py "{}") | _ => default end))) /\
  (forall float_repr strtod,
     safe_json_dumps (json_dumps_ref float_repr 1000) a1_value PNone
     = Ok (PStr a1_dumped) /\
     json_loads_ref strtod 1000 a1_dumped = Ok a1_value) /\
  (forall float_repr frames class_name,
     (4 + spare_frames <= frames)%nat ->
     safe_json_dumps (json_dumps_ref float_repr frames) (PObject class_name)
       (PStr (py "[]")) = Ok (PStr (py "[]")) /\
     safe_json_dumps (json_dumps_ref float_repr frames) (PObject class_name)
       PNone = Ok (PStr (py "{}"))) /\
  (forall float_repr frames data default,
     (3 + encoder_depth data + spare_frames <= frames)%nat ->
     exists v,
       safe_json_dumps (json_dumps_ref float_repr frames) data default = Ok v) /\
  (forall float_repr default,
     safe_json_dumps (json_dumps_ref float_repr 1000) (nested_list 1000) default
     = Raise RecursionError).
Proof.
  split; [|split; [|split; [|split]]].
  - intros json_dumps data default. split.
    + intros text. apply safe_json_dumps_success.
    + intros e. apply safe_json_dumps_failure.
  - intros float_repr strtod. split; vm_compute; reflexivity.
  - intros float_repr frames class_name Hframes.
    destruct frames as [|[|[|[|inside]]]]; try lia. split; reflexivity.
  - intros float_repr frames data default Hdepth.
    destruct (json_dumps_ref float_repr frames data) as [text|e] eqn:E.
    + eexists. apply safe_json_dumps_success. exact E.
    + eexists. eapply safe_json_dumps_failure; [exact E|].
      apply (json_dumps_ref_raises float_repr frames data e); [lia|exact E].
  - intros float_repr default. vm_compute. reflexivity.
Qed.

Lemma safe_json_dumps_spec_witness :
  safe_json_dumps (json_dumps_ref (fun _ => []) 1000) (PList [PInt 1; PNone])
    PNone = Ok (PStr (py "[1, null]")) /\
  safe_json_dumps (json_dumps_ref (fun _ => []) 1000) (PList [PObject "set"])
    PNone = Ok (PStr (py "{}")) /\
  safe_json_dumps (json_dumps_ref (fun _ => []) 1000) (PObject "set")
    (PStr (py "[]")) = Ok (PStr (py "[]")) /\
  (exists v,
     safe_json_dumps (json_dumps_ref (fun _ => []) 1000) (PList [PObject "set"])
       (PInt 5) = Ok v).
Proof.
  destruct safe_json_dumps_spec as (Hgen & _ & Hobject & Hfits & _).
  split; [|split; [|split]].
  - destruct (Hgen (json_dumps_ref (fun _ => []) 1000) (PList [PInt 1; PNone])
                PNone) as (Hok & _).
    apply Hok. vm_compute. reflexivity.
  - destruct (Hgen (json_dumps_ref (fun _ => []) 1000) (PList [PObject "set"])
                PNone) as (_ & Hfail).
    apply (Hfail TypeError); vm_compute; reflexivity.
  - apply (Hobject (fun _ => []) 1000%nat "set"%string). vm_compute. lia.
  - apply Hfits. vm_compute. lia.
Defined.

(** ** UUIDs *)

(** *** Hexadecimal text *)

Ltac hex_cases H :=
  unfold lower_hex in H;
  apply orb_true_iff in H;
  rewrite !andb_true_iff, !N.leb_le in H.

Lemma lower_hex_digit (c : char) :
  lower_hex c = true ->
  exists d, digit_value c = Some d /\ 0 <= d < 16.
Proof.
  intros H. hex_cases H. unfold digit_value.
  destruct H as [[H1 H2]|[H1 H2]].
  - exists (Z.of_N c - 48).
    destruct (N.leb_spec 48 c); [|lia]. destruct (N.leb_spec c 57); [|lia].
    cbn [andb]. split; [reflexivity|lia].
  - exists (Z.of_N c - 87).
    destruct (N.leb_spec 48 c); [|lia]. destruct (N.leb_spec c 57); [lia|].
    destruct (N.leb_spec 97 c); [|lia]. destruct (N.leb_spec c 122); [|lia].
    cbn [andb]. split; [reflexivity|lia].
Qed.

Lemma lower_hex_plain (c : char) :
  lower_hex c = true ->
  ascii_isspace c = false /\ (c =? 43)%N = false /\ (c =? 45)%N = false /\
  (c =? 120)%N = false /\ (c =? 88)%N = false /\
  char_eqb c underscore = false /\ (c <? 128)%N = true /\
  char_in (py "{}") c = false /\ (c =? 117)%N = false.
Proof.
  intros H. hex_cases H. unfold ascii_isspace, char_eqb, underscore, char_in.
  cbn [py list_ascii_of_string map existsb]. unfold char_eqb.
  change (N_of_ascii "{") with 123%N. change (N_of_ascii "}") with 125%N.
  repeat split;
    repeat match goal with
      | |- context [(?a =? ?b)%N] => destruct (N.eqb_spec a b); try lia
      | |- context [(?a <=? ?b)%N] => destruct (N.leb_spec a b); try lia
      | |- context [(?a <? ?b)%N] => destruct (N.ltb_spec a b); try lia
      end; reflexivity.
Qed.

Lemma hex_char_lower (d : Z) : 0 <= d < 16 -> lower_hex (hex_char d) = true.
Proof.
  intros H. unfold lower_hex, hex_char.
  destruct (Z.ltb_spec d 10).
  - apply orb_true_iff. left. apply andb_true_iff. rewrite !N.leb_le. lia.
  - apply orb_true_iff. right. apply andb_true_iff. rewrite !N.leb_le. lia.
Qed.

Lemma hex_char_value (d : Z) :
  0 <= d < 16 -> digit_value (hex_char d) = Some d.
Proof.
  intros H. unfold digit_value, hex_char.
  destruct (Z.ltb_spec d 10).
  - destruct (N.leb_spec 48 (Z.to_N (48 + d))); [|lia].
    destruct (N.leb_spec (Z.to_N (48 + d)) 57); [|lia].
    cbn [andb]. f_equal. lia.
  - destruct (N.leb_spec 48 (Z.to_N (87 + d))); [|lia].
    destruct (N.leb_spec (Z.to_N (87 + d)) 57); [lia|].
    destruct (N.leb_spec 97 (Z.to_N (87 + d))); [|lia].
    destruct (N.leb_spec (Z.to_N (87 + d)) 122); [|lia].
    cbn [andb]. f_equal. lia.
Qed.

Lemma hex_digits_length (k : nat) (n : Z) : length (hex_digits k n) = k.
Proof.
  revert n. induction k as [|k IH]; intros n; [reflexivity|].
  cbn [hex_digits]. rewrite length_app, IH. simpl. lia.
Qed.

Lemma hex_digits_lower (k : nat) (n : Z) :
  Forall (fun c => lower_hex c = true) (hex_digits k n).
Proof.
  revert n. induction k as [|k IH]; intros n; [constructor|].
  cbn [hex_digits]. apply Forall_app. split; [apply IH|].
  constructor; [|constructor]. apply hex_char_lower.
  apply Z.mod_pos_bound. lia.
Qed.

Lemma hex_value_snoc (s : str) (c : char) (d : Z) :
  digit_value c = Some d -> hex_value (s ++ [c]) = hex_value s * 16 + d.
Proof.
  intros H. unfold hex_value. rewrite fold_left_app. simpl. now rewrite H.
Qed.

Lemma hex_value_digits (k : nat) (n : Z) :
  0 <= n -> hex_value (hex_digits k n) = n mod 16 ^ Z.of_nat k.
Proof.
  revert n. induction k as [|k IH]; intros n Hn.
  - simpl. now rewrite Z.mod_1_r.
  - cbn [hex_digits].
    erewrite hex_value_snoc
      by (apply hex_char_value, Z.mod_pos_bound; reflexivity).
    rewrite IH by (apply Z.div_pos; lia).
    rewrite Nat2Z.inj_succ, Z.pow_succ_r by lia.
    rewrite (Z.rem_mul_r n 16 (16 ^ Z.of_nat k)) by lia. lia.
Qed.

Lemma scan_digits_lower_hex (s : str) :
  Forall (fun c => lower_hex c = true) s ->
  forall acc,
    scan_digits 16 false acc s
    = Ok (fold_left (fun acc c => acc * 16 + match digit_value c with
                                             | Some d => d
                                             | None => 0
                                             end) s acc, []).
Proof.
  induction 1 as [|c s Hc _ IH]; intros acc; [reflexivity|].
  cbn [scan_digits fold_left].
  destruct (lower_hex_plain c Hc) as (_ & _ & _ & _ & _ & Hunder & _).
  destruct (lower_hex_digit c Hc) as (d & Hd & Hrange).
  rewrite Hunder, Hd. destruct (Z.ltb_spec d 16); [|lia]. apply IH.
Qed.

Lemma int_16_lower_hex (c0 c1 : char) (t : str) :
  Forall (fun c => lower_hex c = true) (c0 :: c1 :: t) ->
  int_16 (c0 :: c1 :: t) = Ok (hex_value (c0 :: c1 :: t)).
Proof.
  intros H.
  assert (Hascii : forallb (fun c => (c <? 128)%N) (c0 :: c1 :: t) = true).
  { apply forallb_forall. intros c Hc. rewrite Forall_forall in H.
    now destruct (lower_hex_plain c (H c Hc)) as (_ & _ & _ & _ & _ & _ & ? & _). }
  unfold int_16, transform_decimal_and_space. rewrite Hascii.
  pose proof (scan_digits_lower_hex _ H 0) as Hscan.
  inversion H as [|? ? H0 H']; subst. inversion H' as [|? ? H1 _]; subst.
  destruct (lower_hex_plain c0 H0) as (Hsp & Hplus & Hminus & _ & _ & Hunder & _).
  destruct (lower_hex_plain c1 H1) as (_ & _ & _ & Hx & HX & _).
  unfold PyLong_FromString_16. cbn [skip_spaces]. rewrite Hsp, Hplus, Hminus.
  rewrite Hx, HX. cbn [orb]. rewrite andb_false_r.
  cbn [startswith]. rewrite Hunder. cbn [andb].
  rewrite Hscan. cbn [bind length Nat.eqb skip_spaces].
  f_equal. unfold hex_value. lia.
Qed.

(** *** The string methods *)

Lemma replace_absent (s old new : str) (u : char) :
  hd_error old = Some u -> ~ In u s -> replace s old new = s.
Proof.
  destruct old as [|u' old']; [discriminate|]. intros [= ->] Hs.
  unfold replace. induction s as [|c s IH]; [reflexivity|].
  cbn [replace_from startswith]. unfold char_eqb at 1.
  destruct (N.eqb_spec c u) as [->|_]; [destruct Hs; now left|].
  cbn [andb]. f_equal. apply IH. intros Hin. apply Hs. now right.
Qed.

Lemma startswith_nil (s : str) : startswith s [] = true.
Proof. now destruct s. Qed.

Lemma replace_char (s : str) (a : char) :
  replace s [a] [] = filter (fun c => negb (char_eqb c a)) s.
Proof.
  unfold replace. induction s as [|c s IH]; [reflexivity|].
  cbn [replace_from startswith filter length Nat.sub app].
  rewrite startswith_nil, andb_true_r.
  destruct (char_eqb c a); cbn [negb]; now rewrite IH.
Qed.

Lemma lstrip_keep (chars s : str) :
  Forall (fun c => char_in chars c = false) s -> lstrip chars s = s.
Proof. intros [|c s' Hc _]; [reflexivity|]. cbn [lstrip]. now rewrite Hc. Qed.

Lemma strip_keep (chars s : str) :
  Forall (fun c => char_in chars c = false) s -> strip chars s = s.
Proof.
  intros H. unfold strip, rstrip. rewrite (lstrip_keep _ _ H).
  rewrite lstrip_keep by now apply Forall_rev. apply rev_involutive.
Qed.

Lemma Forall_firstn_keep {A} (P : A -> Prop) (n : nat) (l : list A) :
  Forall P l -> Forall P (firstn n l).
Proof.
  intros H. revert n. induction H as [|x l Hx _ IH]; intros [|n]; simpl;
    constructor; auto.
Qed.

Lemma Forall_skipn_keep {A} (P : A -> Prop) (n : nat) (l : list A) :
  Forall P l -> Forall P (skipn n l).
Proof.
  intros H. revert n. induction H as [|x l Hx Hl IH]; intros [|n]; simpl; auto.
Qed.

(** *** [str(uuid)] and back *)

Lemma uuid_char_plain (c : char) :
  uuid_char c = true ->
  c <> 117%N /\ char_in (py "{}") c = false.
Proof.
  unfold uuid_char. intros H. apply orb_true_iff in H. destruct H as [H|H].
  - destruct (lower_hex_plain c H) as (_ & _ & _ & _ & _ & _ & _ & Hbrace & Hu).
    split; [|exact Hbrace]. now apply N.eqb_neq.
  - apply N.eqb_eq in H. subst c. split; [discriminate|reflexivity].
Qed.

Lemma hyphenate_chars (hex : str) :
  Forall (fun c => lower_hex c = true) hex ->
  Forall (fun c => uuid_char c = true) (hyphenate hex).
Proof.
  intros H.
  assert (Hhex : forall l, Forall (fun c => lower_hex c = true) l ->
                           Forall (fun c => uuid_char c = true) l).
  { intros l Hl. eapply Forall_impl; [|exact Hl].
    intros c Hc. unfold uuid_char. now rewrite Hc. }
  assert (Hdash : Forall (fun c => uuid_char c = true) (py "-"))
    by (repeat constructor).
  unfold hyphenate.
  repeat (apply Forall_app; split);
    auto using Forall_firstn_keep, Forall_skipn_keep.
Qed.

Lemma regroup (hex : str) :
  firstn 8 hex ++ firstn 4 (skipn 8 hex) ++ firstn 4 (skipn 12 hex) ++
  firstn 4 (skipn 16 hex) ++ skipn 20 hex = hex.
Proof.
  change 20%nat with (4 + 16)%nat. rewrite <- skipn_skipn, firstn_skipn.
  change 16%nat with (4 + 12)%nat. rewrite <- skipn_skipn, firstn_skipn.
  change 12%nat with (4 + 8)%nat. rewrite <- skipn_skipn, firstn_skipn.
  apply firstn_skipn.
Qed.

Lemma filter_lower_hex (l : str) :
  Forall (fun c => lower_hex c = true) l ->
  filter (fun c => negb (char_eqb c 45%N)) l = l.
Proof.
  intros H. apply forallb_filter_id, forallb_forall. intros c Hc.
  rewrite Forall_forall in H.
  destruct (lower_hex_plain c (H c Hc)) as (_ & _ & Hminus & _).
  unfold char_eqb. now rewrite Hminus.
Qed.

Lemma unhyphenate (hex : str) :
  Forall (fun c => lower_hex c = true) hex ->
  replace (hyphenate hex) (py "-") [] = hex.
Proof.
  intros H. change (py "-") with [45%N]. rewrite replace_char.
  unfold hyphenate. change (py "-") with [45%N].
  rewrite !filter_app.
  rewrite (filter_lower_hex (firstn 8 hex)),
    (filter_lower_hex (firstn 4 (skipn 8 hex))),
    (filter_lower_hex (firstn 4 (skipn 12 hex))),
    (filter_lower_hex (firstn 4 (skipn 16 hex))),
    (filter_lower_hex (skipn 20 hex))
    by auto using Forall_firstn_keep, Forall_skipn_keep.
  cbn [filter char_eqb N.eqb Pos.eqb negb app]. apply regroup.
Qed.

Lemma format_032x_uuid (n : Z) : uuid_int n -> format_032x n = hex_digits 32 n.
Proof.
  intros [Hlo Hhi]. unfold format_032x. f_equal. apply Nat.max_l.
  assert (Z.log2 n < 128).
  { destruct (Z.eq_dec n 0) as [->|Hn]; [reflexivity|].
    apply Z.log2_lt_pow2; lia. }
  assert (Z.log2 n / 4 < 32) by (apply Z.div_lt_upper_bound; lia).
  pose proof (Z.log2_nonneg n). assert (0 <= Z.log2 n / 4) by (apply Z.div_pos; lia).
  lia.
Qed.

Lemma uuid_str_hyphenate (n : Z) :
  uuid_int n -> uuid_str n = hyphenate (hex_digits 32 n).
Proof. intros H. unfold uuid_str. now rewrite format_032x_uuid. Qed.

(** Reading the text of a UUID gives the UUID back. *)
Lemma UUID_uuid_str (n : Z) : uuid_int n -> UUID (uuid_str n) None = Ok n.
Proof.
  intros Hn. rewrite (uuid_str_hyphenate n Hn).
  pose proof (hex_digits_lower 32 n) as Hhex.
  pose proof (hyphenate_chars _ Hhex) as Hchars.
  assert (Hu : ~ In 117%N (hyphenate (hex_digits 32 n))).
  { intros Hin. rewrite Forall_forall in Hchars.
    now destruct (uuid_char_plain _ (Hchars _ Hin)). }
  unfold UUID.
  rewrite (replace_absent _ (py "urn:") [] 117%N eq_refl Hu).
  rewrite (replace_absent _ (py "uuid:") [] 117%N eq_refl Hu).
  rewrite strip_keep.
  2:{ eapply Forall_impl; [|exact Hchars]. intros c Hc.
      now destruct (uuid_char_plain c Hc). }
  rewrite (unhyphenate _ Hhex), hex_digits_length. cbn [Nat.eqb negb].
  destruct (hex_digits 32 n) as [|c0 [|c1 t]] eqn:E;
    [discriminate E|discriminate E|].
  rewrite (int_16_lower_hex _ _ _ Hhex). cbn [bind]. rewrite <- E.
  rewrite hex_value_digits by apply Hn.
  change (16 ^ Z.of_nat 32) with (2 ^ 128).
  rewrite Z.mod_small by apply Hn.
  change (Z.shiftl 1 128) with (2 ^ 128).
  destruct Hn as [Hlo Hhi].
  destruct (Z.leb_spec 0 n); [|lia]. destruct (Z.ltb_spec n (2 ^ 128)); [|lia].
  reflexivity.
Qed.

(** *** Bit fields *)

Lemma small_bits (x w j : Z) :
  0 <= x < 2 ^ w -> w <= j -> Z.testbit x j = false.
Proof.
  intros [Hlo Hhi] Hj. destruct (Z.eq_dec x 0) as [->|Hx]; [apply Z.bits_0|].
  apply Z.bits_above_log2; [lia|].
  assert (Z.log2 x < w); [|lia].
  apply Z.log2_lt_pow2; lia.
Qed.

Lemma bits_below (a k : Z) :
  0 <= a -> 0 <= k ->
  (forall i, k <= i -> Z.testbit a i = false) -> a < 2 ^ k.
Proof.
  intros Ha Hk Hbits. destruct (Z.lt_ge_cases a (2 ^ k)) as [|Hge]; [assumption|].
  assert (Hpos : 0 < a) by (pose proof (Z.pow_pos_nonneg 2 k); lia).
  assert (Hlog : k <= Z.log2 a) by (apply Z.log2_le_pow2; lia).
  specialize (Hbits _ Hlog). rewrite (Z.bit_log2 a Hpos) in Hbits. discriminate.
Qed.

Lemma testbit_ones (w j : Z) :
  0 <= w -> Z.testbit (Z.ones w) j = (0 <=? j) && (j <? w).
Proof.
  intros Hw. destruct (Z.leb_spec 0 j).
  - now rewrite Z.testbit_ones_nonneg by lia.
  - now rewrite Z.testbit_neg_r by lia.
Qed.

Lemma testbit_put (pos width x n i : Z) :
  0 <= pos -> 0 <= width -> 0 <= i ->
  Z.testbit (put pos width x n) i
  = (Z.testbit n i && negb (in_field pos width i)) || Z.testbit x (i - pos).
Proof.
  intros Hpos Hwidth Hi. unfold put, in_field.
  rewrite Z.lor_spec, Z.land_spec, Z.lnot_spec by lia.
  rewrite !Z.shiftl_spec by lia. rewrite testbit_ones by lia.
  destruct (Z.leb_spec 0 (i - pos)), (Z.leb_spec pos i); try lia;
    destruct (Z.ltb_spec (i - pos) width), (Z.ltb_spec i (pos + width));
    try lia; reflexivity.
Qed.

Lemma testbit_field (n pos width j : Z) :
  0 <= width -> 0 <= j ->
  Z.testbit (field n pos width) j = Z.testbit n (j + pos) && (j <? width).
Proof.
  intros Hwidth Hj. unfold field.
  rewrite Z.land_spec, Z.shiftr_spec, testbit_ones by lia.
  destruct (Z.leb_spec 0 j); [reflexivity|lia].
Qed.

Lemma field_put (pos width x n : Z) :
  0 <= pos -> 0 <= width -> 0 <= x < 2 ^ width ->
  field (put pos width x n) pos width = x.
Proof.
  intros Hpos Hwidth Hx. apply Z.bits_inj'. intros j Hj.
  rewrite testbit_field, testbit_put by lia. unfold in_field.
  replace (j + pos - pos) with j by lia.
  destruct (Z.ltb_spec j width).
  - destruct (Z.leb_spec pos (j + pos)); [|lia].
    destruct (Z.ltb_spec (j + pos) (pos + width)); [|lia].
    cbn [andb negb]. now rewrite andb_false_r, andb_true_r.
  - rewrite andb_false_r. symmetry. now apply (small_bits x width).
Qed.

Lemma field_put_other (pos width x n pos' width' : Z) :
  0 <= pos -> 0 <= width -> 0 <= x < 2 ^ width ->
  0 <= pos' -> 0 <= width' ->
  pos' + width' <= pos \/ pos + width <= pos' ->
  field (put pos width x n) pos' width' = field n pos' width'.
Proof.
  intros Hpos Hwidth Hx Hpos' Hwidth' Hdisjoint. apply Z.bits_inj'. intros j Hj.
  rewrite !testbit_field, testbit_put by lia. unfold in_field.
  destruct (Z.ltb_spec j width'); [|now rewrite !andb_false_r].
  rewrite !andb_true_r.
  assert (Hx0 : Z.testbit x (j + pos' - pos) = false).
  { destruct (Z.lt_ge_cases (j + pos' - pos) 0).
    - now apply Z.testbit_neg_r.
    - apply (small_bits x width); lia. }
  rewrite Hx0, orb_false_r.
  destruct (Z.leb_spec pos (j + pos')), (Z.ltb_spec (j + pos') (pos + width));
    try lia; cbn [andb negb]; now rewrite andb_true_r.
Qed.

Lemma put_same (pos width n : Z) :
  0 <= pos -> 0 <= width -> put pos width (field n pos width) n = n.
Proof.
  intros Hpos Hwidth. apply Z.bits_inj'. intros i Hi.
  rewrite testbit_put by lia. unfold in_field.
  destruct (Z.leb_spec pos i).
  - rewrite testbit_field by lia. replace (i - pos + pos) with i by lia.
    destruct (Z.ltb_spec i (pos + width)), (Z.ltb_spec (i - pos) width);
      try lia; cbn [andb negb]; destruct (Z.testbit n i); reflexivity.
  - rewrite (Z.testbit_neg_r _ (i - pos)) by lia.
    cbn [andb negb]. now rewrite andb_true_r, orb_false_r.
Qed.

Lemma put_range (pos width x n k : Z) :
  0 <= pos -> 0 <= width -> 0 <= x < 2 ^ width -> pos + width <= k ->
  0 <= n < 2 ^ k -> 0 <= put pos width x n < 2 ^ k.
Proof.
  intros Hpos Hwidth Hx Hk Hn.
  assert (Hnonneg : 0 <= put pos width x n).
  { unfold put. apply Z.lor_nonneg. split.
    - apply Z.land_nonneg. left. lia.
    - apply Z.shiftl_nonneg. lia. }
  split; [exact Hnonneg|]. apply bits_below; [exact Hnonneg|lia|].
  intros i Hi. rewrite testbit_put by lia.
  rewrite (small_bits n k) by (assumption || lia).
  rewrite (small_bits x width) by (assumption || lia). reflexivity.
Qed.

(** *** Setting the version *)

Lemma set_version_put (n v : Z) :
  set_version n v = put 76 4 v (put 62 2 2 n).
Proof. reflexivity. Qed.

Lemma set_version_range (n v : Z) :
  uuid_int n -> 1 <= v <= 5 -> uuid_int (set_version n v).
Proof.
  intros Hn Hv. rewrite set_version_put. unfold uuid_int.
  apply put_range; try lia. apply put_range; try lia. exact Hn.
Qed.

Lemma set_version_version (n v : Z) :
  1 <= v <= 5 -> uuid_version (set_version n v) = v.
Proof.
  intros Hv. rewrite set_version_put.
  change (uuid_version ?x) with (field x 76 4). apply field_put; lia.
Qed.

Lemma set_version_variant (n v : Z) :
  1 <= v <= 5 -> uuid_variant (set_version n v) = 2.
Proof.
  intros Hv. rewrite set_version_put.
  change (uuid_variant ?x) with (field x 62 2).
  rewrite field_put_other by lia. apply field_put; lia.
Qed.

Lemma set_version_same (n v : Z) :
  uuid_version n = v -> uuid_variant n = 2 -> set_version n v = n.
Proof.
  intros Hv Hvar. rewrite set_version_put.
  change (uuid_variant n) with (field n 62 2) in Hvar.
  change (uuid_version n) with (field n 76 4) in Hv.
  pose proof (put_same 62 2 n) as H1. rewrite Hvar in H1.
  pose proof (put_same 76 4 n) as H2. rewrite Hv in H2.
  rewrite H1 by lia. apply H2; lia.
Qed.

(** *** The constructor *)

Lemma scan_digits_raises (base : Z) (s : str) :
  forall after acc e, scan_digits base after acc s = Raise e -> e = ValueError.
Proof.
  induction s as [|c s IH]; intros after acc e; cbn [scan_digits].
  - destruct after; congruence.
  - destruct (char_eqb c underscore).
    + destruct after; [congruence|apply IH].
    + destruct (digit_value c) as [d|].
      * destruct (d <? base); [apply IH|destruct after; congruence].
      * destruct after; congruence.
Qed.

Lemma int_16_raises (s : str) (e : exn) : int_16 s = Raise e -> e = ValueError.
Proof.
  unfold int_16, PyLong_FromString_16.
  generalize (skip_spaces (transform_decimal_and_space s)). intros s0.
  destruct (match s0 with
            | [] => (1, s0)
            | c :: t => if (c =? 43)%N then (1, t)
                        else if (c =? 45)%N then (-1, t) else (1, s0)
            end) as [sign s1].
  match goal with |- context [startswith ?x [underscore]] => generalize x end.
  intros s2. destruct (startswith s2 [underscore]); [congruence|].
  destruct (scan_digits 16 false 0 s2) as [[value rest]|e'] eqn:E; cbn [bind].
  - destruct (Nat.eqb _ _); [congruence|].
    destruct (skip_spaces rest); congruence.
  - apply scan_digits_raises in E. congruence.
Qed.

(** The text as [uuid.UUID] reads it, before any version is set *)
Lemma UUID_version (hex : str) (version : Z) :
  UUID hex (Some version)
  = (int <- UUID hex None ;;
     if negb ((1 <=? version) && (version <=? 5)) then Raise ValueError
     else Ok (set_version int version)).
Proof.
  unfold UUID. destruct (negb (Nat.eqb _ 32)); [reflexivity|].
  destruct (int_16 _) as [int|e]; cbn [bind]; [|reflexivity].
  destruct (negb ((0 <=? int) && (int <? Z.shiftl 1 128))); reflexivity.
Qed.

Lemma UUID_range (hex : str) (n : Z) : UUID hex None = Ok n -> uuid_int n.
Proof.
  unfold UUID. destruct (negb (Nat.eqb _ 32)); [discriminate|].
  destruct (int_16 _) as [int|e]; cbn [bind]; [|discriminate].
  change (Z.shiftl 1 128) with (2 ^ 128).
  destruct (Z.leb_spec 0 int), (Z.ltb_spec int (2 ^ 128)); cbn [andb negb];
    try discriminate.
  intros [= <-]. split; assumption.
Qed.

Lemma UUID_raises (hex : str) (version : option Z) (e : exn) :
  UUID hex version = Raise e -> e = ValueError.
Proof.
  assert (Hnone : forall e, UUID hex None = Raise e -> e = ValueError).
  { intros e0. unfold UUID. destruct (negb (Nat.eqb _ 32)); [congruence|].
    destruct (int_16 _) as [int|e1] eqn:E; cbn [bind].
    - destruct (negb _); congruence.
    - apply int_16_raises in E. congruence. }
  destruct version as [version|]; [|apply Hnone].
  rewrite UUID_version. destruct (UUID hex None) as [int|e1]; cbn [bind].
  - destruct (negb _); congruence.
  - intros [= <-]. now apply Hnone.
Qed.

Lemma uuid_matches_built (id : str) (version : Z) :
  uuid_matches id version = true <->
  exists uuid_obj, UUID id (Some version) = Ok uuid_obj /\ uuid_str uuid_obj = id.
Proof.
  unfold uuid_matches. destruct (UUID id (Some version)) as [u|e].
  - rewrite str_eqb_eq. split.
    + intros H. now exists u.
    + intros (u' & [= <-] & H). exact H.
  - split; [discriminate|]. intros (u & H & _). discriminate.
Qed.

(** A text matches a version exactly when it is the text of a 128-bit
    integer with that version and the RFC 4122 variant. *)
Lemma uuid_matches_canonical (id : str) (version : Z) :
  uuid_matches id version = true <->
  1 <= version <= 5 /\
  exists n, uuid_int n /\ id = uuid_str n /\
            uuid_version n = version /\ uuid_variant n = 2.
Proof.
  rewrite uuid_matches_built. split.
  - intros (u & Hu & Hstr). rewrite UUID_version in Hu.
    destruct (UUID id None) as [m|] eqn:Hm; cbn [bind] in Hu; [|discriminate].
    destruct (Z.leb_spec 1 version), (Z.leb_spec version 5);
      cbn [andb negb] in Hu; try discriminate.
    injection Hu as <-. apply UUID_range in Hm.
    split; [lia|]. exists (set_version m version).
    split; [apply set_version_range; [assumption|lia]|].
    split; [now symmetry|].
    split; [apply set_version_version|apply set_version_variant]; lia.
  - intros (Hv & n & Hn & -> & Hversion & Hvariant).
    exists n. split; [|reflexivity].
    rewrite UUID_version, (UUID_uuid_str n Hn). cbn [bind].
    destruct (Z.leb_spec 1 version), (Z.leb_spec version 5); try lia.
    cbn [andb negb]. now rewrite set_version_same.
Qed.

Lemma uuid_str_inj (m n : Z) :
  uuid_int m -> uuid_int n -> uuid_str m = uuid_str n -> m = n.
Proof.
  intros Hm Hn Heq. pose proof (UUID_uuid_str m Hm) as H.
  rewrite Heq, (UUID_uuid_str n Hn) in H. congruence.
Qed.

(** *** The loop *)

Lemma get_uuid_version_find (id : str) :
  get_uuid_version id = Ok (find (uuid_matches id) SUPPORTED_UUID_VERSIONS).
Proof.
  unfold get_uuid_version. generalize SUPPORTED_UUID_VERSIONS.
  intros versions. induction versions as [|version versions IH]; [reflexivity|].
  cbn [for_return find]. unfold uuid_matches at 1.
  destruct (UUID id (Some version)) as [u|e] eqn:E.
  - destruct (str_eqb (uuid_str u) id); [reflexivity|exact IH].
  - apply UUID_raises in E. subst e. exact IH.
Qed.

Lemma get_uuid_version_canonical (n version : Z) :
  uuid_int n -> uuid_version n = version -> uuid_variant n = 2 ->
  In version SUPPORTED_UUID_VERSIONS ->
  get_uuid_version (uuid_str n) = Ok (Some version).
Proof.
  intros Hn Hversion Hvariant Hin. rewrite get_uuid_version_find. f_equal.
  assert (Hiff : forall w, uuid_matches (uuid_str n) w = true <-> w = version).
  { intros w. rewrite uuid_matches_canonical. split.
    - intros (_ & m & Hm & Heq & Hw & _).
      apply uuid_str_inj in Heq; [|assumption|assumption]. subst m. congruence.
    - intros ->. split.
      + unfold SUPPORTED_UUID_VERSIONS in Hin. simpl in Hin. lia.
      + exists n. auto. }
  destruct (find _ _) as [w|] eqn:E.
  - apply find_some in E. f_equal. now apply Hiff.
  - apply (find_none _ _ E) in Hin.
    assert (uuid_matches (uuid_str n) version = true) by now apply Hiff.
    congruence.
Qed.

Lemma get_uuid_version_none (id : str) :
  (forall n, uuid_int n -> id <> uuid_str n) -> get_uuid_version id = Ok None.
Proof.
  intros H. rewrite get_uuid_version_find. f_equal.
  destruct (find _ _) as [w|] eqn:E; [|reflexivity].
  apply find_some in E. destruct E as [_ E].
  apply uuid_matches_canonical in E. destruct E as (_ & n & Hn & Heq & _).
  now destruct (H n Hn).
Qed.

(** C2.  [get_uuid_version] tries the versions 1, 3, 4, 5 in this order
    and returns the first for which a UUID of that version can be built
    from the text and is written back as the same text, and [None] when
    there is none.  For the text of a 128-bit integer that has version 4
    and the RFC 4122 variant it returns 4: the UUIDs built for versions 1
    and 3 are written back as other texts.  For a text that is the text
    of no 128-bit integer it returns [None]. *)
Theorem get_uuid_version_spec :
  SUPPORTED_UUID_VERSIONS = [1; 3; 4; 5] /\
  (forall id,
     get_uuid_version id
     = Ok (if uuid_matches id 1 then Some 1
           else if uuid_matches id 3 then Some 3
           else if uuid_matches id 4 then Some 4
           else if uuid_matches id 5 then Some 5
           else None)) /\
  (forall id version,
     uuid_matches id version = true <->
     exists uuid_obj,
       UUID id (Some version) = Ok uuid_obj /\ uuid_str uuid_obj = id) /\
  (forall n,
     0 <= n < 2 ^ 128 -> uuid_version n = 4 -> uuid_variant n = 2 ->
     get_uuid_version (uuid_str n) = Ok (Some 4) /\
     (forall version,
        version = 1 \/ version = 3 ->
        exists uuid_obj,
          UUID (uuid_str n) (Some version) = Ok uuid_obj /\
          uuid_str uuid_obj <> uuid_str n)) /\
  (forall id,
     (forall n, 0 <= n < 2 ^ 128 -> id <> uuid_str n) ->
     get_uuid_version id = Ok None) /\
  get_uuid_version example_uuid4 = Ok (Some 4) /\
  get_uuid_version (py "c9bf9e58") = Ok None.
Proof.
  split; [reflexivity|].
  split; [intros id; apply get_uuid_version_find|].
  split; [exact uuid_matches_built|].
  split; [|split; [exact get_uuid_version_none|]].
  - intros n Hn Hversion Hvariant. split.
    + apply get_uuid_version_canonical; try assumption. simpl. tauto.
    + intros version Hv. exists (set_version n version).
      rewrite UUID_version, (UUID_uuid_str n Hn). cbn [bind].
      destruct (Z.leb_spec 1 version), (Z.leb_spec version 5); try lia.
      cbn [andb negb]. split; [reflexivity|].
      intros Heq. apply uuid_str_inj in Heq.
      * pose proof (set_version_version n version) as H1.
        rewrite Heq in H1. lia.
      * apply set_version_range; [exact Hn|lia].
      * exact Hn.
  - split; vm_compute; reflexivity.
Qed.

Lemma not_uuid_text (id : str) :
  UUID id None = Raise ValueError ->
  forall n, 0 <= n < 2 ^ 128 -> id <> uuid_str n.
Proof.
  intros Hid n Hn ->. rewrite (UUID_uuid_str n Hn) in Hid. discriminate.
Qed.

Lemma get_uuid_version_spec_witness :
  get_uuid_version (uuid_str example_uuid4_int) = Ok (Some 4) /\
  (exists uuid_obj,
     UUID (uuid_str example_uuid4_int) (Some 1) = Ok uuid_obj /\
     uuid_str uuid_obj <> uuid_str example_uuid4_int) /\
  get_uuid_version (py "not-a-uuid") = Ok None.
Proof.
  destruct get_uuid_version_spec as (_ & _ & _ & Hv4 & Hnone & _).
  destruct (Hv4 example_uuid4_int) as (Hfour & Hearlier).
  { unfold example_uuid4_int. lia. }
  { vm_compute. reflexivity. }
  { vm_compute. reflexivity. }
  split; [exact Hfour|]. split.
  - apply Hearlier. now left.
  - apply Hnone. apply not_uuid_text. vm_compute. reflexivity.
Defined.

(** C7.  [is_valid_uuid] returns [False] for [None] and for the empty
    string.  With no version it tells whether [get_uuid_version] finds a
    version, which is then one of 1, 3, 4, 5.  With a version it tells
    whether a UUID of that version can be built from the text and is
    written back as the same text.  The documented examples come out as
    stated. *)
Theorem is_valid_uuid_spec :
  (forall version,
     is_valid_uuid None version = Ok false /\
     is_valid_uuid (Some []) version = Ok false) /\
  (forall id,
     id <> [] ->
     exists found,
       get_uuid_version id = Ok found /\
       is_valid_uuid (Some id) None
       = Ok (match found with Some _ => true | None => false end) /\
       (forall version, found = Some version -> In version [1; 3; 4; 5])) /\
  (forall id version,
     id <> [] ->
     exists valid,
       is_valid_uuid (Some id) (Some version) = Ok valid /\
       (valid = true <->
        exists uuid_obj,
          UUID id (Some version) = Ok uuid_obj /\ uuid_str uuid_obj = id)) /\
  is_valid_uuid (Some example_uuid4) None = Ok true /\
  is_valid_uuid (Some (py "c9bf9e58")) None = Ok false.
Proof.
  split; [intros version; split; reflexivity|].
  split; [|split].
  - intros id Hid. exists (find (uuid_matches id) SUPPORTED_UUID_VERSIONS).
    split; [apply get_uuid_version_find|]. split.
    + destruct id as [|c id]; [congruence|].
      cbn [is_valid_uuid]. rewrite get_uuid_version_find. reflexivity.
    + intros version Hfound. apply find_some in Hfound. apply Hfound.
  - intros id version Hid. exists (uuid_matches id version). split.
    + destruct id as [|c id]; [congruence|].
      cbn [is_valid_uuid]. unfold uuid_matches.
      destruct (UUID (c :: id) (Some version)) as [u|e] eqn:E; [reflexivity|].
      apply UUID_raises in E. subst e. reflexivity.
    + apply uuid_matches_built.
  - split; vm_compute; reflexivity.
Qed.

Lemma is_valid_uuid_spec_witness :
  is_valid_uuid (Some example_uuid4) (Some 4) = Ok true /\
  is_valid_uuid (Some example_uuid4) (Some 1) = Ok false /\
  is_valid_uuid (Some (py "c9bf9e58")) None = Ok false.
Proof.
  destruct is_valid_uuid_spec as (_ & Hany & Hversion & _).
  split; [|split].
  - destruct (Hversion example_uuid4 4) as (valid & Hvalid & Hiff).
    { discriminate. }
    etransitivity; [exact Hvalid|]. f_equal. apply Hiff.
    exists example_uuid4_int. split; vm_compute; reflexivity.
  - destruct (Hversion example_uuid4 1) as (valid & Hvalid & Hiff).
    { discriminate. }
    etransitivity; [exact Hvalid|]. f_equal. destruct valid; [|reflexivity].
    destruct (proj1 Hiff eq_refl) as (u & Hu & Hstr).
    vm_compute in Hu. injection Hu as <-. vm_compute in Hstr. discriminate Hstr.
  - destruct (Hany (py "c9bf9e58")) as (found & Hfound & Hvalid & _).
    { discriminate. }
    etransitivity; [exact Hvalid|].
    vm_compute in Hfound. injection Hfound as <-. reflexivity.
Defined.

(** * Further properties *)

(** ** Case conversion *)

Lemma ascii_forall (P : N -> bool) :
  forallb P ascii_codes = true -> forall c, (c < 128)%N -> P c = true.
Proof.
  intros H c Hc. rewrite forallb_forall in H. apply H. now apply ascii_code_in.
Qed.

Lemma ascii_lower_ascii (c d : char) :
  (c < 128)%N -> In d (lower c) -> isupper d = false /\ (d < 128)%N.
Proof.
  intros Hc Hd.
  pose proof (ascii_forall
                (fun c => forallb (fun d => negb (isupper d) && (d <? 128)%N)
                            (lower c))) as H.
  specialize (H ltac:(vm_compute; reflexivity) c Hc). cbv beta in H.
  rewrite forallb_forall in H. specialize (H d Hd).
  apply andb_true_iff in H. destruct H as [H1 H2].
  split; [now apply negb_true_iff|now apply N.ltb_lt].
Qed.

Lemma ascii_not_upper_lower (c : char) :
  (c < 128)%N -> isupper c = false -> lower c = [c].
Proof.
  intros Hc Hup.
  pose proof (ascii_forall (fun c => isupper c || str_eqb (lower c) [c])) as H.
  specialize (H ltac:(vm_compute; reflexivity) c Hc). cbv beta in H.
  rewrite Hup in H. now apply str_eqb_eq.
Qed.

Lemma ascii_upper_facts (c : char) :
  ascii_upper c = true ->
  isupper c = true /\ islower c = false /\ lower c = [ascii_to_lower c] /\
  (c < 128)%N.
Proof.
  intros Hc.
  assert (H128 : (c < 128)%N).
  { unfold ascii_upper in Hc. apply andb_true_iff in Hc.
    rewrite !N.leb_le in Hc. lia. }
  pose proof (ascii_forall
                (fun c => negb (ascii_upper c) ||
                          (isupper c && negb (islower c) &&
                           str_eqb (lower c) [ascii_to_lower c]))) as H.
  specialize (H ltac:(vm_compute; reflexivity) c H128). cbv beta in H.
  rewrite Hc in H. cbn [negb orb] in H.
  apply andb_true_iff in H. destruct H as [H H3].
  apply andb_true_iff in H. destruct H as [H1 H2].
  repeat split; try assumption.
  - now apply negb_true_iff.
  - now apply str_eqb_eq.
Qed.

Lemma ascii_word_facts (c : char) :
  ascii_word c = true ->
  isupper c = false /\ isalnum c = true /\ lower c = [c] /\
  char_eqb c underscore = false /\ (c < 128)%N.
Proof.
  intros Hc.
  assert (H128 : (c < 128)%N).
  { unfold ascii_word, ascii_lower in Hc. apply orb_true_iff in Hc.
    rewrite !andb_true_iff, !N.leb_le in Hc. lia. }
  pose proof (ascii_forall
                (fun c => negb (ascii_word c) ||
                          (negb (isupper c) && isalnum c &&
                           str_eqb (lower c) [c] &&
                           negb (char_eqb c underscore)))) as H.
  specialize (H ltac:(vm_compute; reflexivity) c H128). cbv beta in H.
  rewrite Hc in H. cbn [negb orb] in H.
  repeat (apply andb_true_iff in H; destruct H as [H ?]).
  repeat split; try assumption.
  - now apply negb_true_iff.
  - now apply str_eqb_eq.
  - now apply negb_true_iff.
Qed.

Lemma ascii_lower_islower (c : char) : ascii_lower c = true -> islower c = true.
Proof.
  intros Hc.
  assert (H128 : (c < 128)%N).
  { unfold ascii_lower in Hc. apply andb_true_iff in Hc.
    rewrite !N.leb_le in Hc. lia. }
  pose proof (ascii_forall (fun c => negb (ascii_lower c) || islower c)) as H.
  specialize (H ltac:(vm_compute; reflexivity) c H128). cbv beta in H.
  now rewrite Hc in H.
Qed.

Lemma snake_scan_from_without (rest : str) :
  forall out prev,
    without_underscores (snake_scan_from out prev rest)
    = without_underscores out ++ without_underscores (flat_map lower rest).
Proof.
  unfold without_underscores.
  induction rest as [|curr rest IH]; intros out prev.
  - simpl. now rewrite app_nil_r.
  - cbn [snake_scan_from flat_map]. rewrite IH, !filter_app.
    destruct (_ && _); [|now rewrite app_assoc].
    rewrite filter_app. cbn [filter]. unfold char_eqb at 1.
    rewrite N.eqb_refl. cbn [negb]. now rewrite app_nil_r, app_assoc.
Qed.

(** X1.  The conversion lower-cases and adds underscores, nothing else:
    with the underscores taken out, the result is the lower-cased input
    with its underscores taken out. *)
Theorem to_snake_case_only_adds_underscores :
  forall s : str,
    exists t,
      to_snake_case s = Ok t /\
      without_underscores t = without_underscores (flat_map lower s).
Proof.
  intros s. exists (snake_scan s). split; [apply to_snake_case_eq|].
  destruct s as [|first rest]; [reflexivity|].
  unfold snake_scan. rewrite snake_scan_from_without.
  unfold without_underscores. cbn [flat_map]. now rewrite filter_app.
Qed.

(** X2.  On an ASCII string the result is ASCII and holds no uppercase
    character. *)
Theorem to_snake_case_ascii_lowercase :
  forall s : str,
    (forall c, In c s -> (c < 128)%N) ->
    exists t,
      to_snake_case s = Ok t /\
      forall d, In d t -> isupper d = false /\ (d < 128)%N.
Proof.
  intros s Hs. exists (snake_scan s). split; [apply to_snake_case_eq|].
  apply Forall_forall. apply snake_scan_Forall.
  - split; vm_compute; reflexivity.
  - intros c Hc. apply Forall_forall. intros d Hd.
    eapply ascii_lower_ascii; eauto.
Qed.

Lemma to_snake_case_ascii_lowercase_witness :
  exists t,
    to_snake_case (py "getHTTPResponse2Code") = Ok t /\
    forall d, In d t -> isupper d = false /\ (d < 128)%N.
Proof.
  apply to_snake_case_ascii_lowercase. intros c Hc.
  assert (H : forallb (fun c => (c <? 128)%N) (py "getHTTPResponse2Code") = true)
    by (vm_compute; reflexivity).
  rewrite forallb_forall in H. apply N.ltb_lt, H, Hc.
Defined.

(** X3.  An ASCII string with no uppercase character is returned as it
    is: text that is already in snake case, digits and punctuation
    included, is not touched. *)
Theorem to_snake_case_keeps_snake_case :
  forall s : str,
    (forall c, In c s -> (c < 128)%N /\ isupper c = false) ->
    to_snake_case s = Ok s.
Proof.
  intros s Hs. rewrite to_snake_case_eq. f_equal.
  apply snake_scan_settled, Forall_forall. intros c Hc.
  destruct (Hs c Hc) as [H128 Hup]. split; [exact Hup|].
  now apply ascii_not_upper_lower.
Qed.

Lemma to_snake_case_keeps_snake_case_witness :
  to_snake_case (py "already_snake_case_2 ok!") = Ok (py "already_snake_case_2 ok!").
Proof.
  apply to_snake_case_keeps_snake_case. intros c Hc.
  assert (H : forallb (fun c => (c <? 128)%N && negb (isupper c))
                (py "already_snake_case_2 ok!") = true)
    by (vm_compute; reflexivity).
  rewrite forallb_forall in H. specialize (H c Hc).
  apply andb_true_iff in H. destruct H as [H1 H2].
  split; [now apply N.ltb_lt|now apply negb_true_iff].
Defined.

Lemma snake_scan_from_length (rest : str) :
  forall out prev,
    (length out + length (flat_map lower rest)
     <= length (snake_scan_from out prev rest)
     <= length out + length (flat_map lower rest) + length rest)%nat.
Proof.
  induction rest as [|curr rest IH]; intros out prev.
  - simpl. lia.
  - cbn [snake_scan_from flat_map length]. rewrite length_app.
    match goal with
    | |- context [snake_scan_from ?o curr rest] => specialize (IH o curr)
    end.
    rewrite length_app in IH.
    destruct (_ && _); [rewrite length_app in IH; simpl in IH|]; lia.
Qed.

(** X4.  At most one underscore is added for each character after the
    first.  For a string [s] that is not empty the result is at least as
    long as the lower-cased input and less than [len(s)] longer; when
    [s] is ASCII it has at least [len(s)] and less than [2 * len(s)]
    characters.  The empty string gives the empty string. *)
Theorem to_snake_case_length :
  to_snake_case [] = Ok [] /\
  forall s : str,
    s <> [] ->
    exists t,
      to_snake_case s = Ok t /\
      (length (flat_map lower s) <= length t)%nat /\
      (length t < length (flat_map lower s) + length s)%nat /\
      ((forall c, In c s -> (c < 128)%N) ->
       (length s <= length t)%nat /\ (length t < 2 * length s)%nat).
Proof.
  split; [reflexivity|].
  intros s Hs. exists (snake_scan s). split; [apply to_snake_case_eq|].
  assert (Hlen : (length (flat_map lower s) <= length (snake_scan s))%nat /\
                 (length (snake_scan s)
                  < length (flat_map lower s) + length s)%nat).
  { destruct s as [|first rest]; [congruence|].
    unfold snake_scan. cbn [flat_map length].
    pose proof (snake_scan_from_length rest (lower first) first) as H.
    rewrite length_app. lia. }
  split; [exact (proj1 Hlen)|]. split; [exact (proj2 Hlen)|]. intros Hascii.
  assert (Hlower : length (flat_map lower s) = length s).
  { clear Hlen Hs. induction s as [|c s IH]; [reflexivity|].
    cbn [flat_map length]. rewrite length_app, IH.
    - assert (Hc : (c < 128)%N) by (apply Hascii; now left).
      pose proof (ascii_forall
                    (fun c => Nat.eqb (length (lower c)) 1)
                    ltac:(vm_compute; reflexivity) c Hc) as H1.
      cbv beta in H1.
      apply Nat.eqb_eq in H1. lia.
    - intros c' Hc'. apply Hascii. now right. }
  rewrite Hlower in Hlen. lia.
Qed.

Lemma to_snake_case_length_witness :
  exists t,
    to_snake_case (py "aBcD") = Ok t /\ (4 <= length t)%nat /\
    (length t < 8)%nat.
Proof.
  destruct (proj2 to_snake_case_length (py "aBcD")) as (t & Ht & _ & _ & Hascii).
  { discriminate. }
  exists t. split; [exact Ht|]. apply Hascii. intros c Hc.
  assert (H : forallb (fun c => (c <? 128)%N) (py "aBcD") = true)
    by (vm_compute; reflexivity).
  rewrite forallb_forall in H. apply N.ltb_lt, H, Hc.
Defined.

Lemma last_cons {A} (c : A) (l : list A) (d : A) : last (c :: l) d = last l c.
Proof.
  revert c d. induction l as [|x l IH]; intros c d; [reflexivity|].
  change (last (c :: x :: l) d) with (last (x :: l) d). now rewrite !IH.
Qed.

Lemma last_in {A} (l : list A) (d : A) : l <> [] -> In (last l d) l.
Proof.
  induction l as [|x l IH]; [congruence|]. intros _.
  destruct l as [|y l]; [now left|]. right. apply IH. discriminate.
Qed.

Lemma ends_with_underscore_last (s : str) (d : char) :
  s <> [] -> ends_with_underscore s = char_eqb (last s d) underscore.
Proof.
  intros Hs. rewrite (app_removelast_last d Hs) at 1.
  unfold ends_with_underscore. rewrite rev_app_distr. reflexivity.
Qed.

Lemma snake_scan_from_settled_app (u rest : str) :
  Forall settled u ->
  forall out prev,
    snake_scan_from out prev (u ++ rest)
    = snake_scan_from (out ++ u) (last u prev) rest.
Proof.
  induction 1 as [|c u [Hup Hlow] _ IH]; intros out prev.
  - simpl. now rewrite app_nil_r.
  - cbn [app snake_scan_from]. unfold wants_underscore. rewrite Hup, Hlow.
    cbn [andb]. rewrite IH, <- app_assoc, last_cons. reflexivity.
Qed.

Lemma ascii_word_settled (u : str) :
  Forall (fun c => ascii_word c = true) u -> Forall settled u.
Proof.
  intros H. eapply Forall_impl; [|exact H]. intros c Hc.
  destruct (ascii_word_facts c Hc) as (Hup & _ & Hlow & _). now split.
Qed.

Lemma snake_scan_from_cons (out : str) (prev curr : char) (rest : str) :
  snake_scan_from out prev (curr :: rest)
  = snake_scan_from
      ((if wants_underscore prev curr (hd_error rest) &&
           negb (ends_with_underscore out)
        then out ++ [underscore] else out) ++ lower curr) curr rest.
Proof. reflexivity. Qed.

Lemma snake_scan_from_upper_run (run rest : str) :
  Forall (fun c => ascii_upper c = true) run ->
  match rest with next :: _ => islower next = false | [] => True end ->
  forall out prev,
    isupper prev = true ->
    snake_scan_from out prev (run ++ rest)
    = snake_scan_from (out ++ map ascii_to_lower run) (last run prev) rest.
Proof.
  intros Hrun Hrest. induction Hrun as [|curr run Hcurr Hrun IH]; intros out prev Hprev.
  - simpl. now rewrite app_nil_r.
  - destruct (ascii_upper_facts curr Hcurr) as (Hup & _ & Hlow & _).
    cbn [app snake_scan_from map]. unfold wants_underscore.
    rewrite Hup, Hprev, Hlow. cbn [negb]. rewrite andb_false_r. cbn [orb].
    assert (Hnext : match hd_error (run ++ rest) with
                    | Some n => islower n
                    | None => false
                    end = false).
    { destruct Hrun as [|next run Hnext _].
      - simpl. destruct rest; [reflexivity|exact Hrest].
      - simpl. now destruct (ascii_upper_facts next Hnext) as (_ & ? & _). }
    rewrite Hnext. cbn [andb]. rewrite IH by exact Hup.
    now rewrite <- app_assoc, last_cons.
Qed.

(** X5.  A string of ASCII capitals is one word: it is lower-cased and
    no underscore is added. *)
Theorem to_snake_case_capitals :
  forall s : str,
    Forall (fun c => ascii_upper c = true) s ->
    to_snake_case s = Ok (map ascii_to_lower s).
Proof.
  intros s Hs. rewrite to_snake_case_eq. f_equal.
  destruct Hs as [|first run Hfirst Hrun]; [reflexivity|].
  destruct (ascii_upper_facts first Hfirst) as (Hup & _ & Hlow & _).
  unfold snake_scan. rewrite Hlow.
  rewrite <- (app_nil_r run) at 1.
  rewrite (snake_scan_from_upper_run run [] Hrun I _ _ Hup). reflexivity.
Qed.

Lemma to_snake_case_capitals_witness :
  to_snake_case (py "HTTP") = Ok (py "http").
Proof.
  apply (to_snake_case_capitals (py "HTTP")).
  apply Forall_forall. intros c Hc.
  assert (H : forallb ascii_upper (py "HTTP") = true) by (vm_compute; reflexivity).
  rewrite forallb_forall in H. now apply H.
Defined.

(** X6.  A word of ASCII lowercase letters and digits followed by a
    capital and more such characters is split before the capital:
    [word] [C] [rest] becomes [word] [_] [c] [rest]. *)
Theorem to_snake_case_camel_boundary :
  forall (word : str) (capital : char) (rest : str),
    word <> [] ->
    Forall (fun c => ascii_word c = true) word ->
    ascii_upper capital = true ->
    Forall (fun c => ascii_word c = true) rest ->
    to_snake_case (word ++ capital :: rest)
    = Ok (word ++ underscore :: ascii_to_lower capital :: rest).
Proof.
  intros word capital rest Hne Hword Hcap Hrest.
  rewrite to_snake_case_eq. f_equal.
  destruct word as [|first word]; [congruence|].
  inversion Hword as [|? ? Hfirst Hword']; subst.
  destruct (ascii_word_facts first Hfirst) as (_ & _ & Hlow & _).
  destruct (ascii_upper_facts capital Hcap) as (Hup & _ & Hlowcap & _).
  cbn [app snake_scan]. rewrite Hlow.
  rewrite snake_scan_from_settled_app by now apply ascii_word_settled.
  cbn [snake_scan_from app].
  assert (Hlast : ascii_word (last word first) = true).
  { destruct word as [|c word]; [exact Hfirst|].
    rewrite Forall_forall in Hword'. apply Hword', last_in. discriminate. }
  destruct (ascii_word_facts _ Hlast) as (Hpup & Hpalnum & _ & Hpunder & _).
  unfold wants_underscore. rewrite Hup, Hpalnum, Hpup. cbn [negb andb orb].
  rewrite (ends_with_underscore_last (first :: word) first) by discriminate.
  rewrite last_cons, Hpunder. cbn [negb]. rewrite Hlowcap.
  rewrite snake_scan_from_settled by now apply ascii_word_settled.
  cbn [app]. rewrite <- !app_assoc. reflexivity.
Qed.

Lemma to_snake_case_camel_boundary_witness :
  to_snake_case (py "user2" ++ 78%N :: py "ame") = Ok (py "user2_name").
Proof.
  apply (to_snake_case_camel_boundary (py "user2") 78%N (py "ame")).
  - discriminate.
  - apply Forall_forall. intros c Hc.
    assert (H : forallb ascii_word (py "user2") = true)
      by (vm_compute; reflexivity).
    rewrite forallb_forall in H. now apply H.
  - vm_compute. reflexivity.
  - apply Forall_forall. intros c Hc.
    assert (H : forallb ascii_word (py "ame") = true)
      by (vm_compute; reflexivity).
    rewrite forallb_forall in H. now apply H.
Defined.

(** X7.  A run of ASCII capitals followed by a capital and a lowercase
    letter is split before that last capital: the run is an acronym and
    the capital starts the next word. *)
Theorem to_snake_case_acronym_boundary :
  forall (acronym : str) (capital letter : char) (rest : str),
    acronym <> [] ->
    Forall (fun c => ascii_upper c = true) acronym ->
    ascii_upper capital = true ->
    ascii_lower letter = true ->
    Forall (fun c => ascii_word c = true) rest ->
    to_snake_case (acronym ++ capital :: letter :: rest)
    = Ok (map ascii_to_lower acronym
          ++ underscore :: ascii_to_lower capital :: letter :: rest).
Proof.
  intros acronym capital letter rest Hne Hacr Hcap Hletter Hrest.
  rewrite to_snake_case_eq. f_equal.
  destruct acronym as [|first run]; [congruence|].
  inversion Hacr as [|? ? Hfirst Hrun]; subst.
  destruct (ascii_upper_facts first Hfirst) as (Hup & _ & Hlow & _).
  destruct (ascii_upper_facts capital Hcap) as (Hcup & Hclow & Hlowcap & _).
  assert (Hword : Forall (fun c => ascii_word c = true) (letter :: rest)).
  { constructor; [|exact Hrest]. unfold ascii_word. now rewrite Hletter. }
  cbn [app snake_scan map]. rewrite Hlow.
  rewrite (snake_scan_from_upper_run run (capital :: letter :: rest) Hrun Hclow
             _ _ Hup).
  rewrite snake_scan_from_cons. cbn [hd_error].
  assert (Hlast : ascii_upper (last run first) = true).
  { destruct run as [|c run]; [exact Hfirst|].
    rewrite Forall_forall in Hrun. apply Hrun, last_in. discriminate. }
  destruct (ascii_upper_facts _ Hlast) as (Hpup & _).
  unfold wants_underscore.
  rewrite Hcup, Hpup, (ascii_lower_islower letter Hletter).
  cbn [negb andb orb]. rewrite andb_false_r. cbn [orb andb].
  assert (Hends : ends_with_underscore
                    ([ascii_to_lower first] ++ map ascii_to_lower run) = false).
  { change ([ascii_to_lower first] ++ map ascii_to_lower run)
      with (map ascii_to_lower (first :: run)).
    rewrite (ends_with_underscore_last _ (ascii_to_lower first)) by discriminate.
    cbn [map]. rewrite last_cons.
    assert (Hin : In (last (map ascii_to_lower run) (ascii_to_lower first))
                     (map ascii_to_lower (first :: run))).
    { destruct run as [|c run]; [now left|].
      right. apply last_in. discriminate. }
    apply in_map_iff in Hin. destruct Hin as (c & <- & Hc).
    rewrite Forall_forall in Hacr. specialize (Hacr c Hc).
    unfold ascii_upper in Hacr. apply andb_true_iff in Hacr.
    rewrite !N.leb_le in Hacr. unfold char_eqb, ascii_to_lower, underscore.
    apply N.eqb_neq. lia. }
  rewrite Hends. cbn [negb]. rewrite Hlowcap.
  rewrite snake_scan_from_settled by now apply ascii_word_settled.
  cbn [app]. rewrite <- !app_assoc. reflexivity.
Qed.

Lemma to_snake_case_acronym_boundary_witness :
  to_snake_case (py "XML" ++ 72%N :: 116%N :: py "tp") = Ok (py "xml_http").
Proof.
  apply (to_snake_case_acronym_boundary (py "XML") 72%N 116%N (py "tp")).
  - discriminate.
  - apply Forall_forall. intros c Hc.
    assert (H : forallb ascii_upper (py "XML") = true)
      by (vm_compute; reflexivity).
    rewrite forallb_forall in H. now apply H.
  - vm_compute. reflexivity.
  - vm_compute. reflexivity.
  - apply Forall_forall. intros c Hc.
    assert (H : forallb ascii_word (py "tp") = true)
      by (vm_compute; reflexivity).
    rewrite forallb_forall in H. now apply H.
Defined.

Lemma has_double_underscore_app (x y : str) :
  has_double_underscore (x ++ y)
  = has_double_underscore x || has_double_underscore y
    || (ends_with_underscore x && starts_with_underscore y).
Proof.
  induction x as [|a x IH]; [simpl; now rewrite orb_false_r|].
  destruct x as [|b x].
  - cbn [app has_double_underscore]. unfold ends_with_underscore. cbn [rev app].
    destruct y as [|c y]; cbn [starts_with_underscore].
    + now rewrite andb_false_r.
    + cbn [orb]. apply orb_comm.
  - change ((a :: b :: x) ++ y) with (a :: b :: x ++ y).
    change (has_double_underscore (a :: b :: x ++ y))
      with ((char_eqb a underscore && char_eqb b underscore)
            || has_double_underscore ((b :: x) ++ y)).
    rewrite IH.
    change (has_double_underscore (a :: b :: x))
      with ((char_eqb a underscore && char_eqb b underscore)
            || has_double_underscore (b :: x)).
    change (a :: b :: x) with ([a] ++ b :: x).
    rewrite (ends_with_underscore_app [a] (b :: x)) by discriminate.
    now rewrite !orb_assoc.
Qed.

Lemma no_underscore_shape (l : str) :
  Forall (fun d => char_eqb d underscore = false) l ->
  has_double_underscore l = false /\
  ends_with_underscore l = false /\ starts_with_underscore l = false.
Proof.
  intros H. split; [|split].
  - induction H as [|a t Ha Ht IH]; [reflexivity|].
    destruct t as [|b t]; [reflexivity|].
    change (has_double_underscore (a :: b :: t))
      with ((char_eqb a underscore && char_eqb b underscore)
            || has_double_underscore (b :: t)).
    now rewrite Ha, IH.
  - unfold ends_with_underscore. apply Forall_rev in H.
    destruct H as [|a t Ha _]; [reflexivity|exact Ha].
  - destruct H as [|a t Ha _]; [reflexivity|exact Ha].
Qed.

Lemma lower_images_not_underscore :
  forallb (fun d => negb (char_eqb d underscore))
    (flat_map run_images lower_map) = true /\
  forallb (fun kv => forallb (fun d => negb (char_eqb d underscore)) (snd kv))
    lower_special = true.
Proof. split; vm_compute; reflexivity. Qed.

(** Only the underscore has an underscore in its lower-cased form. *)
Lemma lower_no_underscore (c : char) :
  char_eqb c underscore = false ->
  Forall (fun d => char_eqb d underscore = false) (lower c).
Proof.
  intros Hc. destruct lower_images_not_underscore as [Hruns Hspecial].
  unfold lower. destruct (Unicode.lookup_special c lower_special) eqn:E.
  - apply lookup_special_in in E. rewrite forallb_forall in Hspecial.
    specialize (Hspecial _ E). cbn [snd] in Hspecial.
    rewrite forallb_forall in Hspecial. apply Forall_forall.
    intros d Hd. now apply negb_true_iff, Hspecial.
  - destruct (Unicode.lookup_run c lower_map) eqn:E'.
    + apply lookup_run_image in E'. rewrite forallb_forall in Hruns.
      constructor; [|constructor]. now apply negb_true_iff, Hruns.
    + now constructor.
Qed.

Lemma lower_underscore_shape (c : char) :
  lower c <> [] /\
  has_double_underscore (lower c) = false /\
  ends_with_underscore (lower c) = char_eqb c underscore /\
  starts_with_underscore (lower c) = char_eqb c underscore.
Proof.
  split; [apply lower_piece|].
  destruct (char_eqb c underscore) eqn:Hc.
  - unfold char_eqb in Hc. apply N.eqb_eq in Hc. subst c.
    repeat split; vm_compute; reflexivity.
  - now apply no_underscore_shape, lower_no_underscore.
Qed.

Lemma snake_scan_from_no_double (rest : str) :
  forall out prev,
    has_double_underscore out = false ->
    ends_with_underscore out = char_eqb prev underscore ->
    has_double_underscore (prev :: rest) = false ->
    has_double_underscore (snake_scan_from out prev rest) = false.
Proof.
  induction rest as [|curr rest IH]; intros out prev Hout Hends Hin.
  - exact Hout.
  - rewrite snake_scan_from_cons.
    destruct (lower_underscore_shape curr) as (Hne & Hdouble & Hend & Hstart).
    change (has_double_underscore (prev :: curr :: rest))
      with ((char_eqb prev underscore && char_eqb curr underscore)
            || has_double_underscore (curr :: rest)) in Hin.
    apply orb_false_iff in Hin. destruct Hin as [Hpair Hrest].
    apply IH; [| |exact Hrest].
    + rewrite has_double_underscore_app, Hdouble, Hstart.
      destruct (wants_underscore prev curr (hd_error rest)
                && negb (ends_with_underscore out)) eqn:Hins.
      * apply andb_true_iff in Hins. destruct Hins as [Hwants Hnot].
        apply negb_true_iff in Hnot.
        assert (Hc : char_eqb curr underscore = false).
        { unfold wants_underscore in Hwants. apply andb_true_iff in Hwants.
          destruct Hwants as [Hup _].
          destruct (char_eqb curr underscore) eqn:E; [|reflexivity].
          unfold char_eqb in E. apply N.eqb_eq in E. subst curr.
          vm_compute in Hup. discriminate. }
        rewrite Hc, andb_false_r, has_double_underscore_app, Hout, Hnot.
        reflexivity.
      * now rewrite Hout, Hends, Hpair.
    + now rewrite ends_with_underscore_app.
Qed.

(** X8.  The conversion never makes a double underscore: when the input
    has no two underscores in a row, neither has the result. *)
Theorem to_snake_case_no_double_underscore :
  forall s : str,
    has_double_underscore s = false ->
    exists t, to_snake_case s = Ok t /\ has_double_underscore t = false.
Proof.
  intros s Hs. exists (snake_scan s). split; [apply to_snake_case_eq|].
  destruct s as [|first rest]; [reflexivity|].
  destruct (lower_underscore_shape first) as (_ & Hdouble & Hend & _).
  unfold snake_scan. now apply snake_scan_from_no_double.
Qed.

Lemma to_snake_case_no_double_underscore_witness :
  exists t,
    to_snake_case (py "my_HTTPServer_Name") = Ok t /\
    has_double_underscore t = false.
Proof.
  apply to_snake_case_no_double_underscore. vm_compute. reflexivity.
Defined.

(** ** Dictionary keys *)

Lemma dict_set_fresh {V} (d : list (str * V)) (k : str) (v : V) :
  ~ In k (dict_keys d) -> dict_set d k v = d ++ [(k, v)].
Proof.
  unfold dict_keys. induction d as [|[k0 v0] d IH]; intros H; [reflexivity|].
  simpl in *. destruct (str_eqb_spec k0 k) as [->|_]; [tauto|].
  f_equal. apply IH. tauto.
Qed.

Lemma dict_update_fresh {V} (items d : list (str * V)) :
  NoDup (dict_keys d ++ dict_keys items) -> dict_update d items = d ++ items.
Proof.
  unfold dict_keys. revert d.
  induction items as [|[k v] items IH]; intros d H.
  - simpl. now rewrite app_nil_r.
  - unfold dict_update. cbn [fold_left fst snd]. fold (dict_update (dict_set d k v) items).
    cbn [map fst] in H.
    assert (Hk : ~ In k (dict_keys d)).
    { apply NoDup_remove_2 in H. intros Hin. apply H, in_or_app. now left. }
    rewrite (dict_set_fresh d k v Hk), IH.
    + now rewrite <- app_assoc.
    + rewrite map_app. cbn [map fst]. now rewrite <- app_assoc.
Qed.

Lemma dict_of_items_NoDup {V} (items : list (str * V)) :
  NoDup (dict_keys items) -> dict_of_items items = items.
Proof. intros H. apply (dict_update_fresh items []). exact H. Qed.

Lemma dict_set_length {V} (d : list (str * V)) (k : str) (v : V) :
  (length (dict_set d k v) <= S (length d))%nat.
Proof.
  induction d as [|[k0 v0] d IH]; simpl; [lia|].
  destruct (str_eqb k0 k); simpl; lia.
Qed.

Lemma dict_update_length {V} (items d : list (str * V)) :
  (length (dict_update d items) <= length d + length items)%nat.
Proof.
  revert d. induction items as [|[k v] items IH]; intros d; [simpl; lia|].
  unfold dict_update. cbn [fold_left fst snd].
  fold (dict_update (dict_set d k v) items).
  specialize (IH (dict_set d k v)). pose proof (dict_set_length d k v).
  simpl. lia.
Qed.

Lemma dict_set_in {V} (d : list (str * V)) (k : str) (v : V) (kv : str * V) :
  In kv (dict_set d k v) -> In kv d \/ kv = (k, v).
Proof.
  induction d as [|[k0 v0] d IH]; simpl.
  - intros [<-|[]]. now right.
  - destruct (str_eqb_spec k0 k) as [->|_]; simpl.
    + intros [<-|H]; [now right|left; now right].
    + intros [<-|H]; [left; now left|]. destruct (IH H); [left; now right|now right].
Qed.

Lemma dict_update_in {V} (items d : list (str * V)) (kv : str * V) :
  In kv (dict_update d items) -> In kv d \/ In kv items.
Proof.
  revert d. induction items as [|[k v] items IH]; intros d; [now left|].
  unfold dict_update. cbn [fold_left fst snd].
  fold (dict_update (dict_set d k v) items). intros H.
  destruct (IH _ H) as [H'|H']; [|right; now right].
  destruct (dict_set_in _ _ _ _ H') as [H''| ->]; [now left|right; now left].
Qed.

(** X9.  When the conversion of a mapping returns, it returns a mapping
    that has not gained items, and when no two keys of the input convert
    to the same text it keeps all of them in their order: item by item,
    the key is converted and the value is converted.  It returns
    whenever the frames are enough for the nesting of the mapping, with
    [spare_frames] in reserve. *)
Theorem convert_dict_keys_keeps_order :
  forall (frames : nat) (items : list (str * pyval)),
    (forall converted,
       convert_dict_keys_to_snake_case frames (PDict items) = Ok converted ->
       exists items',
         converted = PDict items' /\
         (length items' <= length items)%nat /\
         (NoDup (map (fun kv => to_snake_case (fst kv)) items) ->
          Forall2
            (fun kv kv' =>
               to_snake_case (fst kv) = Ok (fst kv') /\
               convert_dict_keys_to_snake_case frames (snd kv) = Ok (snd kv'))
            items items')) /\
    ((frames_needed (PDict items) + spare_frames <= frames)%nat ->
     exists converted,
       convert_dict_keys_to_snake_case frames (PDict items) = Ok converted).
Proof.
  intros frames items. split.
  - intros converted Hconv.
    apply convert_returned in Hconv. destruct Hconv as [-> Hframes].
    exists (dict_of_items (map convert_item items)).
    split; [reflexivity|]. split.
    + pose proof (dict_update_length (map convert_item items) []) as H.
      rewrite length_map in H. exact H.
    + intros Hdistinct. rewrite dict_of_items_NoDup.
      * clear Hdistinct.
        assert (Hitems : forall kv, In kv items ->
                           (frames_needed (snd kv) <= frames)%nat).
        { intros [k v] Hin. pose proof (frames_needed_item k v items Hin).
          cbn [snd]. lia. }
        clear Hframes.
        induction items as [|kv items IH]; constructor.
        -- split; [apply to_snake_case_eq|].
           apply convert_enough, Hitems. now left.
        -- apply IH. intros kv' Hin. apply Hitems. now right.
      * unfold dict_keys. rewrite map_map. cbn [convert_item fst].
        assert (Hmap : map (fun kv : str * pyval => to_snake_case (fst kv)) items
                       = map Ok (map (fun kv => snake_scan (fst kv)) items)).
        { rewrite map_map. apply map_ext. intros kv. apply to_snake_case_eq. }
        rewrite Hmap in Hdistinct. eapply NoDup_map_inv; eauto.
  - intros Hframes. eexists. apply convert_enough. lia.
Qed.

Lemma convert_dict_keys_keeps_order_witness :
  exists items',
    convert_dict_keys_to_snake_case 1000
      (PDict [(py "zKey", PInt 1); (py "aKey", PInt 2)]) = Ok (PDict items') /\
    Forall2
      (fun kv kv' =>
         to_snake_case (fst kv) = Ok (fst kv') /\
         convert_dict_keys_to_snake_case 1000 (snd kv) = Ok (snd kv'))
      [(py "zKey", PInt 1); (py "aKey", PInt 2)] items'.
Proof.
  destruct (convert_dict_keys_keeps_order 1000
              [(py "zKey", PInt 1); (py "aKey", PInt 2)])
    as (Hreturned & Hreturns).
  destruct Hreturns as (converted & Hconv).
  { vm_compute. lia. }
  destruct (Hreturned converted Hconv) as (items' & -> & _ & Horder).
  exists items'. split; [exact Hconv|]. apply Horder.
  vm_compute. repeat constructor; simpl; intuition discriminate.
Defined.

Lemma snake_keys_idem (data : pyval) :
  ascii_keys data = true -> snake_keys (snake_keys data) = snake_keys data.
Proof.
  induction data as [ | | | | | | | items IH | ] using pyval_induction;
    try reflexivity.
  intros Hascii. cbn [ascii_keys] in Hascii. rewrite forallb_forall in Hascii.
  cbn [snake_keys]. f_equal. fold (convert_item).
  set (converted := dict_of_items (map convert_item items)).
  assert (Hfixed : map convert_item converted = converted).
  { rewrite <- (map_id converted) at 2. apply map_ext_in. intros kv Hkv.
    apply (dict_update_in (map convert_item items) []) in Hkv.
    destruct Hkv as [[]|Hkv]. apply in_map_iff in Hkv.
    destruct Hkv as ([k v] & <- & Hin).
    specialize (Hascii _ Hin). apply andb_true_iff in Hascii.
    destruct Hascii as [Hk Hv]. cbn [fst snd] in *.
    rewrite Forall_forall in IH. specialize (IH _ Hin Hv). cbn [snd] in IH.
    unfold convert_item. cbn [fst snd]. rewrite IH. f_equal.
    apply snake_scan_idem. intros c Hc d Hd.
    rewrite forallb_forall in Hk. specialize (Hk c Hc).
    apply N.ltb_lt in Hk. eapply ascii_lower_not_upper; eauto. }
  rewrite Hfixed. apply dict_of_items_NoDup.
  apply (dict_update_NoDup (map convert_item items) []). constructor.
Qed.

Lemma frames_needed_snake_keys (data : pyval) :
  (frames_needed (snake_keys data) <= frames_needed data)%nat.
Proof.
  induction data as [ | | | | | | | items IH | ] using pyval_induction;
    try (cbn; lia).
  cbn [snake_keys frames_needed]. fold convert_item.
  apply Nat.add_le_mono_l. apply list_max_le. apply Forall_forall.
  intros n Hn. apply in_map_iff in Hn. destruct Hn as (kv' & <- & Hkv').
  apply (dict_update_in (map convert_item items) []) in Hkv'.
  destruct Hkv' as [[]|Hkv']. apply in_map_iff in Hkv'.
  destruct Hkv' as ([k v] & <- & Hin). cbn [convert_item fst snd].
  rewrite Forall_forall in IH. specialize (IH _ Hin). cbn [snd] in IH.
  pose proof (proj1 (list_max_le
                       (map (fun kv => frames_needed (snd kv)) items) _)
                (Nat.le_refl _)) as Hall.
  rewrite Forall_forall in Hall.
  specialize (Hall (frames_needed v)
                (in_map (fun kv => frames_needed (snd kv)) items (k, v) Hin)).
  lia.
Qed.

(** X10.  Converting twice changes nothing more, for a value in which
    every key of every nested mapping is ASCII: the result of the
    conversion is converted to itself. *)
Theorem convert_dict_keys_idempotent :
  forall (frames : nat) (data converted : pyval),
    ascii_keys data = true ->
    convert_dict_keys_to_snake_case frames data = Ok converted ->
    convert_dict_keys_to_snake_case frames converted = Ok converted.
Proof.
  intros frames data converted Hascii Hconv.
  apply convert_returned in Hconv. destruct Hconv as [-> Hframes].
  rewrite convert_enough.
  - f_equal. now apply snake_keys_idem.
  - pose proof (frames_needed_snake_keys data). lia.
Qed.

Lemma convert_dict_keys_idempotent_witness :
  convert_dict_keys_to_snake_case 1000 example_person_converted
  = Ok example_person_converted.
Proof.
  apply (convert_dict_keys_idempotent 1000 example_person);
    vm_compute; reflexivity.
Defined.

(** ** UUIDs *)

Lemma is_valid_uuid_eq (id : str) (version : option Z) :
  id <> [] ->
  is_valid_uuid (Some id) version
  = Ok (match version with
        | None =>
            match find (uuid_matches id) SUPPORTED_UUID_VERSIONS with
            | Some _ => true
            | None => false
            end
        | Some v => uuid_matches id v
        end).
Proof.
  intros Hid. destruct id as [|c id]; [congruence|].
  destruct version as [v|]; cbn [is_valid_uuid].
  - unfold uuid_matches.
    destruct (UUID (c :: id) (Some v)) as [u|e] eqn:E; [reflexivity|].
    apply UUID_raises in E. now subst e.
  - now rewrite get_uuid_version_find.
Qed.

Lemma uuid_str_nonempty (n : Z) : uuid_str n <> [].
Proof.
  unfold uuid_str. destruct (firstn 8 (format_032x n)); discriminate.
Qed.

Lemma uuid_matches_iff (id : str) (version : Z) :
  uuid_matches id version = true <-> 1 <= version <= 5 /\ canonical_uuid id version.
Proof. apply uuid_matches_canonical. Qed.

Lemma get_uuid_version_some (id : str) (version : Z) :
  get_uuid_version id = Ok (Some version) <->
  In version [1; 3; 4; 5] /\ canonical_uuid id version.
Proof.
  rewrite get_uuid_version_find. split.
  - intros H.
    assert (H' : find (uuid_matches id) SUPPORTED_UUID_VERSIONS = Some version)
      by congruence.
    apply find_some in H'. destruct H' as [Hin H'].
    apply uuid_matches_iff in H'. now split.
  - intros (Hin & n & Hn & -> & Hversion & Hvariant).
    rewrite <- get_uuid_version_find.
    now apply get_uuid_version_canonical.
Qed.

(** X11.  [get_uuid_version] returns a version exactly for the canonical
    texts of that version: the text is the [str] of a 128-bit integer
    whose version field is that version, one of 1, 3, 4, 5, and whose
    variant is the one of RFC 4122. *)
Theorem get_uuid_version_exact :
  forall (id : str) (version : Z),
    get_uuid_version id = Ok (Some version) <->
    In version [1; 3; 4; 5] /\
    exists n, 0 <= n < 2 ^ 128 /\ id = uuid_str n /\
              uuid_version n = version /\ uuid_variant n = 2.
Proof. exact get_uuid_version_some. Qed.

Lemma get_uuid_version_exact_witness :
  In 4 [1; 3; 4; 5] /\
  exists n, 0 <= n < 2 ^ 128 /\ example_uuid4 = uuid_str n /\
            uuid_version n = 4 /\ uuid_variant n = 2.
Proof.
  apply (proj1 (get_uuid_version_exact example_uuid4 4)).
  vm_compute. reflexivity.
Defined.

Lemma is_valid_uuid_matches (id : str) (version : option Z) :
  is_valid_uuid (Some id) version = Ok true ->
  exists v, uuid_matches id v = true.
Proof.
  destruct id as [|c id]; [discriminate|].
  rewrite is_valid_uuid_eq by discriminate. destruct version as [v|].
  - intros [= H]. now exists v.
  - destruct (find _ _) as [v|] eqn:E; [|discriminate].
    intros _. exists v. now apply find_some in E.
Qed.

(** X12.  Only the canonical form is valid: a text [is_valid_uuid]
    accepts, with or without a version, has 36 characters, five groups of
    8, 4, 4, 4 and 12 digits from [0-9a-f] with hyphens between them.
    Capital digits, braces and a [urn:uuid:] prefix, which [uuid.UUID]
    reads, are refused. *)
Theorem is_valid_uuid_canonical_form :
  (forall (id : str) (version : option Z),
     is_valid_uuid (Some id) version = Ok true ->
     length id = 36%nat /\
     exists a b c d e,
       id = a ++ py "-" ++ b ++ py "-" ++ c ++ py "-" ++ d ++ py "-" ++ e /\
       length a = 8%nat /\ length b = 4%nat /\ length c = 4%nat /\
       length d = 4%nat /\ length e = 12%nat /\
       Forall (fun x => lower_hex x = true) (a ++ b ++ c ++ d ++ e)) /\
  UUID (py "C9BF9E57-1685-4C89-BAFB-FF5AF830BE8A") (Some 4)
  = Ok example_uuid4_int /\
  is_valid_uuid (Some (py "C9BF9E57-1685-4C89-BAFB-FF5AF830BE8A")) None
  = Ok false /\
  UUID (py "{c9bf9e57-1685-4c89-bafb-ff5af830be8a}") (Some 4)
  = Ok example_uuid4_int /\
  is_valid_uuid (Some (py "{c9bf9e57-1685-4c89-bafb-ff5af830be8a}")) None
  = Ok false /\
  is_valid_uuid (Some (py "urn:uuid:c9bf9e57-1685-4c89-bafb-ff5af830be8a")) None
  = Ok false /\
  is_valid_uuid (Some (py "c9bf9e5716854c89bafbff5af830be8a")) None = Ok false.
Proof.
  split; [|repeat split; vm_compute; reflexivity].
  intros id version Hvalid.
  destruct (is_valid_uuid_matches id version Hvalid) as (v & Hv).
  apply uuid_matches_canonical in Hv. destruct Hv as (_ & n & Hn & -> & _).
  rewrite (uuid_str_hyphenate n Hn).
  pose proof (hex_digits_length 32 n) as Hlen.
  pose proof (hex_digits_lower 32 n) as Hhex.
  generalize dependent (hex_digits 32 n). intros h Hlen Hhex.
  assert (Hgroups :
    length (firstn 8 h) = 8%nat /\ length (firstn 4 (skipn 8 h)) = 4%nat /\
    length (firstn 4 (skipn 12 h)) = 4%nat /\
    length (firstn 4 (skipn 16 h)) = 4%nat /\ length (skipn 20 h) = 12%nat).
  { rewrite !length_firstn, !length_skipn, Hlen. repeat split; reflexivity. }
  destruct Hgroups as (Ha & Hb & Hc & Hd & He). split.
  - unfold hyphenate. rewrite !length_app, Ha, Hb, Hc, Hd, He. reflexivity.
  - exists (firstn 8 h), (firstn 4 (skipn 8 h)), (firstn 4 (skipn 12 h)),
      (firstn 4 (skipn 16 h)), (skipn 20 h).
    repeat split; try assumption. rewrite regroup. exact Hhex.
Qed.

Lemma is_valid_uuid_canonical_form_witness :
  length example_uuid4 = 36%nat /\
  exists a b c d e,
    example_uuid4
    = a ++ py "-" ++ b ++ py "-" ++ c ++ py "-" ++ d ++ py "-" ++ e /\
    length a = 8%nat /\ length b = 4%nat /\ length c = 4%nat /\
    length d = 4%nat /\ length e = 12%nat /\
    Forall (fun x => lower_hex x = true) (a ++ b ++ c ++ d ++ e).
Proof.
  apply (proj1 is_valid_uuid_canonical_form example_uuid4 (Some 4)).
  vm_compute. reflexivity.
Defined.

(** X13.  At most one version fits a text, so the order in which
    [get_uuid_version] tries the versions decides nothing: it returns a
    version exactly when that version is one of 1, 3, 4, 5 and a UUID of
    that version can be built from the text and is written back as the
    same text. *)
Theorem get_uuid_version_unique :
  (forall (id : str) (v w u u' : Z),
     UUID id (Some v) = Ok u -> uuid_str u = id ->
     UUID id (Some w) = Ok u' -> uuid_str u' = id ->
     v = w) /\
  (forall (id : str) (version : Z),
     get_uuid_version id = Ok (Some version) <->
     In version SUPPORTED_UUID_VERSIONS /\
     exists uuid_obj,
       UUID id (Some version) = Ok uuid_obj /\ uuid_str uuid_obj = id).
Proof.
  assert (Hunique : forall id v w,
            uuid_matches id v = true -> uuid_matches id w = true -> v = w).
  { intros id v w Hv Hw.
    apply uuid_matches_canonical in Hv, Hw.
    destruct Hv as (_ & n & Hn & -> & <- & _).
    destruct Hw as (_ & m & Hm & Heq & <- & _).
    apply uuid_str_inj in Heq; [now subst|assumption|assumption]. }
  split.
  - intros id v w u u' Hu Hstr Hu' Hstr'. apply (Hunique id).
    + apply uuid_matches_built. now exists u.
    + apply uuid_matches_built. now exists u'.
  - intros id version. rewrite <- uuid_matches_built, get_uuid_version_find.
    split.
    + intros H.
      assert (H' : find (uuid_matches id) SUPPORTED_UUID_VERSIONS = Some version)
        by congruence.
      now apply find_some in H'.
    + intros [Hin Hmatch]. f_equal.
      destruct (find _ _) as [w|] eqn:E.
      * apply find_some in E. f_equal. now apply (Hunique id).
      * apply (find_none _ _ E) in Hin. congruence.
Qed.

Lemma get_uuid_version_unique_witness :
  get_uuid_version example_uuid4 = Ok (Some 4) /\
  (forall w u',
     UUID example_uuid4 (Some w) = Ok u' -> uuid_str u' = example_uuid4 ->
     4 = w).
Proof.
  destruct get_uuid_version_unique as (Hunique & Hiff). split.
  - apply Hiff. split.
    + vm_compute. tauto.
    + exists example_uuid4_int. split; vm_compute; reflexivity.
  - intros w u'. apply (Hunique example_uuid4 4 w example_uuid4_int u');
      vm_compute; reflexivity.
Defined.

(** X14.  Versions other than 1, 3, 4, 5 are not recognised: for the
    canonical text of a UUID of another version [get_uuid_version]
    returns [None] and [is_valid_uuid] without a version returns [False].
    With version 2 asked for, [is_valid_uuid] accepts the canonical text
    of a version-2 UUID, which it refuses when no version is given. *)
Theorem unsupported_uuid_versions :
  (forall n,
     0 <= n < 2 ^ 128 ->
     ~ In (uuid_version n) SUPPORTED_UUID_VERSIONS ->
     get_uuid_version (uuid_str n) = Ok None /\
     is_valid_uuid (Some (uuid_str n)) None = Ok false) /\
  (forall n,
     0 <= n < 2 ^ 128 -> uuid_version n = 2 -> uuid_variant n = 2 ->
     is_valid_uuid (Some (uuid_str n)) (Some 2) = Ok true /\
     is_valid_uuid (Some (uuid_str n)) None = Ok false).
Proof.
  assert (Hnone : forall n,
            0 <= n < 2 ^ 128 ->
            ~ In (uuid_version n) SUPPORTED_UUID_VERSIONS ->
            find (uuid_matches (uuid_str n)) SUPPORTED_UUID_VERSIONS = None).
  { intros n Hn Hversion.
    destruct (find _ _) as [w|] eqn:E; [|reflexivity].
    apply find_some in E. destruct E as [Hin E].
    apply uuid_matches_canonical in E.
    destruct E as (_ & m & Hm & Heq & <- & _).
    apply uuid_str_inj in Heq; [|assumption|assumption]. subst m. tauto. }
  split.
  - intros n Hn Hversion. split.
    + now rewrite get_uuid_version_find, Hnone.
    + rewrite is_valid_uuid_eq by apply uuid_str_nonempty. now rewrite Hnone.
  - intros n Hn Hversion Hvariant. split.
    + rewrite is_valid_uuid_eq by apply uuid_str_nonempty. f_equal.
      apply uuid_matches_canonical. split; [lia|]. now exists n.
    + rewrite is_valid_uuid_eq by apply uuid_str_nonempty.
      rewrite Hnone; [reflexivity|assumption|].
      rewrite Hversion. vm_compute. intuition discriminate.
Qed.

Lemma unsupported_uuid_versions_witness :
  get_uuid_version (uuid_str example_uuid2_int) = Ok None /\
  is_valid_uuid (Some (uuid_str example_uuid2_int)) (Some 2) = Ok true /\
  is_valid_uuid (Some (uuid_str example_uuid2_int)) None = Ok false.
Proof.
  destruct unsupported_uuid_versions as (Hnone & Htwo).
  assert (Hn : 0 <= example_uuid2_int < 2 ^ 128)
    by (unfold example_uuid2_int; lia).
  split.
  - apply Hnone; [exact Hn|]. vm_compute. intuition discriminate.
  - apply Htwo; [exact Hn| |]; vm_compute; reflexivity.
Defined.

(** X15.  With a version given, [is_valid_uuid] accepts exactly the
    canonical texts of that version, for the versions 1 to 5; for any
    other version number it returns [False] whatever the text. *)
Theorem is_valid_uuid_with_version :
  forall (id : str) (version : Z),
    id <> [] ->
    (is_valid_uuid (Some id) (Some version) = Ok true <->
     1 <= version <= 5 /\
     exists n, 0 <= n < 2 ^ 128 /\ id = uuid_str n /\
               uuid_version n = version /\ uuid_variant n = 2) /\
    (~ 1 <= version <= 5 ->
     is_valid_uuid (Some id) (Some version) = Ok false).
Proof.
  intros id version Hid. rewrite is_valid_uuid_eq by assumption. split.
  - rewrite <- uuid_matches_canonical. split; [now intros [= H]|now intros ->].
  - intros Hversion. f_equal.
    destruct (uuid_matches id version) eqn:E; [|reflexivity].
    apply uuid_matches_canonical in E. tauto.
Qed.

Lemma is_valid_uuid_with_version_witness :
  is_valid_uuid (Some example_uuid4) (Some 7) = Ok false /\
  (1 <= 4 <= 5 /\
   exists n, 0 <= n < 2 ^ 128 /\ example_uuid4 = uuid_str n /\
             uuid_version n = 4 /\ uuid_variant n = 2).
Proof.
  split.
  - apply (is_valid_uuid_with_version example_uuid4 7); [discriminate|lia].
  - apply (proj1 (is_valid_uuid_with_version example_uuid4 4 ltac:(discriminate))).
    vm_compute. reflexivity.
Defined.

(** X16.  Only the RFC 4122 variant is valid: the canonical text of a
    128-bit integer with another variant, the nil UUID among them, is
    refused whatever version is asked for. *)
Theorem is_valid_uuid_variant :
  (forall (n : Z) (version : option Z),
     0 <= n < 2 ^ 128 -> uuid_variant n <> 2 ->
     is_valid_uuid (Some (uuid_str n)) version = Ok false) /\
  uuid_str 0 = py "00000000-0000-0000-0000-000000000000".
Proof.
  split; [|vm_compute; reflexivity].
  intros n version Hn Hvariant.
  rewrite is_valid_uuid_eq by apply uuid_str_nonempty. f_equal.
  assert (Hno : forall v, uuid_matches (uuid_str n) v = false).
  { intros v. destruct (uuid_matches (uuid_str n) v) eqn:E; [|reflexivity].
    apply uuid_matches_canonical in E.
    destruct E as (_ & m & Hm & Heq & _ & Hvar).
    apply uuid_str_inj in Heq; [|assumption|assumption]. subst m. tauto. }
  destruct version as [v|]; [apply Hno|].
  destruct (find _ _) as [w|] eqn:E; [|reflexivity].
  apply find_some in E. destruct E as [_ E]. now rewrite Hno in E.
Qed.

Lemma is_valid_uuid_variant_witness :
  is_valid_uuid (Some (py "00000000-0000-0000-0000-000000000000")) None
  = Ok false.
Proof.
  destruct is_valid_uuid_variant as (Hvariant & Hnil). rewrite <- Hnil.
  apply Hvariant; [lia|]. vm_compute. discriminate.
Defined.

(** ** The JSON wrappers *)

(** X17.  The wrappers catch three classes of errors and no other: an
    exception of another class raised by the decoder, in the first or in
    the second decoding, or by the encoder, leaves the wrapper as it
    is, and no default is returned. *)
Theorem safe_json_uncaught_errors :
  (forall (json_loads : str -> outcome pyval) (text : str) (default : pyval)
          (double : bool) (e : exn),
     json_loads text = Raise e ->
     caught [TypeError; ValueError; JSONDecodeError] e = false ->
     safe_json_loads json_loads (PStr text) default double = Raise e) /\
  (forall (json_loads : str -> outcome pyval) (text inner : str)
          (default : pyval) (e : exn),
     json_loads text = Ok (PStr inner) ->
     startswith inner (py "{") || startswith inner (py "[") = true ->
     json_loads inner = Raise e ->
     caught [TypeError; ValueError; JSONDecodeError] e = false ->
     safe_json_loads json_loads (PStr text) default true = Raise e) /\
  (forall (json_dumps : pyval -> outcome str) (data default : pyval) (e : exn),
     json_dumps data = Raise e ->
     caught [TypeError; ValueError; OverflowError] e = false ->
     safe_json_dumps json_dumps data default = Raise e) /\
  caught [TypeError; ValueError; JSONDecodeError] RecursionError = false /\
  caught [TypeError; ValueError; OverflowError] RecursionError = false.
Proof.
  split; [|split; [|split; [|split; reflexivity]]].
  - intros json_loads text default double e Hload He.
    unfold safe_json_loads. rewrite Hload. cbn [bind try_except].
    now rewrite He.
  - intros json_loads text inner default e Hload Hlooks Hinner He.
    unfold safe_json_loads. rewrite Hload. cbn [bind].
    rewrite Hlooks, Hinner. cbn [bind try_except]. rewrite He.
    cbn [bind try_except]. now rewrite He.
  - intros json_dumps data default e Hdump He.
    unfold safe_json_dumps. rewrite Hdump. cbn [bind try_except].
    now rewrite He.
Qed.

Lemma safe_json_uncaught_errors_witness :
  safe_json_loads (fun _ => Raise RecursionError) (PStr (py "[[[[")) PNone false
  = Raise RecursionError /\
  safe_json_loads
    (fun s => if startswith s [34%N] then Ok (PStr (py "[[[["))
              else Raise RecursionError)
    (PStr ([34%N] ++ py "[[[[" ++ [34%N])) PNone true
  = Raise RecursionError /\
  safe_json_dumps (fun _ => Raise RecursionError) (PList []) PNone
  = Raise RecursionError.
Proof.
  destruct safe_json_uncaught_errors as (Hload & Hinner & Hdump & _).
  split; [|split].
  - apply Hload; reflexivity.
  - apply (Hinner _ _ (py "[[[[")); reflexivity.
  - apply Hdump; reflexivity.
Defined.

(** X18.  With the reference decoder no error but [RecursionError]
    leaves [safe_json_loads]: whatever the input, the default, the flag
    and the recursion limit, it returns a value or raises
    [RecursionError]; and it returns a value when the input is not a
    string. *)
Theorem safe_json_loads_raises_only_recursion_error :
  forall (strtod : str -> float64) (frames : nat) (data default : pyval)
         (double : bool),
    ((exists v,
        safe_json_loads (json_loads_ref strtod frames) data default double
        = Ok v) \/
     safe_json_loads (json_loads_ref strtod frames) data default double
     = Raise RecursionError) /\
    ((forall text, data <> PStr text) ->
     exists v,
       safe_json_loads (json_loads_ref strtod frames) data default double
       = Ok v).
Proof.
  intros strtod frames data default double.
  destruct data as [ | b | n | f | text | items | items | items | c ];
    try (split; [left|intros _]; eexists; reflexivity).
  split; [|intros H; now destruct (H text)].
  destruct (json_loads_ref strtod frames text) as [first|e] eqn:Hfirst.
  - destruct double.
    + assert (Hother : (forall inner, first <> PStr inner) ->
                       exists v, safe_json_loads (json_loads_ref strtod frames)
                                   (PStr text) default true = Ok v).
      { intros H. eexists.
        apply (safe_json_loads_not_str_result _ _ _ _ _ Hfirst H). }
      destruct first as [ | | | | inner | | | | ];
        try (left; apply Hother; intros; discriminate).
      destruct (looks_like_json inner) eqn:Hlooks.
      * destruct (json_loads_ref strtod frames inner) as [second|e] eqn:Hsecond.
        -- left. eexists. eapply safe_json_loads_double; eauto.
        -- destruct (json_loads_ref_raises _ _ _ _ Hsecond) as [Hcaught| ->].
           ++ left. eexists. eapply safe_json_loads_double_failure; eauto.
           ++ right. eapply safe_json_loads_double_uncaught; eauto.
      * left. eexists. eapply safe_json_loads_plain_text; eauto.
    + left. eexists. eapply safe_json_loads_single; eauto.
  - destruct (json_loads_ref_raises _ _ _ _ Hfirst) as [Hcaught| ->].
    + left. eexists. eapply safe_json_loads_failure; eauto.
    + right. eapply safe_json_loads_uncaught; eauto.
Qed.

Lemma safe_json_loads_raises_only_recursion_error_witness :
  exists v,
    safe_json_loads (json_loads_ref (fun _ => 0) 1000) (PInt 7) PNone true
    = Ok v.
Proof.
  apply (proj2 (safe_json_loads_raises_only_recursion_error
                  (fun _ => 0) 1000 (PInt 7) PNone true)).
  intros text. discriminate.
Defined.

(** ** Filter operators *)

(** X19.  The flag matters for [contains], for [does not contain] and
    for unknown operators only: [convert_operator] gives the same
    operator with and without it exactly for [is empty], [is not empty]
    and the six comparisons. *)
Theorem convert_operator_flag :
  forall operator : str,
    convert_operator operator true = convert_operator operator false <->
    In operator
       [ py "is empty"; py "is not empty";
         py "="; py "!="; py "<"; py ">"; py "<="; py ">=" ].
Proof.
  intros operator. split.
  - intros Heq.
    destruct (existsb (str_eqb operator) known_operators) eqn:Hknown.
    + apply in_by_eqb in Hknown.
      destruct Hknown as [<-|[<-|Hknown]];
        [vm_compute in Heq; discriminate Heq
        |vm_compute in Heq; discriminate Heq
        |exact Hknown].
    + apply not_in_by_eqb in Hknown.
      rewrite !convert_operator_unknown in Heq by assumption.
      vm_compute in Heq. discriminate Heq.
  - intros H.
    repeat (destruct H as [<-|H]; [vm_compute; reflexivity|]). destruct H.
Qed.

Lemma convert_operator_flag_witness :
  convert_operator (py "<=") true = convert_operator (py "<=") false.
Proof.
  apply (proj2 (convert_operator_flag (py "<="))). apply in_by_eqb.
  vm_compute. reflexivity.
Defined.
